(** * kit: resilient resource-access core (database, cache, migrator)

    A shallow embedding of the Go sources [cache.go] (the cache client and
    the database client) and of the migrator, and the properties of their
    transaction manager, error classifiers, health checks, connection retry
    and schema migration. *)

From Stdlib Require Import ZArith String Ascii List Bool Lia.
From stdpp Require Import gmap pretty.
Import ListNotations.

Local Open Scope string_scope.
Local Open Scope Z_scope.
Local Open Scope list_scope.

(** ** Go integers *)

Module GoInt.

(** Go's [int] and [uint] are 64 bits wide on the supported targets. *)
Definition wrap_unsigned (bits : Z) (x : Z) : Z := x mod 2 ^ bits.

Definition wrap_signed (bits : Z) (x : Z) : Z :=
  (x + 2 ^ (bits - 1)) mod 2 ^ bits - 2 ^ (bits - 1).

(** The conversions [uint(x)], [int(x)], [int32(x)], [uint32(x)]. *)
Definition uint (x : Z) : Z := wrap_unsigned 64 x.
Definition int (x : Z) : Z := wrap_signed 64 x.
Definition int32 (x : Z) : Z := wrap_signed 32 x.
Definition uint32 (x : Z) : Z := wrap_unsigned 32 x.

End GoInt.

(** ** Errors *)

(** The error constructors the sources call. [ErrDeadlineExceeded] is
    [util.ErrDeadlineExceeded]. *)
Inductive ErrKind : Type :=
| ErrDatabaseGeneric
| ErrDatabaseTimedOut
| ErrDatabaseUnhealthy
| ErrDatabaseTransactionFailed
| ErrDatabaseNoRows
| ErrDatabaseIntegrityViolation
| ErrCacheGeneric
| ErrCacheTimedOut
| ErrCacheUnhealthy
| ErrCacheMiss
| ErrMigratorGeneric
| ErrMigratorTimedOut
| ErrDeadlineExceeded.

(** The error taxonomy of the specification. *)
Inductive Kind : Type :=
| Generic | TimedOut | Unhealthy | NotFound | IntegrityViolation
| TransactionFailed.

Definition semantic_kind (k : ErrKind) : Kind :=
  match k with
  | ErrDatabaseGeneric | ErrCacheGeneric | ErrMigratorGeneric => Generic
  | ErrDatabaseTimedOut | ErrCacheTimedOut | ErrMigratorTimedOut
  | ErrDeadlineExceeded => TimedOut
  | ErrDatabaseUnhealthy | ErrCacheUnhealthy => Unhealthy
  | ErrDatabaseTransactionFailed => TransactionFailed
  | ErrDatabaseNoRows | ErrCacheMiss => NotFound
  | ErrDatabaseIntegrityViolation => IntegrityViolation
  end.

Definition ErrKind_eqb (a b : ErrKind) : bool :=
  match a, b with
  | ErrDatabaseGeneric, ErrDatabaseGeneric
  | ErrDatabaseTimedOut, ErrDatabaseTimedOut
  | ErrDatabaseUnhealthy, ErrDatabaseUnhealthy
  | ErrDatabaseTransactionFailed, ErrDatabaseTransactionFailed
  | ErrDatabaseNoRows, ErrDatabaseNoRows
  | ErrDatabaseIntegrityViolation, ErrDatabaseIntegrityViolation
  | ErrCacheGeneric, ErrCacheGeneric
  | ErrCacheTimedOut, ErrCacheTimedOut
  | ErrCacheUnhealthy, ErrCacheUnhealthy
  | ErrCacheMiss, ErrCacheMiss
  | ErrMigratorGeneric, ErrMigratorGeneric
  | ErrMigratorTimedOut, ErrMigratorTimedOut
  | ErrDeadlineExceeded, ErrDeadlineExceeded => true
  | _, _ => false
  end.

(** Modelled from the spec: the kit [Error] value (errors.go is not among
    the sources). Section 3: an error of one of the kinds, "immutable once
    constructed, may carry a wrapped cause and free-form context fields".

    A Go [error] is either a value of a driver or of the standard library,
    known by its identity (the comparison [err == sentinel] is a pointer
    comparison) and by its [Error()] text, or a kit error: its constructor,
    the context given to [Withf]/[With] (format and integer arguments) and
    the wrapped cause; or an error to which a second one was attached by
    [CombineErrors]. *)
#[warnings="-register-all"]
Inductive error : Type :=
| Raw (addr : N) (text : string)
| Kit (kind : ErrKind) (extra : option (string * list Z))
      (cause : option error)
| Combined (err : error) (other : error).

(** [ErrX().Wrap(err)], [ErrX().WrapAs(err)], [ErrX().WrapWithDepth(d, err)],
    and [ErrX.Raise().Cause(err)] of the later error package: the receiver is
    a fresh error of kind [ErrX]; the spec distinguishes them by nothing but
    the wrapped cause (the depth only moves the recorded stack frame). *)
Definition New (k : ErrKind) : error := Kit k None None.
Definition Wrap (k : ErrKind) (err : option error) : error := Kit k None err.
Definition WrapAs (k : ErrKind) (err : option error) : error := Kit k None err.
Definition WrapWithDepth (k : ErrKind) (depth : Z) (err : option error) : error :=
  Kit k None err.
Definition Withf (k : ErrKind) (format : string) (args : list Z) : error :=
  Kit k (Some (format, args)) None.

(** Modelled from the spec: [Utils.CombineErrors] of the earlier revision
    (not among the sources). Section 4.3: "the rollback error, if any, is
    attached as additional context to the primary error rather than replacing
    it". *)
Definition CombineErrors (err : error) (other : option error) : error :=
  match other with
  | None => err
  | Some o => Combined err o
  end.

(** [ErrX.Is(err)]: some error of the chain of [err] is of kind [ErrX]. An
    attached error is context: it is not part of the chain. *)
Fixpoint Is (k : ErrKind) (err : error) : bool :=
  match err with
  | Raw _ _ => false
  | Kit k' _ c =>
      ErrKind_eqb k k' || match c with Some e => Is k e | None => false end
  | Combined e _ => Is k e
  end.

(** The kind a caller sees first: the outermost constructor. *)
Fixpoint kind_of (err : error) : option ErrKind :=
  match err with
  | Raw _ _ => None
  | Kit k _ _ => Some k
  | Combined e _ => kind_of e
  end.

Fixpoint cause_of (err : error) : option error :=
  match err with
  | Raw _ _ => None
  | Kit _ _ c => c
  | Combined e _ => cause_of e
  end.

(** How many kit errors are stacked on top of the driver error. *)
Fixpoint wrap_depth (err : error) : nat :=
  match err with
  | Raw _ _ => O
  | Kit _ _ c => S (match c with Some e => wrap_depth e | None => O end)
  | Combined e _ => wrap_depth e
  end.

(** The errors attached along the chain of [err]. *)
Fixpoint attached (err : error) : list error :=
  match err with
  | Raw _ _ => []
  | Kit _ _ c => match c with Some e => attached e | None => [] end
  | Combined e o => attached e ++ [o]
  end.

(** The text of a kit error is produced by errors.go, which is not among
    the sources: it is a parameter of the development. It receives the
    constructor, the context and the text of the cause. *)
Class KitText := kit_text :
  ErrKind -> option (string * list Z) -> option string -> string.

Fixpoint Error `{KitText} (err : error) : string :=
  match err with
  | Raw _ text => text
  | Kit k x c =>
      kit_text k x (match c with Some e => Some (Error e) | None => None end)
  | Combined e _ => Error e
  end.

(** Sentinels of the drivers: [cache.ErrCacheMiss] (go-redis/cache) and
    [pgx.ErrNoRows], each a single [errors.New] value. *)
Definition cache_ErrCacheMiss : error := Raw 1 "cache: key is missing".
Definition pgx_ErrNoRows : error := Raw 2 "no rows in result set".

(** [err == sentinel] on interface values holding pointers. *)
Definition same_error (a b : error) : bool :=
  match a, b with
  | Raw x _, Raw y _ => N.eqb x y
  | _, _ => false
  end.

(** ** The regular expression of [_DATABASE_ERR_PGCODE]

    The pattern is an opening parenthesis, the word SQLSTATE, a space, a
    greedy group of any characters but newline, and a closing parenthesis. *)

Module Regexp.

Definition newline : ascii := "010"%char.
Definition close_paren : ascii := ")"%char.

Fixpoint strip_prefix (p s : string) : option string :=
  match p, s with
  | EmptyString, _ => Some s
  | String a p', String b s' =>
      if Ascii.eqb a b then strip_prefix p' s' else None
  | String _ _, EmptyString => None
  end.

(** What the group may range over: the text up to the next newline. *)
Fixpoint line_prefix (s : string) : string :=
  match s with
  | EmptyString => EmptyString
  | String c r =>
      if Ascii.eqb c newline then EmptyString else String c (line_prefix r)
  end.

(** The greedy group followed by the closing parenthesis: the text before
    the last closing parenthesis. *)
Fixpoint before_last_close (s : string) : option string :=
  match s with
  | EmptyString => None
  | String c r =>
      match before_last_close r with
      | Some t => Some (String c t)
      | None => if Ascii.eqb c close_paren then Some EmptyString else None
      end
  end.

Definition sqlstate_prefix : string := "(SQLSTATE ".

Definition match_here (s : string) : option string :=
  match strip_prefix sqlstate_prefix s with
  | Some rest => before_last_close (line_prefix rest)
  | None => None
  end.

(** [_DATABASE_ERR_PGCODE.FindStringSubmatch(s)]: the leftmost match and its
    group, or nil. *)
Fixpoint FindStringSubmatch (s : string) : list string :=
  match match_here s with
  | Some code => [(sqlstate_prefix ++ code ++ ")")%string; code]
  | None =>
      match s with
      | EmptyString => []
      | String _ r => FindStringSubmatch r
      end
  end.

End Regexp.

(** ** Error classification *)

Module pgerrcode.
Definition IntegrityConstraintViolation : string := "23000".
Definition RestrictViolation : string := "23001".
Definition NotNullViolation : string := "23502".
Definition ForeignKeyViolation : string := "23503".
Definition UniqueViolation : string := "23505".
Definition CheckViolation : string := "23514".
Definition ExclusionViolation : string := "23P01".
End pgerrcode.

Definition integrity_codes : list string :=
  [pgerrcode.IntegrityConstraintViolation; pgerrcode.RestrictViolation;
   pgerrcode.NotNullViolation; pgerrcode.ForeignKeyViolation;
   pgerrcode.UniqueViolation; pgerrcode.CheckViolation;
   pgerrcode.ExclusionViolation].

Definition is_integrity_code (code : string) : bool :=
  existsb (String.eqb code) integrity_codes.

(** [_dbErrToError] (the same text in both revisions of the database
    client). A nil [*Error] is [None]. *)
Definition _dbErrToError `{KitText} (err : option error) : option error :=
  match err with
  | None => None
  | Some e =>
      let code := Regexp.FindStringSubmatch (Error e) in
      if (Nat.eqb (List.length code) 2
          && is_integrity_code (nth 1 code EmptyString))%bool
      then Some (WrapWithDepth ErrDatabaseIntegrityViolation 1 (Some e))
      else if String.eqb (Error e) (Error pgx_ErrNoRows)
      then Some (WrapWithDepth ErrDatabaseNoRows 1 (Some e))
      else Some (WrapWithDepth ErrDatabaseGeneric 1 (Some e))
  end.

(** [_chErrToError]. *)
Definition _chErrToError (err : option error) : option error :=
  match err with
  | None => None
  | Some e =>
      if same_error e cache_ErrCacheMiss
      then Some (WrapWithDepth ErrCacheMiss 1 (Some e))
      else Some (WrapWithDepth ErrCacheGeneric 1 (Some e))
  end.

(** ** Effects: the calls that leave the process *)

(** Arguments of a log line. *)
Inductive Arg : Type := AInt (n : Z) | AStr (s : string).

(** [cache.Item] as [Cache.Set] builds it ([Ctx] is the ambient context and
    is left out; the value, of any type, is taken as its encoding).
    Durations are nanoseconds. *)
Record Item : Type := mkItem {
  Key : string;
  Value : string;
  TTL : Z;
  SkipLocalCache : bool
}.

(** A call to a driver, to the context or to the observer, with what it
    returned. A transaction handle is the position of its [BeginTx] in the
    history. *)
Inductive Event : Type :=
| EvInfof (format : string) (args : list Arg)
| EvSleep (d : Z)
| EvCtxErr (r : option error)
| EvBeginTx (IsoLevel : string) (AccessMode : string) (r : option error)
| EvCommit (tx : nat) (r : option error)
| EvRollback (tx : nat) (r : option error)
| EvExec (tx : option nat) (sql : string) (rows : Z) (r : option error)
| EvQuery (tx : option nat) (sql : string) (r : option error)
| EvScan (r : option error)
| EvConnect (r : option error)
| EvStat (TotalConns : Z)
| EvPing (result : string) (r : option error)
| EvCacheSet (item : Item) (r : option error)
| EvVersion (version : Z) (dirty : bool) (r : option error)
| EvMigrate (version : Z) (r : option error).

Definition World : Type := list Event.

(** What the environment answers, as a function of everything that happened
    so far. Nothing is assumed about it. *)
Record Driver : Type := mkDriver {
  ctx_Err : World -> option error;
  pool_BeginTx : World -> option error;
  tx_Commit : World -> option error;
  tx_Rollback : World -> option error;
  conn_Exec : World -> string -> Z * option error;
  conn_Query : World -> string -> option error;
  rows_Scan : World -> option error;
  pool_Connect : World -> option error;
  pool_TotalConns : World -> Z;
  pool_Ping : World -> string * option error;
  cache_Set : World -> Item -> option error;
  migrate_Version : World -> Z * bool * option error;
  migrate_Migrate : World -> Z -> option error;
  pgxpool_ParseConfig : string -> option error;
  runtime_GOMAXPROCS : Z
}.

(** A value given to [panic]. Go 1.21 (the sources use the [max] builtin)
    turns [panic(nil)] into a run-time error, so that [recover()] is nil only
    when nothing panicked. *)
Inductive PanicVal : Type :=
| PanicError (e : error)
| PanicValue (v : string)
| PanicNilDereference
| PanicTypeAssertion.

Inductive Outcome (A : Type) : Type :=
| Done (a : A)
| Panicked (v : PanicVal).
Arguments Done {A} a.
Arguments Panicked {A} v.

(** Computations: given the history so far, the calls they make, in order,
    and how they end. *)
Definition M (A : Type) : Type := World -> list Event * Outcome A.

Definition ret {A} (a : A) : M A := fun _ => ([], Done a).

Definition bind {A B} (m : M A) (k : A -> M B) : M B :=
  fun w =>
    match m w with
    | (evs, Done a) =>
        let r := k a (w ++ evs) in (evs ++ fst r, snd r)
    | (evs, Panicked v) => (evs, Panicked v)
    end.

Definition panic {A} (v : PanicVal) : M A := fun _ => ([], Panicked v).

(** [defer func() { if err := recover(); err != nil { handler } }()] placed
    before [body]. *)
Definition defer_recover {A} (handler : PanicVal -> M A) (body : M A) : M A :=
  fun w =>
    match body w with
    | (evs, Done a) => (evs, Done a)
    | (evs, Panicked v) =>
        let r := handler v (w ++ evs) in (evs ++ fst r, snd r)
    end.

(** An outside call: its answer is read from the history before the call and
    recorded with it. *)
Definition call {R} (answer : World -> R) (ev : R -> Event) : M R :=
  fun w => let r := answer w in ([ev r], Done r).

Declare Scope go_scope.
Delimit Scope go_scope with go.
Notation "x <- m ;; k" := (bind m (fun x => k))
  (at level 100, m at next level, right associativity) : go_scope.
Notation "m ;;; k" := (bind m (fun _ => k))
  (at level 100, right associativity) : go_scope.
Local Open Scope go_scope.

Definition events {A} (r : list Event * Outcome A) : list Event := fst r.
Definition outcome {A} (r : list Event * Outcome A) : Outcome A := snd r.

(** A context: the transaction handle stored under [KeyDatabaseTransaction]
    and the deadline, counted in outside calls: [Some k] expires once [k]
    further calls have been made. *)
Record Ctx : Type := mkCtx {
  ctx_tx : option nat;
  ctx_deadline : option nat
}.

Definition WithValue (ctx : Ctx) (tx : nat) : Ctx :=
  {| ctx_tx := Some tx; ctx_deadline := ctx_deadline ctx |}.

(** ** util *)

Module util.

(** Modelled from the spec: [util.Deadline] (the util package is not among
    the sources). Section 4.1: without a deadline [fn] runs to completion and
    its error is returned unchanged; with a deadline the executor waits for
    [fn] or for the expiry, whichever comes first, and on expiry returns the
    timeout at once, the wrapped operation being abandoned. The argument of
    [fn], the cancellation channel, is used by no caller. *)
Definition Deadline (ctx : Ctx) (fn : M (option error)) : M (option error) :=
  fun w =>
    let r := fn w in
    match ctx_deadline ctx with
    | None => r
    | Some k =>
        if Nat.leb (List.length (events r)) k then r
        else (firstn k (events r), Done (Some (New ErrDeadlineExceeded)))
    end.

(** [errors.Is(err, target)] for a target of the retriable list. *)
Fixpoint chain_has_raw (addr : N) (err : error) : bool :=
  match err with
  | Raw a _ => N.eqb a addr
  | Kit _ _ c => match c with Some e => chain_has_raw addr e | None => false end
  | Combined e _ => chain_has_raw addr e
  end.

Definition matches (err target : error) : bool :=
  match kind_of target, target with
  | Some k, _ => Is k err
  | None, Raw a _ => chain_has_raw a err
  | None, _ => false
  end.

Definition retriable (retriables : list error) (err : error) : bool :=
  match retriables with
  | [] => true
  | _ => existsb (matches err) retriables
  end.

(** The delay after a failed attempt: doubled, and capped when the cap is not
    zero. *)
Definition backoff (limitDelay delay : Z) : Z :=
  let d := 2 * delay in
  if Z.eqb limitDelay 0 then d else Z.min d limitDelay.

Definition capped (limitDelay delay : Z) : Z :=
  if Z.eqb limitDelay 0 then delay else Z.min delay limitDelay.

Fixpoint retry_loop (remaining : nat) (attempt delay limitDelay : Z)
    (retriables : list error) (fn : Z -> M (option error)) : M (option error) :=
  match remaining with
  | O => ret None
  | S rest =>
      r <- fn attempt ;;
      match r, rest with
      | None, _ => ret None
      | Some e, O => ret (Some e)
      | Some e, S _ =>
          if retriable retriables e then
            call (fun _ => tt) (fun _ => EvSleep (capped limitDelay delay)) ;;;
            retry_loop rest (attempt + 1) (backoff limitDelay delay) limitDelay
              retriables fn
          else ret (Some e)
      end
  end.

(** Modelled from the spec: [util.ExponentialRetry]. Section 4.2: attempts
    are numbered from 1; it stops after [attempts] failed tries or on the
    first success; the delay starts at [initialDelay], doubles, and is capped
    at [limitDelay]; with a non-empty list of retriable errors a failure that
    matches none of them is returned at once; the last failure is the one
    returned. The spec says nothing of [attempts] below 1: no try is made
    then. *)
Definition ExponentialRetry (attempts : Z) (initialDelay limitDelay : Z)
    (retriables : list error) (fn : Z -> M (option error)) : M (option error) :=
  retry_loop (Z.to_nat attempts) 1 initialDelay limitDelay retriables fn.

(** [util.Optional(retry, default)]: the first variadic argument, if any. *)
Definition Optional {A} (xs : list A) (def : A) : A :=
  match xs with x :: _ => x | [] => def end.

(** [util.Merge] on one optional field: a nil pointer takes the default. *)
Definition merge_field {A} (x def : option A) : option A :=
  match x with Some _ => x | None => def end.

End util.

(** [RetryConfig]; durations are nanoseconds. *)
Record RetryConfig : Type := mkRetryConfig {
  Attempts : Z;
  InitialDelay : Z;
  LimitDelay : Z;
  Retriables : list error
}.

Definition second : Z := 1000000000.
Definition minute : Z := 60 * second.
Definition hour : Z := 60 * minute.

(** ** The database client *)

Module pgx.
(** [pgx.TxIsoLevel] and [pgx.TxAccessMode] are string types. *)
Definition Serializable : string := "serializable".
Definition RepeatableRead : string := "repeatable read".
Definition ReadCommitted : string := "read committed".
Definition ReadUncommitted : string := "read uncommitted".
Definition ReadWrite : string := "read write".
End pgx.

Definition IsolationLevel : Type := Z.

(** The four levels are declared in a [var] block, not in a [const] block
    with [iota]: the first has the initialiser [0], the three others have
    none and hold the zero value of [int]. *)
Definition zero_value : IsolationLevel := 0.
Definition IsoLvlReadUncommitted : IsolationLevel := 0.
Definition IsoLvlReadCommitted : IsolationLevel := zero_value.
Definition IsoLvlRepeatableRead : IsolationLevel := zero_value.
Definition IsoLvlSerializable : IsolationLevel := zero_value.

(** A map literal whose keys are variables: every entry is an assignment
    [m[k] = v]. *)
Definition map_literal (entries : list (IsolationLevel * string)) : gmap Z string :=
  fold_left (fun m kv => <[fst kv := snd kv]> m) entries ∅.

(** [m[k]]: the zero value when the key is absent. *)
Definition map_index (m : gmap Z string) (k : Z) : string :=
  match m !! k with Some v => v | None => EmptyString end.

Definition _KisoLevelToPisoLevel_entries : list (IsolationLevel * string) :=
  [(IsoLvlReadUncommitted, pgx.ReadUncommitted);
   (IsoLvlReadCommitted, pgx.ReadCommitted);
   (IsoLvlRepeatableRead, pgx.RepeatableRead);
   (IsoLvlSerializable, pgx.Serializable)].

(** The entries are assigned in the order of the literal (the language leaves
    the order open when keys are not constants; the compiler keeps it). *)
Definition _KisoLevelToPisoLevel : gmap Z string :=
  map_literal _KisoLevelToPisoLevel_entries.

Record DatabaseConfig : Type := mkDatabaseConfig {
  DatabaseHost : string;
  DatabasePort : Z;
  DatabaseSSLMode : string;
  DatabaseUser : string;
  DatabasePassword : string;
  DatabaseName : string;
  AppName : string;
  DatabaseMinConns : option Z;
  DatabaseMaxConns : option Z;
  DatabaseMaxConnIdleTime : option Z;
  DatabaseMaxConnLifeTime : option Z;
  DatabaseDialTimeout : option Z;
  DatabaseStatementTimeout : option Z;
  DatabaseDefaultIsolationLevel : option IsolationLevel
}.

Record Database : Type := mkDatabase {
  Database_config : DatabaseConfig;
  Database_pool : nat
}.

Definition _DATABASE_DEFAULT_RETRY_CONFIG : RetryConfig :=
  {| Attempts := 1; InitialDelay := 0 * second; LimitDelay := 0 * second;
     Retriables := [] |}.

(** [fmt.Sprintf(_DATABASE_POSTGRES_DSN, ...)]. *)
Definition _DATABASE_POSTGRES_DSN (user password host : string) (port : Z)
    (name sslmode : string) : string :=
  ("postgresql://" ++ user ++ ":" ++ password ++ "@" ++ host ++ ":"
   ++ pretty port ++ "/" ++ name ++ "?sslmode=" ++ sslmode)%string.

(** ** The cache client *)

Record CacheConfig : Type := mkCacheConfig {
  Host : string;
  Port : Z;
  SSLMode : bool;
  Password : string;
  MinConns : option Z;
  MaxConns : option Z;
  MaxConnIdleTime : option Z;
  MaxConnLifeTime : option Z;
  ReadTimeout : option Z;
  WriteTimeout : option Z;
  DialTimeout : option Z
}.

Record Cache : Type := mkCache {
  Cache_config : CacheConfig;
  Cache_pool : nat
}.

Definition _CACHE_DEFAULT_RETRY_CONFIG : RetryConfig :=
  {| Attempts := 1; InitialDelay := 0 * second; LimitDelay := 0 * second;
     Retriables := [] |}.

(** ** The migrator *)

Module migrate.
Definition ErrNilVersion : error := Raw 3 "no migration".
End migrate.

(** ** Transaction bodies *)

(** What a function passed to [Transaction] does with the context it is
    given: it returns, panics, runs statements, or opens a transaction again
    on that context and goes on with the result. *)
Inductive Body : Type :=
| Return (err : option error)
| Panic (v : PanicVal)
| DoExec (sql : string) (k : Z * option error -> Body)
| DoQuery (sql : string) (k : option error -> Body)
| DoTransaction (level : option IsolationLevel) (fn : Body)
    (k : option error -> Body).

(** Transactions opened inside one another around [b], one for each entry
    of [levels], each asking for its own level. *)
Fixpoint nested (levels : list (option IsolationLevel)) (b : Body) : Body :=
  match levels with
  | [] => b
  | level :: rest => DoTransaction level (nested rest b) Return
  end.

Section Client.

Context `{KitText} (drv : Driver).

Definition now : M nat := fun w => ([], Done (List.length w)).

Definition ctx_Err_call : M (option error) := call (ctx_Err drv) EvCtxErr.

Definition Infof (format : string) (args : list Arg) : M unit :=
  call (fun _ => tt) (fun _ => EvInfof format args).

(** *** Database *)

Definition _DATABASE_DEFAULT_CONFIG : DatabaseConfig :=
  {| DatabaseHost := ""; DatabasePort := 0; DatabaseSSLMode := "";
     DatabaseUser := ""; DatabasePassword := ""; DatabaseName := "";
     AppName := "";
     DatabaseMinConns := Some 1;
     DatabaseMaxConns := Some (Z.max 4 (2 * runtime_GOMAXPROCS drv));
     DatabaseMaxConnIdleTime := Some (30 * minute);
     DatabaseMaxConnLifeTime := Some (1 * hour);
     DatabaseDialTimeout := Some (30 * second);
     DatabaseStatementTimeout := Some (30 * second);
     DatabaseDefaultIsolationLevel := Some IsoLvlReadCommitted |}.

(** Modelled from the spec: [util.Merge(&config, defaults)] (the util package
    is not among the sources). Section 6: "unset optional fields are filled
    from documented defaults". *)
Definition Database_Merge (config def : DatabaseConfig) : DatabaseConfig :=
  {| DatabaseHost := DatabaseHost config;
     DatabasePort := DatabasePort config;
     DatabaseSSLMode := DatabaseSSLMode config;
     DatabaseUser := DatabaseUser config;
     DatabasePassword := DatabasePassword config;
     DatabaseName := DatabaseName config;
     AppName := AppName config;
     DatabaseMinConns :=
       util.merge_field (DatabaseMinConns config) (DatabaseMinConns def);
     DatabaseMaxConns :=
       util.merge_field (DatabaseMaxConns config) (DatabaseMaxConns def);
     DatabaseMaxConnIdleTime :=
       util.merge_field (DatabaseMaxConnIdleTime config)
         (DatabaseMaxConnIdleTime def);
     DatabaseMaxConnLifeTime :=
       util.merge_field (DatabaseMaxConnLifeTime config)
         (DatabaseMaxConnLifeTime def);
     DatabaseDialTimeout :=
       util.merge_field (DatabaseDialTimeout config) (DatabaseDialTimeout def);
     DatabaseStatementTimeout :=
       util.merge_field (DatabaseStatementTimeout config)
         (DatabaseStatementTimeout def);
     DatabaseDefaultIsolationLevel :=
       util.merge_field (DatabaseDefaultIsolationLevel config)
         (DatabaseDefaultIsolationLevel def) |}.

(** One connection attempt of [NewDatabase]: the function given to
    [util.ExponentialRetry]. *)
Definition NewDatabase_attempt (config : DatabaseConfig) (_retry : RetryConfig)
    (attempt : Z) : M (option error) :=
  Infof "Trying to connect to the %s database %d/%d"
    [AStr (DatabaseName config); AInt attempt; AInt (Attempts _retry)] ;;;
  err <- call (pool_Connect drv) EvConnect ;;
  match err with
  | Some _ => ret (Some (WrapAs ErrDatabaseGeneric err))
  | None =>
      err <- call (fun w => snd (pool_Ping drv w)) (EvPing "") ;;
      match err with
      | Some _ => ret (Some (WrapAs ErrDatabaseGeneric err))
      | None => ret None
      end
  end.

(** [NewDatabase] (the later revision, with [util.Merge] and a variadic
    retry configuration). The pool settings are handed to the driver as they
    are; the client is the position of the history at which it was made. *)
Definition NewDatabase (ctx : Ctx) (config : DatabaseConfig)
    (retry : list RetryConfig) : M (option Database * option error) :=
  let config := Database_Merge config _DATABASE_DEFAULT_CONFIG in
  let _retry := util.Optional retry _DATABASE_DEFAULT_RETRY_CONFIG in
  let dsn := _DATABASE_POSTGRES_DSN (DatabaseUser config)
               (DatabasePassword config) (DatabaseHost config)
               (DatabasePort config) (DatabaseName config)
               (DatabaseSSLMode config) in
  match pgxpool_ParseConfig drv dsn with
  | Some e => ret (None, Some (Wrap ErrDatabaseGeneric (Some e)))
  | None =>
      err <- util.Deadline ctx
               (util.ExponentialRetry (Attempts _retry) (InitialDelay _retry)
                  (LimitDelay _retry) (Retriables _retry)
                  (NewDatabase_attempt config _retry)) ;;
      match err with
      | None =>
          Infof "Connected to the %s database" [AStr (DatabaseName config)] ;;;
          pool <- now ;;
          ret (Some {| Database_config := config; Database_pool := pool |},
               None)
      | Some e =>
          if Is ErrDeadlineExceeded e
          then ret (None, Some (New ErrDatabaseTimedOut))
          else ret (None, Some (Wrap ErrDatabaseGeneric err))
      end
  end.

(** The function [Database.Health] gives to [util.Deadline]. *)
Definition Database_Health_check (self : Database) : M (option error) :=
  currentConns <- call (pool_TotalConns drv) EvStat ;;
  match DatabaseMinConns (Database_config self) with
  | None => panic PanicNilDereference
  | Some minConns =>
      if currentConns <? GoInt.int32 minConns
      then ret (Some (Withf ErrDatabaseUnhealthy
                        "current conns %d below minimum %d"
                        [currentConns; minConns]))
      else
        err <- call (fun w => snd (pool_Ping drv w)) (EvPing "") ;;
        match err with
        | Some _ => ret (Some (WrapAs ErrDatabaseUnhealthy err))
        | None =>
            err <- ctx_Err_call ;;
            match err with
            | Some _ => ret (Some (WrapAs ErrDatabaseUnhealthy err))
            | None => ret None
            end
        end
  end.

(** [Database.Health] (the later revision). *)
Definition Database_Health (self : Database) (ctx : Ctx) : M (option error) :=
  err <- util.Deadline ctx (Database_Health_check self) ;;
  match err with
  | None => ret None
  | Some e =>
      if Is ErrDeadlineExceeded e then ret (Some (New ErrDatabaseTimedOut))
      else ret (Some (Wrap ErrDatabaseGeneric err))
  end.

(** [Database.Exec] and [Database.Query]: against the transaction of the
    context when there is one, against the pool otherwise. *)
Definition Database_Exec (self : Database) (ctx : Ctx) (sql : string)
    : M (Z * option error) :=
  r <- call (fun w => conn_Exec drv w sql)
         (fun r => EvExec (ctx_tx ctx) sql (fst r) (snd r)) ;;
  match snd r with
  | Some _ => ret (0, _dbErrToError (snd r))
  | None =>
      err <- ctx_Err_call ;;
      match err with
      | Some _ => ret (0, _dbErrToError err)
      | None => ret (GoInt.int (fst r), None)
      end
  end.

Definition Database_Query (self : Database) (ctx : Ctx) (sql : string)
    : M (option error) :=
  err <- call (fun w => conn_Query drv w sql) (EvQuery (ctx_tx ctx) sql) ;;
  match err with
  | Some _ => ret (_dbErrToError err)
  | None =>
      err <- ctx_Err_call ;;
      match err with
      | Some _ => ret (_dbErrToError err)
      | None =>
          err <- call (rows_Scan drv) EvScan ;;
          match err with
          | Some _ => ret (_dbErrToError err)
          | None => ret None
          end
      end
  end.

Definition Rollback_call (tx : nat) : M (option error) :=
  call (tx_Rollback drv) (EvRollback tx).

Definition Commit_call (tx : nat) : M (option error) :=
  call (tx_Commit drv) (EvCommit tx).

(** [Database.Transaction] (the later revision: the level is an argument).
    [fn] is the Go closure: it is given a context. *)
Definition Database_Transaction (self : Database) (ctx : Ctx)
    (level : option IsolationLevel) (fn : Ctx -> M (option error))
    : M (option error) :=
  let level :=
    match level with
    | None => DatabaseDefaultIsolationLevel (Database_config self)
    | Some _ => level
    end in
  match ctx_tx ctx with
  | Some _ =>
      err <- fn ctx ;;
      match err with
      | Some _ => ret (Some (WrapAs ErrDatabaseTransactionFailed err))
      | None => ret None
      end
  | None =>
      match level with
      | None => panic PanicNilDereference
      | Some lvl =>
          transaction <- now ;;
          err <- call (pool_BeginTx drv)
                   (EvBeginTx (map_index _KisoLevelToPisoLevel lvl)
                      pgx.ReadWrite) ;;
          match err with
          | Some _ => ret (Some (Wrap ErrDatabaseTransactionFailed err))
          | None =>
          err <- ctx_Err_call ;;
          match err with
          | Some _ => ret (Some (Wrap ErrDatabaseTransactionFailed err))
          | None =>
          defer_recover
            (fun v => Rollback_call transaction ;;; panic v)
            (err <- fn (WithValue ctx transaction) ;;
             match err with
             | Some _ =>
                 Rollback_call transaction ;;;
                 ret (Some (Wrap ErrDatabaseTransactionFailed err))
             | None =>
             err <- ctx_Err_call ;;
             match err with
             | Some _ =>
                 Rollback_call transaction ;;;
                 ret (Some (Wrap ErrDatabaseTransactionFailed err))
             | None =>
             err <- Commit_call transaction ;;
             match err with
             | Some _ =>
                 Rollback_call transaction ;;;
                 ret (Some (Wrap ErrDatabaseTransactionFailed err))
             | None =>
             err <- ctx_Err_call ;;
             match err with
             | Some _ =>
                 Rollback_call transaction ;;;
                 ret (Some (Wrap ErrDatabaseTransactionFailed err))
             | None => ret None
             end end end end)
          end end
      end
  end.

(** The panics of the run time: a [runtime.Error] is an [error]. *)
Definition runtime_nil_dereference : error :=
  Raw 5 "runtime error: invalid memory address or nil pointer dereference".
Definition runtime_type_assertion : error := Raw 6 "interface conversion".

(** [err.(error)] on a recovered value: the assertion itself panics when the
    value is not an error. *)
Definition assert_error (v : PanicVal) : option error :=
  match v with
  | PanicError e => Some e
  | PanicValue _ => None
  | PanicNilDereference => Some runtime_nil_dereference
  | PanicTypeAssertion => Some runtime_type_assertion
  end.

(** [Database.Transaction] of the earlier revision: always serializable, and
    the rollback error is combined with the failure. *)
Definition Database_Transaction_v0 (self : Database) (ctx : Ctx)
    (fn : Ctx -> M (option error)) : M (option error) :=
  match ctx_tx ctx with
  | Some _ =>
      err <- fn ctx ;;
      match err with
      | Some _ => ret (Some (WrapAs ErrDatabaseTransactionFailed err))
      | None => ret None
      end
  | None =>
      transaction <- now ;;
      err <- call (pool_BeginTx drv) (EvBeginTx pgx.Serializable pgx.ReadWrite) ;;
      match err with
      | Some _ => ret (Some (Wrap ErrDatabaseTransactionFailed err))
      | None =>
      err <- ctx_Err_call ;;
      match err with
      | Some _ => ret (Some (Wrap ErrDatabaseTransactionFailed err))
      | None =>
      let failed (e : error) : M (option error) :=
        errR <- Rollback_call transaction ;;
        ret (Some (Wrap ErrDatabaseTransactionFailed
                     (Some (CombineErrors e errR)))) in
      defer_recover
        (fun v =>
           errR <- Rollback_call transaction ;;
           match assert_error v with
           | Some e => panic (PanicError (CombineErrors e errR))
           | None => panic PanicTypeAssertion
           end)
        (err <- fn (WithValue ctx transaction) ;;
         match err with
         | Some e => failed e
         | None =>
         err <- ctx_Err_call ;;
         match err with
         | Some e => failed e
         | None =>
         err <- Commit_call transaction ;;
         match err with
         | Some e => failed e
         | None =>
         err <- ctx_Err_call ;;
         match err with
         | Some e => failed e
         | None => ret None
         end end end end)
      end end
  end.

(** A body run on the context it is given; [Transaction], [Exec] and [Query]
    are the methods above. *)
Fixpoint run (self : Database) (b : Body) (ctx : Ctx) : M (option error) :=
  match b with
  | Return err => ret err
  | Panic v => panic v
  | DoExec sql k => r <- Database_Exec self ctx sql ;; run self (k r) ctx
  | DoQuery sql k => r <- Database_Query self ctx sql ;; run self (k r) ctx
  | DoTransaction level fn k =>
      r <- Database_Transaction self ctx level (run self fn) ;;
      run self (k r) ctx
  end.

(** *** Cache *)

Definition _CACHE_DEFAULT_CONFIG : CacheConfig :=
  {| Host := ""; Port := 0; SSLMode := false; Password := "";
     MinConns := Some 1;
     MaxConns := Some (Z.max 8 (4 * runtime_GOMAXPROCS drv));
     MaxConnIdleTime := Some (30 * minute);
     MaxConnLifeTime := Some (1 * hour);
     ReadTimeout := Some (30 * second);
     WriteTimeout := Some (30 * second);
     DialTimeout := Some (30 * second) |}.

(** Modelled from the spec: [util.Merge] on the cache configuration. *)
Definition Cache_Merge (config def : CacheConfig) : CacheConfig :=
  {| Host := Host config; Port := Port config; SSLMode := SSLMode config;
     Password := Password config;
     MinConns := util.merge_field (MinConns config) (MinConns def);
     MaxConns := util.merge_field (MaxConns config) (MaxConns def);
     MaxConnIdleTime :=
       util.merge_field (MaxConnIdleTime config) (MaxConnIdleTime def);
     MaxConnLifeTime :=
       util.merge_field (MaxConnLifeTime config) (MaxConnLifeTime def);
     ReadTimeout := util.merge_field (ReadTimeout config) (ReadTimeout def);
     WriteTimeout := util.merge_field (WriteTimeout config) (WriteTimeout def);
     DialTimeout := util.merge_field (DialTimeout config) (DialTimeout def) |}.

Definition NewCache_attempt (_retry : RetryConfig) (attempt : Z)
    : M (option error) :=
  Infof "Trying to connect to the cache %d/%d"
    [AInt attempt; AInt (Attempts _retry)] ;;;
  err <- call (fun w => snd (pool_Ping drv w)) (EvPing "") ;;
  match err with
  | Some _ => ret (Some (WrapAs ErrCacheGeneric err))
  | None => ret None
  end.

(** [NewCache]: [redis.NewClient] does not dial, the ping does. *)
Definition NewCache (ctx : Ctx) (config : CacheConfig)
    (retry : list RetryConfig) : M (option Cache * option error) :=
  let config := Cache_Merge config _CACHE_DEFAULT_CONFIG in
  let _retry := util.Optional retry _CACHE_DEFAULT_RETRY_CONFIG in
  err <- util.Deadline ctx
           (util.ExponentialRetry (Attempts _retry) (InitialDelay _retry)
              (LimitDelay _retry) (Retriables _retry)
              (NewCache_attempt _retry)) ;;
  match err with
  | None =>
      Infof "Connected to the cache" [] ;;;
      pool <- now ;;
      ret (Some {| Cache_config := config; Cache_pool := pool |}, None)
  | Some e =>
      if Is ErrDeadlineExceeded e then ret (None, Some (New ErrCacheTimedOut))
      else ret (None, Some (Wrap ErrCacheGeneric err))
  end.

(** The function [Cache.Health] gives to [util.Deadline]. *)
Definition Cache_Health_check (self : Cache) : M (option error) :=
  currentConns <- call (pool_TotalConns drv) EvStat ;;
  match MinConns (Cache_config self) with
  | None => panic PanicNilDereference
  | Some minConns =>
      if currentConns <? GoInt.uint32 minConns
      then ret (Some (Withf ErrCacheUnhealthy
                        "current conns %d below minimum %d"
                        [currentConns; minConns]))
      else
        r <- call (pool_Ping drv) (fun r => EvPing (fst r) (snd r)) ;;
        match snd r, String.eqb (fst r) "PONG" with
        | None, true =>
            err <- ctx_Err_call ;;
            match err with
            | Some _ => ret (Some (WrapAs ErrCacheUnhealthy err))
            | None => ret None
            end
        | err, _ => ret (Some (WrapAs ErrCacheUnhealthy err))
        end
  end.

(** [Cache.Health]. *)
Definition Cache_Health (self : Cache) (ctx : Ctx) : M (option error) :=
  err <- util.Deadline ctx (Cache_Health_check self) ;;
  match err with
  | None => ret None
  | Some e =>
      if Is ErrDeadlineExceeded e then ret (Some (New ErrCacheTimedOut))
      else ret (Some (Wrap ErrCacheGeneric err))
  end.

(** [Cache.Set]. *)
Definition Cache_Set (self : Cache) (ctx : Ctx) (key : string) (value : string)
    (ttl : option Z) : M (option error) :=
  let ttl := match ttl with None => 0 * second | Some t => t end in
  let item := {| Key := key; Value := value; TTL := ttl;
                 SkipLocalCache := false |} in
  err <- call (fun w => cache_Set drv w item) (EvCacheSet item) ;;
  match err with
  | Some _ => ret (_chErrToError err)
  | None => ret None
  end.

(** *** Migrator *)

(** The inner function of [Migrator.Apply], the same in both revisions
    ([WrapAs]/[Withf] in the earlier one, [Raise().Cause]/[With] in the
    later). [schemaVersion] is a Go [int], the current version a [uint]. *)
Definition Migrator_Apply_steps (schemaVersion : Z) : M (option error) :=
  v <- call (migrate_Version drv)
         (fun r => EvVersion (fst (fst r)) (snd (fst r)) (snd r)) ;;
  let currentSchemaVersion := fst (fst v) in
  let bad := snd (fst v) in
  let err := snd v in
  if match err with
     | Some e => negb (same_error e migrate.ErrNilVersion)
     | None => false
     end
  then ret (Some (WrapAs ErrMigratorGeneric err))
  else if bad
  then ret (Some (Withf ErrMigratorGeneric "current schema version %d is dirty"
                    [currentSchemaVersion]))
  else if currentSchemaVersion =? GoInt.uint schemaVersion
  then Infof "No migrations to apply" [] ;;; ret None
  else if currentSchemaVersion >? GoInt.uint schemaVersion
  then ret (Some (Withf ErrMigratorGeneric
                    "desired schema version %d behind from current one %d"
                    [schemaVersion; currentSchemaVersion]))
  else
    Infof "%d migrations to be applied"
      [AInt (GoInt.int (schemaVersion - GoInt.int currentSchemaVersion))] ;;;
    err <- call (fun w => migrate_Migrate drv w (GoInt.uint schemaVersion))
             (EvMigrate (GoInt.uint schemaVersion)) ;;
    match err with
    | Some _ => ret (Some (WrapAs ErrMigratorGeneric err))
    | None => Infof "Applied all migrations successfully" [] ;;; ret None
    end.

(** [Migrator.Apply], later revision. The lock timeout and the [done] channel
    only serve [Close]. *)
Definition Migrator_Apply (ctx : Ctx) (schemaVersion : Z) : M (option error) :=
  err <- util.Deadline ctx (Migrator_Apply_steps schemaVersion) ;;
  match err with
  | Some e =>
      if Is ErrDeadlineExceeded e
      then ret (Some (WrapAs ErrMigratorTimedOut err))
      else ret err
  | None => ret None
  end.

(** [Migrator.Apply], earlier revision. *)
Definition Migrator_Apply_v0 (ctx : Ctx) (schemaVersion : Z) : M (option error) :=
  err <- util.Deadline ctx (Migrator_Apply_steps schemaVersion) ;;
  match err with
  | None => ret None
  | Some e =>
      if Is ErrDeadlineExceeded e then ret (Some (New ErrMigratorTimedOut))
      else ret (Some (Wrap ErrMigratorGeneric err))
  end.

End Client.

(** ** Reading a history *)

Definition is_begin (e : Event) : bool :=
  match e with EvBeginTx _ _ _ => true | _ => false end.
Definition is_commit (e : Event) : bool :=
  match e with EvCommit _ _ => true | _ => false end.
Definition is_rollback (e : Event) : bool :=
  match e with EvRollback _ _ => true | _ => false end.
Definition is_migrate (e : Event) : bool :=
  match e with EvMigrate _ _ => true | _ => false end.

Definition count (p : Event -> bool) (w : World) : nat :=
  List.length (List.filter p w).

Definition begins : World -> nat := count is_begin.
Definition commits : World -> nat := count is_commit.
Definition rollbacks : World -> nat := count is_rollback.

(** No begin, commit or rollback. *)
Definition tx_event (e : Event) : bool :=
  is_begin e || is_commit e || is_rollback e.

Definition tx_free (w : list Event) : Prop :=
  forallb (fun e => negb (tx_event e)) w = true.

(** The claim "exactly one begin and exactly one commit-or-rollback". *)
Definition one_begin_one_end (evs : list Event) : Prop :=
  begins evs = 1%nat /\ (commits evs + rollbacks evs)%nat = 1%nat.

(** The level [Transaction] works with: the one asked for, or the default of
    the configuration. *)
Definition effective_level (self : Database) (level : option IsolationLevel)
    : option IsolationLevel :=
  match level with
  | None => DatabaseDefaultIsolationLevel (Database_config self)
  | Some _ => level
  end.

(** What a call made on a context that carries a transaction returns for the
    outcome of its function. *)
Definition reentered (o : Outcome (option error)) : Outcome (option error) :=
  match o with
  | Done (Some e) => Done (Some (WrapAs ErrDatabaseTransactionFailed (Some e)))
  | Done None => Done None
  | Panicked v => Panicked v
  end.

(** The ways the outermost call of the later revision ends transaction [tx]:
    the outcome of the function, the calls made after it, the outcome of
    [Transaction]. *)
Inductive closing (tx : nat)
  : Outcome (option error) -> list Event -> Outcome (option error) -> Prop :=
| closing_panic v r :
    closing tx (Panicked v) [EvRollback tx r] (Panicked v)
| closing_failed e r :
    closing tx (Done (Some e)) [EvRollback tx r]
      (Done (Some (Wrap ErrDatabaseTransactionFailed (Some e))))
| closing_cancelled c r :
    closing tx (Done None) [EvCtxErr (Some c); EvRollback tx r]
      (Done (Some (Wrap ErrDatabaseTransactionFailed (Some c))))
| closing_commit_failed e r :
    closing tx (Done None)
      [EvCtxErr None; EvCommit tx (Some e); EvRollback tx r]
      (Done (Some (Wrap ErrDatabaseTransactionFailed (Some e))))
| closing_cancelled_late c r :
    closing tx (Done None)
      [EvCtxErr None; EvCommit tx None; EvCtxErr (Some c); EvRollback tx r]
      (Done (Some (Wrap ErrDatabaseTransactionFailed (Some c))))
| closing_committed :
    closing tx (Done None)
      [EvCtxErr None; EvCommit tx None; EvCtxErr None] (Done None).

(** The deadline of the context leaves room for [n] outside calls. *)
Definition deadline_allows (ctx : Ctx) (n : nat) : Prop :=
  match ctx_deadline ctx with
  | None => True
  | Some k => (n <= k)%nat
  end.

(** The errors of the drivers and of the context are foreign to kit: none
    of them is [util.ErrDeadlineExceeded]. *)
Definition not_timeout (r : option error) : Prop :=
  match r with
  | Some e => Is ErrDeadlineExceeded e = false
  | None => True
  end.

Definition foreign (drv : Driver) : Prop :=
  forall w : World,
    not_timeout (ctx_Err drv w)
    /\ not_timeout (snd (pool_Ping drv w))
    /\ not_timeout (pool_Connect drv w).

(** The three findings of [Database.Health], read where the method reads
    them: the pool below its minimum, the ping failing, the context
    cancelled. *)
Definition Database_unhealthy (drv : Driver) (minConns : Z) (w : World) : Prop :=
  let n := pool_TotalConns drv w in
  let ping := snd (pool_Ping drv (w ++ [EvStat n])) in
  n < minConns
  \/ ping <> None
  \/ ctx_Err drv (w ++ [EvStat n; EvPing "" ping]) <> None.

(** The same for [Cache.Health], whose ping must also answer PONG. *)
Definition Cache_unhealthy (drv : Driver) (minConns : Z) (w : World) : Prop :=
  let n := pool_TotalConns drv w in
  let pong := pool_Ping drv (w ++ [EvStat n]) in
  n < minConns
  \/ (snd pong <> None \/ fst pong <> "PONG")
  \/ ctx_Err drv (w ++ [EvStat n; EvPing (fst pong) (snd pong)]) <> None.

(** The calls [Database.Health] makes before it has its answer: it reads the
    pool, pings, reads the context, and stops at the first finding. *)
Definition Database_Health_calls (drv : Driver) (minConns : Z) (w : World)
    : nat :=
  let n := pool_TotalConns drv w in
  if n <? minConns then 1%nat
  else match snd (pool_Ping drv (w ++ [EvStat n])) with
       | Some _ => 2%nat
       | None => 3%nat
       end.

(** The same for [Cache.Health]. *)
Definition Cache_Health_calls (drv : Driver) (minConns : Z) (w : World)
    : nat :=
  let n := pool_TotalConns drv w in
  let pong := pool_Ping drv (w ++ [EvStat n]) in
  if n <? minConns then 1%nat
  else match snd pong with
       | Some _ => 2%nat
       | None => if String.eqb (fst pong) "PONG" then 3%nat else 2%nat
       end.

(** From the cache library, github.com/go-redis/cache/v8, which is not
    among the sources: [Item.ttl], the time-to-live the library stores an
    item with. A negative [TTL] gives 0, a [TTL] of zero or below one second
    gives the default of one hour, any other [TTL] is kept. *)
Definition Item_ttl (item : Item) : Z :=
  if TTL item <? 0 then 0
  else if negb (TTL item =? 0)
  then (if TTL item <? second then hour else TTL item)
  else hour.

(** The claim on [Cache.Set] with a nil [ttl]: the item is given a
    time-to-live of zero and is stored without expiration. *)
Definition stored_without_expiration (item : Item) : Prop :=
  TTL item = 0 /\ Item_ttl item = 0.

(** An Unhealthy error: one whose chain holds the Unhealthy error of a
    client. *)
Definition is_unhealthy (e : error) : bool :=
  Is ErrDatabaseUnhealthy e || Is ErrCacheUnhealthy e.

(** The claim on [Health]: an Unhealthy error exactly when one of the three
    findings holds, success otherwise. *)
Definition Health_claim (result : Outcome (option error)) (unhealthy : Prop)
    : Prop :=
  (unhealthy -> exists e, result = Done (Some e) /\ is_unhealthy e = true)
  /\ (~ unhealthy -> result = Done None).

(** The attempt number announced by a log line of [NewDatabase] or
    [NewCache]. *)
Definition attempt_number (e : Event) : option Z :=
  match e with
  | EvInfof "Trying to connect to the %s database %d/%d" [_; AInt a; _] =>
      Some a
  | EvInfof "Trying to connect to the cache %d/%d" [AInt a; _] => Some a
  | _ => None
  end.

Fixpoint attempt_numbers (evs : list Event) : list Z :=
  match evs with
  | [] => []
  | e :: rest =>
      match attempt_number e with
      | Some a => a :: attempt_numbers rest
      | None => attempt_numbers rest
      end
  end.

(** The numbers [first], [first + 1], ... of [n] attempts. *)
Definition numbered (first : Z) (n : nat) : list Z :=
  map (fun i => first + Z.of_nat i) (seq 0 n).

(** The claim on connecting: exactly [n] attempts, numbered from 1. *)
Definition attempts_made (evs : list Event) (n : Z) : Prop :=
  attempt_numbers evs = numbered 1 (Z.to_nat n).

(** ** Environments used as examples *)

(** Every call succeeds; the schema is at version 3. *)
Definition quiet : Driver :=
  {| ctx_Err := fun _ => None;
     pool_BeginTx := fun _ => None;
     tx_Commit := fun _ => None;
     tx_Rollback := fun _ => None;
     conn_Exec := fun _ _ => (1, None);
     conn_Query := fun _ _ => None;
     rows_Scan := fun _ => None;
     pool_Connect := fun _ => None;
     pool_TotalConns := fun _ => 1;
     pool_Ping := fun _ => ("PONG", None);
     cache_Set := fun _ _ => None;
     migrate_Version := fun _ => (3, false, None);
     migrate_Migrate := fun _ _ => None;
     pgxpool_ParseConfig := fun _ => None;
     runtime_GOMAXPROCS := 4 |}.

Definition with_Commit (commit : World -> option error) (d : Driver) : Driver :=
  {| ctx_Err := ctx_Err d; pool_BeginTx := pool_BeginTx d;
     tx_Commit := commit; tx_Rollback := tx_Rollback d;
     conn_Exec := conn_Exec d; conn_Query := conn_Query d;
     rows_Scan := rows_Scan d; pool_Connect := pool_Connect d;
     pool_TotalConns := pool_TotalConns d; pool_Ping := pool_Ping d;
     cache_Set := cache_Set d; migrate_Version := migrate_Version d;
     migrate_Migrate := migrate_Migrate d;
     pgxpool_ParseConfig := pgxpool_ParseConfig d;
     runtime_GOMAXPROCS := runtime_GOMAXPROCS d |}.

Definition with_Rollback (rollback : World -> option error) (d : Driver)
    : Driver :=
  {| ctx_Err := ctx_Err d; pool_BeginTx := pool_BeginTx d;
     tx_Commit := tx_Commit d; tx_Rollback := rollback;
     conn_Exec := conn_Exec d; conn_Query := conn_Query d;
     rows_Scan := rows_Scan d; pool_Connect := pool_Connect d;
     pool_TotalConns := pool_TotalConns d; pool_Ping := pool_Ping d;
     cache_Set := cache_Set d; migrate_Version := migrate_Version d;
     migrate_Migrate := migrate_Migrate d;
     pgxpool_ParseConfig := pgxpool_ParseConfig d;
     runtime_GOMAXPROCS := runtime_GOMAXPROCS d |}.

Definition with_Connect (connect : World -> option error)
    (ping : World -> string * option error) (d : Driver) : Driver :=
  {| ctx_Err := ctx_Err d; pool_BeginTx := pool_BeginTx d;
     tx_Commit := tx_Commit d; tx_Rollback := tx_Rollback d;
     conn_Exec := conn_Exec d; conn_Query := conn_Query d;
     rows_Scan := rows_Scan d; pool_Connect := connect;
     pool_TotalConns := pool_TotalConns d; pool_Ping := ping;
     cache_Set := cache_Set d; migrate_Version := migrate_Version d;
     migrate_Migrate := migrate_Migrate d;
     pgxpool_ParseConfig := pgxpool_ParseConfig d;
     runtime_GOMAXPROCS := runtime_GOMAXPROCS d |}.

Definition with_ctx_Err (err : World -> option error) (d : Driver) : Driver :=
  {| ctx_Err := err; pool_BeginTx := pool_BeginTx d;
     tx_Commit := tx_Commit d; tx_Rollback := tx_Rollback d;
     conn_Exec := conn_Exec d; conn_Query := conn_Query d;
     rows_Scan := rows_Scan d; pool_Connect := pool_Connect d;
     pool_TotalConns := pool_TotalConns d; pool_Ping := pool_Ping d;
     cache_Set := cache_Set d; migrate_Version := migrate_Version d;
     migrate_Migrate := migrate_Migrate d;
     pgxpool_ParseConfig := pgxpool_ParseConfig d;
     runtime_GOMAXPROCS := runtime_GOMAXPROCS d |}.

(** [context.DeadlineExceeded] of the standard library. *)
Definition context_DeadlineExceeded : error :=
  Raw 15 "context deadline exceeded".

(** The context reports its deadline as exceeded once [k] calls were made. *)
Definition expiring (k : nat) : Driver :=
  with_ctx_Err
    (fun w => if Nat.leb k (List.length w)
              then Some context_DeadlineExceeded else None)
    quiet.

(** The usual text of kit errors: the message of the constructor, then the
    text of the cause. *)
Definition plain_text : KitText :=
  fun k _ c =>
    match c with
    | Some t => ("kit error: " ++ t)%string
    | None => "kit error"
    end.

Definition example_config : DatabaseConfig :=
  {| DatabaseHost := "localhost"; DatabasePort := 5432;
     DatabaseSSLMode := "disable"; DatabaseUser := "kit";
     DatabasePassword := "secret"; DatabaseName := "app"; AppName := "kit";
     DatabaseMinConns := None; DatabaseMaxConns := None;
     DatabaseMaxConnIdleTime := None; DatabaseMaxConnLifeTime := None;
     DatabaseDialTimeout := None; DatabaseStatementTimeout := None;
     DatabaseDefaultIsolationLevel := None |}.

(** The client [NewDatabase] makes of [example_config]. *)
Definition example_database : Database :=
  {| Database_config :=
       Database_Merge example_config (_DATABASE_DEFAULT_CONFIG quiet);
     Database_pool := 4 |}.

Definition example_cache_config : CacheConfig :=
  {| Host := "localhost"; Port := 6379; SSLMode := false; Password := "";
     MinConns := None; MaxConns := None; MaxConnIdleTime := None;
     MaxConnLifeTime := None; ReadTimeout := None; WriteTimeout := None;
     DialTimeout := None |}.

Definition example_cache : Cache :=
  {| Cache_config := Cache_Merge example_cache_config (_CACHE_DEFAULT_CONFIG quiet);
     Cache_pool := 3 |}.

Definition background : Ctx := {| ctx_tx := None; ctx_deadline := None |}.

Definition connection_refused : error := Raw 10 "connection refused".
Definition authentication_failed : error :=
  Raw 14 "password authentication failed".

(** The server is down: every dial and every ping fails. *)
Definition unreachable (e : error) : Driver :=
  with_Connect (fun _ => Some e) (fun _ => ("", Some e)) quiet.

Definition three_attempts (retriables : list error) : RetryConfig :=
  {| Attempts := 3; InitialDelay := 0; LimitDelay := 0;
     Retriables := retriables |}.
Definition commit_failed : error := Raw 11 "commit unexpectedly resulted in rollback".
Definition rollback_failed : error := Raw 12 "conn closed".
Definition body_failed : error := Raw 13 "insufficient funds".

(** ** Reading a classification *)

(** The semantic kind of a classified error, as the caller sees it. *)
Definition classified_kind (r : option error) : option Kind :=
  match r with
  | Some e => option_map semantic_kind (kind_of e)
  | None => None
  end.

Definition starts_with (c : ascii) (s : string) : bool :=
  match s with
  | EmptyString => false
  | String a _ => Ascii.eqb a c
  end.

(** The text nowhere has an opening parenthesis followed by the letter S:
    it cannot be mistaken for the beginning of the SQLSTATE suffix. *)
Fixpoint no_marker (s : string) : bool :=
  match s with
  | EmptyString => true
  | String a r =>
      negb (Ascii.eqb a "("%char && starts_with "S"%char r) && no_marker r
  end.

(** The text of a [pgconn.PgError], the error the PostgreSQL driver returns
    for a server-side failure: severity, message, and the SQLSTATE code
    between parentheses at the end. *)
Definition PgError_text (severity message code : string) : string :=
  (severity ++ ": " ++ message ++ " (SQLSTATE " ++ code ++ ")")%string.

(** The error text carries a recognised constraint-violation code: this is
    the test [_dbErrToError] makes. *)
Definition carries_integrity_code (text : string) : bool :=
  match Regexp.FindStringSubmatch text with
  | [_; code] => is_integrity_code code
  | _ => false
  end.

(** The text holds no newline. *)
Fixpoint single_line (s : string) : bool :=
  match s with
  | EmptyString => true
  | String c r => negb (Ascii.eqb c Regexp.newline) && single_line r
  end.

(** The text holds no closing parenthesis. *)
Fixpoint no_close (s : string) : bool :=
  match s with
  | EmptyString => true
  | String c r => negb (Ascii.eqb c Regexp.close_paren) && no_close r
  end.

(** ** More of the migrator: [Assert] and [Version] *)

(** The inner function of [Migrator.Assert], the same in both revisions. *)
Definition Migrator_Assert_steps (drv : Driver) (schemaVersion : Z)
    : M (option error) :=
  v <- call (migrate_Version drv)
         (fun r => EvVersion (fst (fst r)) (snd (fst r)) (snd r)) ;;
  let currentSchemaVersion := fst (fst v) in
  let bad := snd (fst v) in
  let err := snd v in
  if match err with
     | Some e => negb (same_error e migrate.ErrNilVersion)
     | None => false
     end
  then ret (Some (WrapAs ErrMigratorGeneric err))
  else if bad
  then ret (Some (Withf ErrMigratorGeneric "current schema version %d is dirty"
                    [currentSchemaVersion]))
  else if currentSchemaVersion >? GoInt.uint schemaVersion
  then ret (Some (Withf ErrMigratorGeneric
                    "desired schema version %d behind from current one %d"
                    [schemaVersion; currentSchemaVersion]))
  else if currentSchemaVersion <? GoInt.uint schemaVersion
  then ret (Some (Withf ErrMigratorGeneric
                    "desired schema version %d ahead of current one %d"
                    [schemaVersion; currentSchemaVersion]))
  else
    Infof "Desired schema version %d asserted" [AInt schemaVersion] ;;;
    ret None.

(** [Migrator.Assert], later revision. *)
Definition Migrator_Assert (drv : Driver) (ctx : Ctx) (schemaVersion : Z)
    : M (option error) :=
  err <- util.Deadline ctx (Migrator_Assert_steps drv schemaVersion) ;;
  match err with
  | Some e =>
      if Is ErrDeadlineExceeded e
      then ret (Some (WrapAs ErrMigratorTimedOut err))
      else ret err
  | None => ret None
  end.

(** [Migrator.Assert], earlier revision. *)
Definition Migrator_Assert_v0 (drv : Driver) (ctx : Ctx) (schemaVersion : Z)
    : M (option error) :=
  err <- util.Deadline ctx (Migrator_Assert_steps drv schemaVersion) ;;
  match err with
  | None => ret None
  | Some e =>
      if Is ErrDeadlineExceeded e then ret (Some (New ErrMigratorTimedOut))
      else ret (Some (Wrap ErrMigratorGeneric err))
  end.

(** The inner function of [Migrator.Version]: it stores the version and the
    dirty flag in variables of the method and returns the error. *)
Definition Migrator_Version_steps (drv : Driver) : M (option error) :=
  v <- call (migrate_Version drv)
         (fun r => EvVersion (fst (fst r)) (snd (fst r)) (snd r)) ;;
  if match snd v with
     | Some e => negb (same_error e migrate.ErrNilVersion)
     | None => false
     end
  then ret (Some (WrapAs ErrMigratorGeneric (snd v)))
  else ret None.

(** [Migrator.Version]: the version as an [int], the dirty flag, the error.
    The variables are read only when the inner function has run without
    error. *)
Definition Migrator_Version (drv : Driver) (ctx : Ctx)
    : M (Z * bool * option error) :=
  fun w =>
    let stored := migrate_Version drv w in
    bind (util.Deadline ctx (Migrator_Version_steps drv))
      (fun err =>
         match err with
         | Some e =>
             if Is ErrDeadlineExceeded e
             then ret (0, false, Some (WrapAs ErrMigratorTimedOut err))
             else ret (0, false, err)
         | None =>
             ret (GoInt.int (fst (fst stored)), snd (fst stored), None)
         end) w.





(** The schema is readable: the library gave no error, or the error that
    says that no migration has been applied yet. *)
Definition accepted_as_read (err : option error) : bool :=
  match err with
  | Some e => same_error e migrate.ErrNilVersion
  | None => true
  end.

(** What [Assert] checks. *)
Definition asserted (drv : Driver) (schemaVersion : Z) (w : World) : Prop :=
  accepted_as_read (snd (migrate_Version drv w)) = true
  /\ snd (fst (migrate_Version drv w)) = false
  /\ fst (fst (migrate_Version drv w)) = GoInt.uint schemaVersion.

(** ** Reading statements and transaction errors *)

(** Where a statement was sent: the transaction handle, or the pool. *)
Definition statement_handle (e : Event) : option (option nat) :=
  match e with
  | EvExec tx _ _ _ => Some tx
  | EvQuery tx _ _ => Some tx
  | _ => None
  end.

Definition sent_to (tx : option nat) (e : Event) : Prop :=
  match statement_handle e with
  | Some t => t = tx
  | None => True
  end.

Definition is_statement (e : Event) : bool :=
  match statement_handle e with Some _ => true | None => false end.

Definition is_scan (e : Event) : bool :=
  match e with EvScan _ => true | _ => false end.

(** A database error as [_dbErrToError] makes them: one of three kinds,
    around the error classified. *)
Definition classified_from (cause : error) (r : option error) : Prop :=
  exists k,
    r = Some (Kit k None (Some cause))
    /\ In k [ErrDatabaseIntegrityViolation; ErrDatabaseNoRows;
             ErrDatabaseGeneric].

(** [e] inside [n] TransactionFailed errors. *)
Fixpoint failed_times (n : nat) (e : error) : error :=
  match n with
  | O => e
  | S n' => Kit ErrDatabaseTransactionFailed None (Some (failed_times n' e))
  end.

(** The ways the outermost call of the earlier revision ends transaction
    [tx]: the outcome of the function, the calls made after it, the error of
    the rollback, the outcome of [Transaction]. *)
Inductive closing_v0 (tx : nat)
  : Outcome (option error) -> list Event -> Outcome (option error) -> Prop :=
| closing_v0_failed e r :
    closing_v0 tx (Done (Some e)) [EvRollback tx r]
      (Done (Some (Wrap ErrDatabaseTransactionFailed
                     (Some (CombineErrors e r)))))
| closing_v0_cancelled c r :
    closing_v0 tx (Done None) [EvCtxErr (Some c); EvRollback tx r]
      (Done (Some (Wrap ErrDatabaseTransactionFailed
                     (Some (CombineErrors c r)))))
| closing_v0_commit_failed e r :
    closing_v0 tx (Done None)
      [EvCtxErr None; EvCommit tx (Some e); EvRollback tx r]
      (Done (Some (Wrap ErrDatabaseTransactionFailed
                     (Some (CombineErrors e r)))))
| closing_v0_cancelled_late c r :
    closing_v0 tx (Done None)
      [EvCtxErr None; EvCommit tx None; EvCtxErr (Some c); EvRollback tx r]
      (Done (Some (Wrap ErrDatabaseTransactionFailed
                     (Some (CombineErrors c r)))))
| closing_v0_committed :
    closing_v0 tx (Done None)
      [EvCtxErr None; EvCommit tx None; EvCtxErr None] (Done None)
| closing_v0_panic_error e r :
    closing_v0 tx (Panicked (PanicError e)) [EvRollback tx r]
      (Panicked (PanicError (CombineErrors e r)))
| closing_v0_panic_value v r :
    closing_v0 tx (Panicked (PanicValue v)) [EvRollback tx r]
      (Panicked PanicTypeAssertion).

(** A panic value of user code: an error or any other value. *)
Definition raised_by_user (o : Outcome (option error)) : Prop :=
  match o with
  | Panicked PanicNilDereference | Panicked PanicTypeAssertion => False
  | _ => True
  end.

(** ** Calls of other kinds *)

(** The same computations over any kind of outside call. *)
Module Calls.

Definition Mon (E A : Type) : Type := list E -> list E * Outcome A.

Definition ret {E A} (a : A) : Mon E A := fun _ => ([], Done a).

Definition bind {E A B} (m : Mon E A) (k : A -> Mon E B) : Mon E B :=
  fun w =>
    match m w with
    | (evs, Done a) =>
        let r := k a (w ++ evs) in (evs ++ fst r, snd r)
    | (evs, Panicked v) => (evs, Panicked v)
    end.

Definition panic {E A} (v : PanicVal) : Mon E A := fun _ => ([], Panicked v).

Definition defer_recover {E A} (handler : PanicVal -> Mon E A)
    (body : Mon E A) : Mon E A :=
  fun w =>
    match body w with
    | (evs, Done a) => (evs, Done a)
    | (evs, Panicked v) =>
        let r := handler v (w ++ evs) in (evs ++ fst r, snd r)
    end.

Definition call {E R} (answer : list E -> R) (ev : R -> E) : Mon E R :=
  fun w => let r := answer w in ([ev r], Done r).

(** Modelled from the spec: [util.Deadline], as above, over any kind of
    call. *)
Definition Deadline {E} (deadline : option nat) (fn : Mon E (option error))
    : Mon E (option error) :=
  fun w =>
    let r := fn w in
    match deadline with
    | None => r
    | Some k =>
        if Nat.leb (List.length (fst r)) k then r
        else (firstn k (fst r), Done (Some (New ErrDeadlineExceeded)))
    end.

End Calls.

Declare Scope calls_scope.
Delimit Scope calls_scope with calls.
Notation "x <- m ;; k" := (Calls.bind m (fun x => k))
  (at level 100, m at next level, right associativity) : calls_scope.
Notation "m ;;; k" := (Calls.bind m (fun _ => k))
  (at level 100, right associativity) : calls_scope.

(** ** The migrator: [Rollback] *)

Module Rollback.

(** The calls of [Migrator.Rollback] to the migration library and to the
    logger. *)
Inductive MigrateCall : Type :=
| Version (version : Z) (dirty : bool) (r : option error)
| Force (version : Z) (r : option error)
| Migrate (version : Z) (r : option error)
| Down (r : option error)
| Infof (format : string) (args : list Arg).

Record Library : Type := mkLibrary {
  lib_Version : list MigrateCall -> Z * bool * option error;
  lib_Force : list MigrateCall -> Z -> option error;
  lib_Migrate : list MigrateCall -> Z -> option error;
  lib_Down : list MigrateCall -> option error
}.

Definition log (format : string) (args : list Arg)
    : Calls.Mon MigrateCall unit :=
  Calls.call (fun _ => tt) (fun _ => Infof format args).

Section Steps.

Variable lib : Library.

Local Open Scope calls_scope.

(** The end of the inner function, later revision: from the comparison of
    the versions on. *)
Definition target (currentSchemaVersion schemaVersion : Z)
    : Calls.Mon MigrateCall (option error) :=
  if currentSchemaVersion =? GoInt.uint schemaVersion
  then log "No migrations to rollback" [] ;;; Calls.ret None
  else if currentSchemaVersion <? GoInt.uint schemaVersion
  then Calls.ret (Some (Withf ErrMigratorGeneric
                          "desired schema version %d ahead of current one %d"
                          [schemaVersion; currentSchemaVersion]))
  else
    log "%d migrations to be rollbacked"
      [AInt (GoInt.int (GoInt.int currentSchemaVersion - schemaVersion))] ;;;
    err <- (if schemaVersion =? 0
            then Calls.call (lib_Down lib) Down
            else Calls.call
                   (fun w => lib_Migrate lib w (GoInt.uint schemaVersion))
                   (Migrate (GoInt.uint schemaVersion))) ;;
    match err with
    | Some _ => Calls.ret (Some (WrapAs ErrMigratorGeneric err))
    | None =>
        log "Rollbacked all migrations successfully" [] ;;; Calls.ret None
    end.

(** The inner function of [Migrator.Rollback], later revision. *)
Definition steps (schemaVersion : Z) : Calls.Mon MigrateCall (option error) :=
  v <- Calls.call (lib_Version lib)
         (fun r => Version (fst (fst r)) (snd (fst r)) (snd r)) ;;
  let currentSchemaVersion := fst (fst v) in
  let bad := snd (fst v) in
  match snd v with
  | Some _ => Calls.ret (Some (WrapAs ErrMigratorGeneric (snd v)))
  | None =>
      if bad then
        log "Current schema version %d is dirty, setting desired to last version"
          [AInt currentSchemaVersion] ;;;
        err <- Calls.call
                 (fun w => lib_Force lib w (GoInt.int currentSchemaVersion))
                 (Force (GoInt.int currentSchemaVersion)) ;;
        match err with
        | Some _ => Calls.ret (Some (WrapAs ErrMigratorGeneric err))
        | None => target currentSchemaVersion (GoInt.int (schemaVersion - 1))
        end
      else target currentSchemaVersion schemaVersion
  end.

(** The end of the inner function, earlier revision: no [Down]. *)
Definition target_v0 (currentSchemaVersion schemaVersion : Z)
    : Calls.Mon MigrateCall (option error) :=
  if currentSchemaVersion =? GoInt.uint schemaVersion
  then log "No migrations to rollback" [] ;;; Calls.ret None
  else if currentSchemaVersion <? GoInt.uint schemaVersion
  then Calls.ret (Some (Withf ErrMigratorGeneric
                          "desired schema version %d ahead of current one %d"
                          [schemaVersion; currentSchemaVersion]))
  else
    log "%d migrations to be rollbacked"
      [AInt (GoInt.int (GoInt.int currentSchemaVersion - schemaVersion))] ;;;
    err <- Calls.call (fun w => lib_Migrate lib w (GoInt.uint schemaVersion))
             (Migrate (GoInt.uint schemaVersion)) ;;
    match err with
    | Some _ => Calls.ret (Some (WrapAs ErrMigratorGeneric err))
    | None =>
        log "Rollbacked all migrations successfully" [] ;;; Calls.ret None
    end.

(** The inner function of [Migrator.Rollback], earlier revision: the desired
    version is kept when the schema is dirty. *)
Definition steps_v0 (schemaVersion : Z) : Calls.Mon MigrateCall (option error) :=
  v <- Calls.call (lib_Version lib)
         (fun r => Version (fst (fst r)) (snd (fst r)) (snd r)) ;;
  let currentSchemaVersion := fst (fst v) in
  let bad := snd (fst v) in
  match snd v with
  | Some _ => Calls.ret (Some (WrapAs ErrMigratorGeneric (snd v)))
  | None =>
      if bad then
        log "Current schema version %d is dirty, ignoring"
          [AInt currentSchemaVersion] ;;;
        err <- Calls.call
                 (fun w => lib_Force lib w (GoInt.int currentSchemaVersion))
                 (Force (GoInt.int currentSchemaVersion)) ;;
        match err with
        | Some _ => Calls.ret (Some (WrapAs ErrMigratorGeneric err))
        | None => target_v0 currentSchemaVersion schemaVersion
        end
      else target_v0 currentSchemaVersion schemaVersion
  end.

(** [Migrator.Rollback], later and earlier revision. *)
Definition Rollback (deadline : option nat) (schemaVersion : Z)
    : Calls.Mon MigrateCall (option error) :=
  err <- Calls.Deadline deadline (steps schemaVersion) ;;
  match err with
  | Some e =>
      if Is ErrDeadlineExceeded e
      then Calls.ret (Some (WrapAs ErrMigratorTimedOut err))
      else Calls.ret err
  | None => Calls.ret None
  end.

Definition Rollback_v0 (deadline : option nat) (schemaVersion : Z)
    : Calls.Mon MigrateCall (option error) :=
  err <- Calls.Deadline deadline (steps_v0 schemaVersion) ;;
  match err with
  | None => Calls.ret None
  | Some e =>
      if Is ErrDeadlineExceeded e
      then Calls.ret (Some (New ErrMigratorTimedOut))
      else Calls.ret (Some (Wrap ErrMigratorGeneric err))
  end.

End Steps.

(** The calls that change the schema. *)
Definition changes_schema (c : MigrateCall) : bool :=
  match c with
  | Force _ _ | Migrate _ _ | Down _ => true
  | _ => false
  end.

Definition moves_schema (c : MigrateCall) : bool :=
  match c with
  | Migrate _ _ | Down _ => true
  | _ => false
  end.

(** The call does not ask for a version at or above [current]. *)
Definition not_forward (current : Z) (c : MigrateCall) : Prop :=
  match c with
  | Migrate version _ => version < current
  | _ => True
  end.

(** A library whose schema is at [version], clean or dirty, and whose calls
    succeed. *)
Definition at_version (version : Z) (dirty : bool) : Library :=
  {| lib_Version := fun _ => (version, dirty, None);
     lib_Force := fun _ _ => None;
     lib_Migrate := fun _ _ => None;
     lib_Down := fun _ => None |}.

(** A library on a database where no migration has been applied yet. *)
Definition empty_schema : Library :=
  {| lib_Version := fun _ => (0, false, Some migrate.ErrNilVersion);
     lib_Force := fun _ _ => None;
     lib_Migrate := fun _ _ => None;
     lib_Down := fun _ => None |}.

End Rollback.

(** ** The recover middleware *)

Module Recover.

(** What is handed to [ctx.Error]: the recovered error, or
    [kit.ErrServerGeneric().With(fmt.Sprint(rec))] for a value that is not an
    error. *)
Inductive Reported : Type :=
| AsError (e : error)
| ServerGeneric (text : string).

(** What a handler does: calls of its own, and [ctx.Error]. *)
Inductive HandlerCall : Type :=
| Does (what : string)
| CtxError (err : Reported).

Definition http_ErrAbortHandler : error := Raw 4 "net/http: abort Handler".

(** [err, ok := rec.(error)], then the conversion when it is not one. The
    panics of the run time are errors. *)
Definition reported (rec : PanicVal) : Reported :=
  match rec with
  | PanicError e => AsError e
  | PanicValue v => ServerGeneric v
  | PanicNilDereference =>
      AsError (Raw 5 "runtime error: invalid memory address or nil pointer dereference")
  | PanicTypeAssertion => AsError (Raw 6 "interface conversion")
  end.

Definition is_abort (r : Reported) : bool :=
  match r with
  | AsError e => same_error e http_ErrAbortHandler
  | ServerGeneric _ => false
  end.

(** [Recover.Handle(next)] applied to a request: [next] is the handler run
    on it. After a recovered panic the function returns the zero value of
    its result. *)
Definition Handle (next : Calls.Mon HandlerCall (option error))
    : Calls.Mon HandlerCall (option error) :=
  Calls.defer_recover
    (fun rec =>
       let err := reported rec in
       if is_abort err then Calls.panic rec
       else Calls.bind (Calls.call (fun _ => tt) (fun _ => CtxError err))
              (fun _ => Calls.ret None))
    next.

Definition is_CtxError (c : HandlerCall) : bool :=
  match c with CtxError _ => true | Does _ => false end.

End Recover.

(** ** Properties of the classifiers *)

Section Classifiers.

Context `{KitText}.

Lemma match_here_other (c : ascii) (s : string) :
  (Ascii.eqb c "("%char && starts_with "S"%char s)%bool = false ->
  Regexp.match_here (String c s) = None.
Proof.
  intros Hc. unfold Regexp.match_here, Regexp.sqlstate_prefix.
  cbn [Regexp.strip_prefix]. rewrite (Ascii.eqb_sym "("%char c).
  destruct (Ascii.eqb c "("%char); [|reflexivity].
  destruct s as [|b s]; [reflexivity|].
  cbn [starts_with andb] in Hc.
  rewrite (Ascii.eqb_sym "S"%char b), Hc. reflexivity.
Qed.

Lemma starts_with_app (c : ascii) (a b : string) :
  starts_with c (a ++ b)%string
  = match a with EmptyString => starts_with c b | _ => starts_with c a end.
Proof. destruct a; reflexivity. Qed.

Lemma FindStringSubmatch_skip (pre s : string) :
  no_marker pre = true ->
  starts_with "S"%char s = false ->
  Regexp.FindStringSubmatch (pre ++ s)%string = Regexp.FindStringSubmatch s.
Proof.
  intros Hpre Hs. induction pre as [|c pre IH]; [reflexivity|].
  cbn [no_marker] in Hpre. apply andb_true_iff in Hpre as [Hc Hrest].
  apply negb_true_iff in Hc.
  change (String c pre ++ s)%string with (String c (pre ++ s)%string).
  cbn [Regexp.FindStringSubmatch].
  rewrite match_here_other; [now apply IH|].
  rewrite starts_with_app. destruct pre; [|exact Hc].
  rewrite Hs. apply andb_false_r.
Qed.

Lemma string_app_assoc (a b c : string) :
  ((a ++ b) ++ c)%string = (a ++ (b ++ c))%string.
Proof.
  induction a as [|x a IH]; [reflexivity|].
  change (String x ((a ++ b) ++ c)%string = String x (a ++ (b ++ c))%string).
  now f_equal.
Qed.

(** Two texts free of the marker, put together around a character that is
    neither the parenthesis nor the letter, are free of it. *)
Lemma no_marker_join (a b : string) (c : ascii) :
  Ascii.eqb c "("%char = false ->
  Ascii.eqb c "S"%char = false ->
  no_marker a = true -> no_marker b = true ->
  no_marker (a ++ String c b)%string = true.
Proof.
  intros Hc1 Hc2 Ha Hb. induction a as [|x a IH].
  - change (no_marker (String c b) = true). cbn [no_marker].
    rewrite Hc1, Hb. reflexivity.
  - cbn [no_marker] in Ha. apply andb_true_iff in Ha as [Hx Ha].
    change (String x a ++ String c b)%string
      with (String x (a ++ String c b)%string).
    cbn [no_marker]. rewrite (IH Ha), andb_true_r.
    rewrite starts_with_app. destruct a; [|exact Hx].
    cbn [starts_with]. rewrite Hc2, andb_false_r. reflexivity.
Qed.

(** A driver error in the format of [pgconn.PgError] whose code is one of
    the seven of the integrity family carries it, whatever the severity and
    the message, as long as they do not themselves hold the marker. *)
Lemma PgError_carries_code (severity message code : string) :
  no_marker severity = true ->
  no_marker message = true ->
  In code integrity_codes ->
  carries_integrity_code (PgError_text severity message code) = true.
Proof.
  intros Hs Hm Hc. unfold carries_integrity_code, PgError_text.
  change (severity ++ ": " ++ message ++ " (SQLSTATE " ++ code ++ ")")%string
    with (severity
          ++ String ":" (String " "
               (message ++ String " " ("(SQLSTATE " ++ code ++ ")"))))%string.
  assert (Hpre : no_marker
                   (severity ++ String ":" (String " " (message ++ " ")))%string
                 = true).
  { apply no_marker_join; [reflexivity|reflexivity|exact Hs|].
    cbn [no_marker]. apply andb_true_iff. split; [reflexivity|].
    now apply (no_marker_join message EmptyString " "%char). }
  replace (severity
           ++ String ":" (String " "
                (message ++ String " " ("(SQLSTATE " ++ code ++ ")"))))%string
    with ((severity ++ String ":" (String " " (message ++ " ")))
          ++ ("(SQLSTATE " ++ code ++ ")"))%string.
  2:{ rewrite (string_app_assoc severity).
      change (String ":" (String " " (message ++ " "))
              ++ ("(SQLSTATE " ++ code ++ ")"))%string
        with (String ":" (String " "
                ((message ++ " ") ++ ("(SQLSTATE " ++ code ++ ")"))))%string.
      rewrite (string_app_assoc message). reflexivity. }
  rewrite FindStringSubmatch_skip; [|exact Hpre|reflexivity].
  unfold integrity_codes in Hc. simpl in Hc.
  repeat (destruct Hc as [<- | Hc]; [vm_compute; reflexivity|]).
  destruct Hc.
Qed.

Lemma _dbErrToError_cases (e : error) :
  _dbErrToError (Some e) =
    if carries_integrity_code (Error e)
    then Some (Kit ErrDatabaseIntegrityViolation None (Some e))
    else if String.eqb (Error e) (Error pgx_ErrNoRows)
    then Some (Kit ErrDatabaseNoRows None (Some e))
    else Some (Kit ErrDatabaseGeneric None (Some e)).
Proof.
  unfold _dbErrToError, carries_integrity_code, WrapWithDepth.
  destruct (Regexp.FindStringSubmatch (Error e)) as [|a [|b [|c l]]];
    try reflexivity.
Qed.

Lemma classified_shape (x : error) :
  (exists k, _dbErrToError (Some x) = Some (Kit k None (Some x)))
  /\ (exists k, _chErrToError (Some x) = Some (Kit k None (Some x))).
Proof.
  split.
  - rewrite _dbErrToError_cases.
    destruct (carries_integrity_code (Error x));
      [|destruct (String.eqb (Error x) (Error pgx_ErrNoRows))];
      eexists; reflexivity.
  - unfold _chErrToError. destruct (same_error x cache_ErrCacheMiss);
      eexists; reflexivity.
Qed.

(** C6, as amended: classification is not idempotent. Each application wraps
    its argument once more, so the second classification has the first as
    its cause and is one level deeper. For the cache classifier an already
    classified error is always Generic: the kind is kept exactly when the
    error was not the cache-miss sentinel. *)
Theorem classification_twice (e : error) :
  (exists once twice,
      _chErrToError (Some e) = Some once
      /\ _chErrToError (Some once) = Some twice
      /\ cause_of once = Some e
      /\ cause_of twice = Some once
      /\ wrap_depth twice = S (wrap_depth once)
      /\ kind_of twice = Some ErrCacheGeneric
      /\ (classified_kind (Some twice) = classified_kind (Some once)
          <-> same_error e cache_ErrCacheMiss = false))
  /\ (exists once twice,
         _dbErrToError (Some e) = Some once
         /\ _dbErrToError (Some once) = Some twice
         /\ cause_of once = Some e
         /\ cause_of twice = Some once
         /\ wrap_depth twice = S (wrap_depth once)).
Proof.
  split.
  - unfold _chErrToError.
    destruct (same_error e cache_ErrCacheMiss) eqn:Hs;
      eexists _, _; (split; [reflexivity|]); (split; [reflexivity|]);
      (split; [reflexivity|]); (split; [reflexivity|]);
      (split; [reflexivity|]); (split; [reflexivity|]); simpl.
    + split; discriminate.
    + split; reflexivity.
  - destruct (proj1 (classified_shape e)) as [k1 Hk1].
    destruct (proj1 (classified_shape (Kit k1 None (Some e)))) as [k2 Hk2].
    eexists _, _. split; [exact Hk1|]. split; [exact Hk2|].
    repeat split.
Qed.

End Classifiers.

(** The claim C6 as it is stated fails on the cache-miss sentinel: classified
    once it is a cache miss (NotFound), classified twice it is Generic. *)
Lemma classification_not_idempotent :
  classified_kind (_chErrToError (_chErrToError (Some cache_ErrCacheMiss)))
  <> classified_kind (_chErrToError (Some cache_ErrCacheMiss)).
Proof. vm_compute. discriminate. Qed.

(** ** Stepping through computations *)

Section Steps.

Lemma bind_eq {A B} (m : M A) (k : A -> M B) (w : World) :
  bind m k w =
    match m w with
    | (evs, Done a) => (evs ++ fst (k a (w ++ evs)), snd (k a (w ++ evs)))
    | (evs, Panicked v) => (evs, Panicked v)
    end.
Proof. reflexivity. Qed.

Lemma bind_call {R B} (answer : World -> R) (ev : R -> Event) (k : R -> M B)
    (w : World) :
  bind (call answer ev) k w =
    (ev (answer w) :: fst (k (answer w) (w ++ [ev (answer w)])),
     snd (k (answer w) (w ++ [ev (answer w)]))).
Proof. reflexivity. Qed.

Lemma pair_eta {A B} (p : A * B) : (fst p, snd p) = p.
Proof. now destruct p. Qed.

Lemma bind_ret {A B} (a : A) (k : A -> M B) (w : World) :
  bind (ret a) k w = k a w.
Proof. unfold bind, ret. rewrite app_nil_r. apply pair_eta. Qed.

Lemma count_app (p : Event -> bool) (a b : list Event) :
  count p (a ++ b) = (count p a + count p b)%nat.
Proof. unfold count. now rewrite List.filter_app, List.length_app. Qed.

Lemma tx_free_app (a b : list Event) :
  tx_free (a ++ b) <-> tx_free a /\ tx_free b.
Proof. unfold tx_free. rewrite forallb_app. apply andb_true_iff. Qed.

Lemma tx_free_counts (evs : list Event) :
  tx_free evs -> begins evs = O /\ commits evs = O /\ rollbacks evs = O.
Proof.
  unfold tx_free, begins, commits, rollbacks, count.
  induction evs as [|e evs IH]; [now auto|].
  cbn [forallb List.filter]. intros Hall.
  apply andb_true_iff in Hall as [He Hrest].
  destruct (IH Hrest) as (Hb & Hc & Hr).
  unfold tx_event in He. apply negb_true_iff in He.
  apply orb_false_iff in He as [He Hroll].
  apply orb_false_iff in He as [Hbeg Hcom].
  rewrite Hbeg, Hcom, Hroll. auto.
Qed.

Lemma closing_counts (tx : nat) (o : Outcome (option error))
    (tail : list Event) (final : Outcome (option error)) :
  closing tx o tail final ->
  begins tail = O /\ (commits tail <= 1)%nat /\ (rollbacks tail <= 1)%nat
  /\ (1 <= commits tail + rollbacks tail)%nat.
Proof. intros Hc. destruct Hc; vm_compute; repeat split; lia. Qed.

End Steps.

(** ** Properties of the transaction manager *)

Section TransactionProps.

Context `{KitText} (drv : Driver) (self : Database).

Lemma bind_now {B} (k : nat -> M B) (w : World) :
  bind now k w = k (List.length w) w.
Proof. unfold bind, now. rewrite app_nil_r. apply pair_eta. Qed.

(** A call on a context that carries a transaction: the function is run on
    the same context, nothing else is called, the level is not looked at. *)
Lemma Transaction_reentered (ctx : Ctx) (level : option IsolationLevel)
    (fn : Ctx -> M (option error)) (w : World) :
  ctx_tx ctx <> None ->
  Database_Transaction drv self ctx level fn w
  = (events (fn ctx w), reentered (outcome (fn ctx w))).
Proof.
  intros Hctx. unfold Database_Transaction.
  destruct (ctx_tx ctx); [|contradiction].
  rewrite bind_eq. destruct (fn ctx w) as [evs [[e|]|v]];
    unfold ret; cbn; rewrite ?app_nil_r; reflexivity.
Qed.

Lemma Exec_tx_free (ctx : Ctx) (sql : string) (w : World) :
  tx_free (events (Database_Exec drv self ctx sql w)).
Proof.
  unfold Database_Exec, ctx_Err_call. rewrite bind_call. cbn [fst snd].
  destruct (snd (conn_Exec drv w sql)); [reflexivity|].
  rewrite bind_call. cbn [fst snd events].
  destruct (ctx_Err drv _); reflexivity.
Qed.

Lemma Query_tx_free (ctx : Ctx) (sql : string) (w : World) :
  tx_free (events (Database_Query drv self ctx sql w)).
Proof.
  unfold Database_Query, ctx_Err_call. rewrite bind_call. cbn [fst snd].
  destruct (conn_Query drv w sql); [reflexivity|].
  rewrite bind_call. cbn [fst snd events].
  destruct (ctx_Err drv _); [reflexivity|].
  rewrite bind_call. cbn [fst snd events].
  destruct (rows_Scan drv _); reflexivity.
Qed.

(** Whatever a body does on a context that carries a transaction, at any
    depth, it begins, commits and rolls back nothing. *)
Lemma run_tx_free (b : Body) :
  forall (ctx : Ctx) (w : World),
    ctx_tx ctx <> None -> tx_free (events (run drv self b ctx w)).
Proof.
  induction b as [err|v|sql k IH|sql k IH|level fn IHfn k IH];
    intros ctx w Hctx; cbn [run].
  - reflexivity.
  - reflexivity.
  - rewrite bind_eq. pose proof (Exec_tx_free ctx sql w) as He.
    destruct (Database_Exec drv self ctx sql w) as [evs [r|v]];
      cbn [events fst] in *; [|exact He].
    apply tx_free_app. split; [exact He|]. now apply IH.
  - rewrite bind_eq. pose proof (Query_tx_free ctx sql w) as He.
    destruct (Database_Query drv self ctx sql w) as [evs [r|v]];
      cbn [events fst] in *; [|exact He].
    apply tx_free_app. split; [exact He|]. now apply IH.
  - rewrite bind_eq, Transaction_reentered by exact Hctx.
    pose proof (IHfn ctx w Hctx) as He.
    destruct (run drv self fn ctx w) as [evs [[e|]|v]];
      cbn [events outcome reentered fst snd] in *; try exact He;
      (apply tx_free_app; split; [exact He|]; now apply IH).
Qed.

(** A panic below any number of nested calls reaches the caller as it is. *)
Lemma nested_panic (levels : list (option IsolationLevel)) (v : PanicVal) :
  forall (ctx : Ctx) (w : World),
    ctx_tx ctx <> None ->
    run drv self (nested levels (Panic v)) ctx w = ([], Panicked v).
Proof.
  induction levels as [|level rest IH]; intros ctx w Hctx; [reflexivity|].
  cbn [nested run]. rewrite bind_eq, Transaction_reentered by exact Hctx.
  rewrite IH by exact Hctx. reflexivity.
Qed.

(** The outermost call when the transaction is not started: a failed begin,
    or a context found cancelled right after it. *)
Lemma Transaction_not_started (ctx : Ctx) (level : option IsolationLevel)
    (lvl : IsolationLevel) (fn : Ctx -> M (option error)) (w : World) :
  ctx_tx ctx = None ->
  effective_level self level = Some lvl ->
  let iso := map_index _KisoLevelToPisoLevel lvl in
  (forall e, pool_BeginTx drv w = Some e ->
     Database_Transaction drv self ctx level fn w
     = ([EvBeginTx iso pgx.ReadWrite (Some e)],
        Done (Some (Wrap ErrDatabaseTransactionFailed (Some e)))))
  /\ (forall c, pool_BeginTx drv w = None ->
        ctx_Err drv (w ++ [EvBeginTx iso pgx.ReadWrite None]) = Some c ->
        Database_Transaction drv self ctx level fn w
        = ([EvBeginTx iso pgx.ReadWrite None; EvCtxErr (Some c)],
           Done (Some (Wrap ErrDatabaseTransactionFailed (Some c))))).
Proof.
  intros Hctx Hlvl iso. split.
  - intros e Hbegin. unfold Database_Transaction.
    fold (effective_level self level). rewrite Hctx, Hlvl, bind_now, bind_call.
    fold iso. rewrite Hbegin. reflexivity.
  - intros c Hbegin Hcancel. unfold Database_Transaction, ctx_Err_call.
    fold (effective_level self level). rewrite Hctx, Hlvl, bind_now, bind_call.
    fold iso. rewrite Hbegin. cbn [fst snd]. rewrite bind_call, Hcancel.
    reflexivity.
Qed.

(** The outermost call once the transaction is started. *)
Lemma Transaction_outermost (ctx : Ctx) (level : option IsolationLevel)
    (lvl : IsolationLevel) (fn : Ctx -> M (option error)) (w : World) :
  ctx_tx ctx = None ->
  effective_level self level = Some lvl ->
  let iso := map_index _KisoLevelToPisoLevel lvl in
  let tx := List.length w in
  pool_BeginTx drv w = None ->
  ctx_Err drv (w ++ [EvBeginTx iso pgx.ReadWrite None]) = None ->
  let rb := fn (WithValue ctx tx)
              (w ++ [EvBeginTx iso pgx.ReadWrite None; EvCtxErr None]) in
  exists tail final,
    Database_Transaction drv self ctx level fn w
    = ([EvBeginTx iso pgx.ReadWrite None; EvCtxErr None] ++ events rb ++ tail,
       final)
    /\ closing tx (outcome rb) tail final.
Proof.
  intros Hctx Hlvl iso tx Hbegin Hlive rb.
  unfold Database_Transaction. fold (effective_level self level).
  rewrite Hctx, Hlvl, bind_now.
  unfold ctx_Err_call, Rollback_call, Commit_call.
  rewrite bind_call. fold iso. rewrite Hbegin. cbn [fst snd].
  rewrite bind_call, Hlive. cbn [fst snd]. rewrite <- app_assoc. cbn [app].
  unfold defer_recover. rewrite bind_eq. fold tx. fold rb.
  clear Hbegin Hlive.
  destruct rb as [evs [[e|]|v]]; cbn [fst snd events outcome].
  - rewrite !bind_call. unfold ret. cbn [fst snd].
    eexists _, _. split; [reflexivity|]. constructor.
  - rewrite bind_call. cbn [fst snd].
    destruct (ctx_Err drv _) as [c|].
    { rewrite bind_call. unfold ret. cbn [fst snd].
      eexists _, _. split; [reflexivity|]. constructor. }
    rewrite bind_call. cbn [fst snd].
    destruct (tx_Commit drv _) as [e|].
    { rewrite bind_call. unfold ret. cbn [fst snd].
      eexists _, _. split; [reflexivity|]. constructor. }
    rewrite bind_call. cbn [fst snd].
    destruct (ctx_Err drv _) as [c|].
    { rewrite bind_call. unfold ret. cbn [fst snd].
      eexists _, _. split; [reflexivity|]. constructor. }
    unfold ret. cbn [fst snd].
    eexists _, _. split; [reflexivity|]. constructor.
  - rewrite bind_call. unfold panic. cbn [fst snd].
    eexists _, _. split; [reflexivity|]. constructor.
Qed.

(** The earlier revision is reentrant in the same way. *)
Lemma Transaction_v0_reentered (ctx : Ctx) (fn : Ctx -> M (option error))
    (w : World) :
  ctx_tx ctx <> None ->
  Database_Transaction_v0 drv self ctx fn w
  = (events (fn ctx w), reentered (outcome (fn ctx w))).
Proof.
  intros Hctx. unfold Database_Transaction_v0.
  destruct (ctx_tx ctx); [|contradiction].
  rewrite bind_eq. destruct (fn ctx w) as [evs [[e|]|v]];
    unfold ret; cbn; rewrite ?app_nil_r; reflexivity.
Qed.

(** On a panic the earlier revision rolls back once too, but it raises the
    recovered value combined with the error of the rollback: the value is
    the one that was raised only when it is an error and the rollback
    succeeds. *)
Lemma Transaction_v0_panic (ctx : Ctx) (fn : Ctx -> M (option error))
    (w : World) (body : list Event) (v : PanicVal) :
  ctx_tx ctx = None ->
  let tx := List.length w in
  let started := [EvBeginTx pgx.Serializable pgx.ReadWrite None;
                  EvCtxErr None] in
  pool_BeginTx drv w = None ->
  ctx_Err drv (w ++ [EvBeginTx pgx.Serializable pgx.ReadWrite None]) = None ->
  fn (WithValue ctx tx) (w ++ started) = (body, Panicked v) ->
  let errR := tx_Rollback drv ((w ++ started) ++ body) in
  Database_Transaction_v0 drv self ctx fn w
  = (started ++ body ++ [EvRollback tx errR],
     Panicked
       match assert_error v with
       | Some e => PanicError (CombineErrors e errR)
       | None => PanicTypeAssertion
       end).
Proof.
  intros Hctx tx started Hbegin Hlive Hfn errR.
  unfold Database_Transaction_v0, ctx_Err_call, Rollback_call.
  rewrite Hctx, bind_now, bind_call, Hbegin. cbn [fst snd].
  rewrite bind_call, Hlive. cbn [fst snd]. rewrite <- app_assoc. cbn [app].
  unfold defer_recover. rewrite bind_eq. fold tx. fold started in Hfn |- *.
  rewrite Hfn. rewrite bind_call. cbn [fst snd]. fold errR.
  destruct (assert_error v); reflexivity.
Qed.

Lemma begins_started (body tail : list Event) (iso : string) (tx : nat)
    (o final : Outcome (option error)) :
  tx_free body -> closing tx o tail final ->
  begins ([EvBeginTx iso pgx.ReadWrite None; EvCtxErr None] ++ body ++ tail)
  = 1%nat
  /\ commits ([EvBeginTx iso pgx.ReadWrite None; EvCtxErr None] ++ body ++ tail)
     = commits tail
  /\ rollbacks ([EvBeginTx iso pgx.ReadWrite None; EvCtxErr None] ++ body ++ tail)
     = rollbacks tail.
Proof.
  intros Hfree Hclose.
  destruct (tx_free_counts body Hfree) as (Hb & Hc & Hr).
  destruct (closing_counts tx o tail final Hclose) as (Hb' & _).
  unfold begins, commits, rollbacks in *.
  rewrite !count_app, Hb, Hc, Hr, Hb'. repeat split.
Qed.

(** The outermost call around a body, once the transaction is started. *)
Lemma Transaction_started (b : Body) (ctx : Ctx)
    (level : option IsolationLevel) (lvl : IsolationLevel) (w : World) :
  ctx_tx ctx = None ->
  effective_level self level = Some lvl ->
  let iso := map_index _KisoLevelToPisoLevel lvl in
  let tx := List.length w in
  let r := Database_Transaction drv self ctx level (run drv self b) w in
  pool_BeginTx drv w = None ->
  ctx_Err drv (w ++ [EvBeginTx iso pgx.ReadWrite None]) = None ->
  let rb := run drv self b (WithValue ctx tx)
              (w ++ [EvBeginTx iso pgx.ReadWrite None; EvCtxErr None]) in
  exists tail,
    events r
    = [EvBeginTx iso pgx.ReadWrite None; EvCtxErr None] ++ events rb ++ tail
    /\ tx_free (events rb)
    /\ closing tx (outcome rb) tail (outcome r)
    /\ begins (events r) = 1%nat
    /\ commits (events r) = commits tail
    /\ rollbacks (events r) = rollbacks tail.
Proof.
  intros Hctx Hlvl iso tx r Hbegin Hlive rb.
  destruct (Transaction_outermost ctx level lvl (run drv self b) w
              Hctx Hlvl Hbegin Hlive) as (tail & final & Heq & Hclose).
  fold iso tx rb in Heq, Hclose.
  assert (Hfree : tx_free (events rb)) by (apply run_tx_free; discriminate).
  subst r. rewrite Heq. cbn [events outcome fst snd].
  exists tail. split; [reflexivity|]. split; [exact Hfree|].
  split; [exact Hclose|].
  exact (begins_started _ _ iso tx _ _ Hfree Hclose).
Qed.

(** C1, as amended: a call on a context that already carries a transaction
    is reentrant: it runs its function on the same context, whatever level
    was asked for, and itself begins, commits and rolls back nothing. So at
    any nesting depth exactly one begin is made, by the outermost call, and
    once the transaction has started (the begin succeeded and the context was
    found alive after it) the outermost call alone ends it: by one rollback
    when the function fails or panics or the context is cancelled after it,
    by one commit otherwise, and that commit is followed by one rollback when
    it fails or when the context is cancelled after it. *)
Theorem Transaction_nesting (b : Body) (ctx : Ctx)
    (level : option IsolationLevel) (lvl : IsolationLevel) (w : World) :
  ctx_tx ctx = None ->
  effective_level self level = Some lvl ->
  let iso := map_index _KisoLevelToPisoLevel lvl in
  let tx := List.length w in
  let inner := WithValue ctx tx in
  let r := Database_Transaction drv self ctx level (run drv self b) w in
  (forall (level' : option IsolationLevel) (fn : Ctx -> M (option error))
          (w' : World),
      Database_Transaction drv self inner level' fn w'
      = (events (fn inner w'), reentered (outcome (fn inner w'))))
  /\ begins (events r) = 1%nat
  /\ (pool_BeginTx drv w = None ->
      ctx_Err drv (w ++ [EvBeginTx iso pgx.ReadWrite None]) = None ->
      let rb := run drv self b inner
                  (w ++ [EvBeginTx iso pgx.ReadWrite None; EvCtxErr None]) in
      exists tail,
        events r
        = [EvBeginTx iso pgx.ReadWrite None; EvCtxErr None]
            ++ events rb ++ tail
        /\ tx_free (events rb)
        /\ closing tx (outcome rb) tail (outcome r)
        /\ (commits (events r) <= 1)%nat
        /\ (rollbacks (events r) <= 1)%nat
        /\ (1 <= commits (events r) + rollbacks (events r))%nat).
Proof.
  intros Hctx Hlvl iso tx inner r.
  assert (Hinner : ctx_tx inner <> None) by discriminate.
  pose proof (Transaction_started b ctx level lvl w Hctx Hlvl) as Hstarted.
  cbv zeta in Hstarted. fold iso tx inner r in Hstarted.
  split; [|split].
  - intros level' fn w'. now apply Transaction_reentered.
  - destruct (Transaction_not_started ctx level lvl (run drv self b) w
                Hctx Hlvl) as [Hfail Hcancel].
    destruct (pool_BeginTx drv w) as [e|] eqn:Hbegin.
    { subst r. rewrite (Hfail e eq_refl). reflexivity. }
    destruct (ctx_Err drv (w ++ [EvBeginTx iso pgx.ReadWrite None]))
      as [c|] eqn:Hlive.
    { subst r. rewrite (Hcancel c eq_refl Hlive). reflexivity. }
    destruct (Hstarted eq_refl eq_refl) as (tail & _ & _ & _ & Hb & _).
    exact Hb.
  - intros Hbegin Hlive rb.
    destruct (Hstarted Hbegin Hlive)
      as (tail & Heq & Hfree & Hclose & _ & Hc & Hr).
    exists tail. split; [exact Heq|]. split; [exact Hfree|].
    split; [exact Hclose|]. rewrite Hc, Hr.
    destruct (closing_counts _ _ _ _ Hclose) as (_ & ? & ? & ?). auto.
Qed.

(** C3, as amended: when the body of a transaction panics, at whatever
    depth of nested calls, the outermost call of [Database.Transaction]
    makes exactly one rollback, as its last call, commits nothing, and
    panics again; no error is returned in place of the panic. The later
    revision panics with the value that was raised. The earlier revision
    panics with [CombineErrors(err.(error), errR)], the recovered error
    combined with the error of the rollback, also for a panic of the run
    time; and with the run-time error of the failed type assertion when the
    recovered value is not an error. *)
Theorem Transaction_panic (b : Body) (ctx : Ctx)
    (level : option IsolationLevel) (lvl : IsolationLevel) (w : World)
    (v : PanicVal) :
  ctx_tx ctx = None ->
  effective_level self level = Some lvl ->
  pool_BeginTx drv w = None ->
  let iso := map_index _KisoLevelToPisoLevel lvl in
  let tx := List.length w in
  let started := [EvBeginTx iso pgx.ReadWrite None; EvCtxErr None] in
  let started0 := [EvBeginTx pgx.Serializable pgx.ReadWrite None;
                   EvCtxErr None] in
  (ctx_Err drv (w ++ [EvBeginTx iso pgx.ReadWrite None]) = None ->
   let rb := run drv self b (WithValue ctx tx) (w ++ started) in
   outcome rb = Panicked v ->
   let r := Database_Transaction drv self ctx level (run drv self b) w in
   outcome r = Panicked v
   /\ (exists rolled,
         events r = started ++ events rb ++ [EvRollback tx rolled])
   /\ tx_free (events rb)
   /\ rollbacks (events r) = 1%nat
   /\ commits (events r) = O)
  /\ (ctx_Err drv (w ++ [EvBeginTx pgx.Serializable pgx.ReadWrite None])
      = None ->
      let rb0 := run drv self b (WithValue ctx tx) (w ++ started0) in
      outcome rb0 = Panicked v ->
      let r0 := Database_Transaction_v0 drv self ctx (run drv self b) w in
      exists rolled,
        events r0 = started0 ++ events rb0 ++ [EvRollback tx rolled]
        /\ tx_free (events rb0)
        /\ rollbacks (events r0) = 1%nat
        /\ commits (events r0) = O
        /\ (forall e, v = PanicError e ->
            outcome r0 = Panicked (PanicError (CombineErrors e rolled)))
        /\ (forall x, v = PanicValue x ->
            outcome r0 = Panicked PanicTypeAssertion)
        /\ (v = PanicNilDereference ->
            outcome r0
            = Panicked (PanicError
                          (CombineErrors runtime_nil_dereference rolled)))
        /\ (v = PanicTypeAssertion ->
            outcome r0
            = Panicked (PanicError
                          (CombineErrors runtime_type_assertion rolled)))).
Proof.
  intros Hctx Hlvl Hbegin iso tx started started0. split.
  - intros Hlive rb Hpanic r.
    destruct (Transaction_started b ctx level lvl w Hctx Hlvl Hbegin Hlive)
      as (tail & Heq & Hfree & Hclose & _).
    subst rb r started tx iso. cbv zeta in Heq, Hfree, Hclose.
    rewrite Hpanic in Hclose. inversion Hclose as [v' rolled| | | | |]; subst.
    split; [congruence|]. split; [now exists rolled|]. split; [exact Hfree|].
    destruct (tx_free_counts _ Hfree) as (_ & Hc & Hr).
    rewrite Heq. unfold rollbacks, commits in *.
    rewrite !count_app, Hc, Hr. split; reflexivity.
  - intros Hlive rb0 Hpanic r0.
    assert (Hfree : tx_free (events rb0)) by (apply run_tx_free; discriminate).
    assert (Hfn : run drv self b (WithValue ctx tx) (w ++ started0)
                  = (events rb0, Panicked v)).
    { fold rb0. destruct rb0 as [evs o]. cbn [outcome snd] in Hpanic.
      now subst o. }
    pose proof (Transaction_v0_panic ctx (run drv self b) w (events rb0) v
                  Hctx Hbegin Hlive Hfn) as Heq.
    cbv zeta in Heq. fold tx started0 in Heq.
    set (rolled := tx_Rollback drv ((w ++ started0) ++ events rb0)) in Heq.
    exists rolled. subst r0. rewrite Heq. cbn [events outcome fst snd].
    split; [reflexivity|]. split; [exact Hfree|].
    destruct (tx_free_counts _ Hfree) as (_ & Hc & Hr).
    unfold rollbacks, commits in *. rewrite !count_app, Hc, Hr.
    split; [reflexivity|]. split; [reflexivity|].
    split; [intros e ->; reflexivity|].
    split; [intros x ->; reflexivity|].
    split; intros ->; reflexivity.
Qed.

End TransactionProps.

(** ** The transaction manager on examples *)

Lemma Transaction_nesting_witness :
  let b := nested [Some IsoLvlSerializable; None]
             (DoExec "UPDATE accounts" (fun _ => Return None)) in
  let r := Database_Transaction quiet example_database background None
             (@run plain_text quiet example_database b) [] in
  ctx_tx background = None
  /\ effective_level example_database None = Some IsoLvlReadCommitted
  /\ begins (events r) = 1%nat
  /\ (commits (events r) + rollbacks (events r))%nat = 1%nat.
Proof.
  split; [reflexivity|]. split; [reflexivity|].
  pose proof (@Transaction_nesting plain_text quiet example_database
                (nested [Some IsoLvlSerializable; None]
                   (DoExec "UPDATE accounts" (fun _ => Return None)))
                background None IsoLvlReadCommitted [] eq_refl eq_refl)
    as (_ & Hbegins & _).
  split; [exact Hbegins|]. vm_compute. reflexivity.
Defined.

(** The claim C1 as it is stated fails when the commit fails, and when the
    context is found cancelled after the commit: the outermost call then
    makes a commit and a rollback. *)
Lemma Transaction_commit_then_rollback :
  ~ one_begin_one_end
      (events
         (Database_Transaction
            (with_Commit (fun _ => Some commit_failed) quiet)
            example_database background None
            (@run plain_text (with_Commit (fun _ => Some commit_failed) quiet)
               example_database (Return None)) []))
  /\ ~ one_begin_one_end
        (events
           (Database_Transaction (expiring 4) example_database background None
              (@run plain_text (expiring 4) example_database (Return None))
              [])).
Proof.
  unfold one_begin_one_end.
  split; intros [_ Hends]; vm_compute in Hends; discriminate Hends.
Qed.

Lemma Transaction_panic_witness :
  let b := nested [Some IsoLvlSerializable; None; Some IsoLvlReadCommitted]
             (Panic (PanicValue "boom")) in
  let r := Database_Transaction quiet example_database background None
             (@run plain_text quiet example_database b) [] in
  let r0 := Database_Transaction_v0 quiet example_database background
              (@run plain_text quiet example_database b) [] in
  outcome (@run plain_text quiet example_database b (WithValue background 0)
             [EvBeginTx pgx.Serializable pgx.ReadWrite None; EvCtxErr None])
  = Panicked (PanicValue "boom")
  /\ outcome r = Panicked (PanicValue "boom")
  /\ rollbacks (events r) = 1%nat
  /\ outcome r0 = Panicked PanicTypeAssertion
  /\ rollbacks (events r0) = 1%nat.
Proof.
  split; [reflexivity|].
  pose proof (@Transaction_panic plain_text quiet example_database
                (nested [Some IsoLvlSerializable; None; Some IsoLvlReadCommitted]
                   (Panic (PanicValue "boom")))
                background None IsoLvlReadCommitted [] (PanicValue "boom")
                eq_refl eq_refl eq_refl)
    as [Hlater Hearlier].
  destruct (Hlater eq_refl eq_refl) as (Hout & _ & _ & Hroll & _).
  destruct (Hearlier eq_refl eq_refl)
    as (rolled & _ & _ & Hroll0 & _ & _ & Hvalue & _).
  split; [exact Hout|]. split; [exact Hroll|].
  split; [exact (Hvalue "boom" eq_refl)|exact Hroll0].
Defined.

(** The claim C3 as it is stated fails on the earlier revision, which the
    claim cites too: there the recovered value goes through [err.(error)]
    and [CombineErrors]. A panic with a value that is not an error comes out
    as the run-time error of the failed type assertion, and a panic with an
    error comes out with the error of a failed rollback attached. *)
Lemma Transaction_v0_panic_value_changed :
  outcome (Database_Transaction_v0 quiet example_database background
             (@run plain_text quiet example_database
                (Panic (PanicValue "boom"))) [])
  <> Panicked (PanicValue "boom")
  /\ outcome (Database_Transaction_v0
                (with_Rollback (fun _ => Some rollback_failed) quiet)
                example_database background
                (@run plain_text
                   (with_Rollback (fun _ => Some rollback_failed) quiet)
                   example_database (Panic (PanicError body_failed))) [])
     <> Panicked (PanicError body_failed).
Proof. split; vm_compute; discriminate. Qed.

(** C4, on the code: the later revision of [Database.Transaction] calls
    [Rollback] and throws its result away (each call is marked "TODO: Combine
    error"). When the function fails with [body_failed] and the rollback
    fails with [rollback_failed], the error returned wraps [body_failed]
    alone and nothing is attached to it, where the earlier revision attached
    the rollback error. And a context found cancelled right after the begin
    is answered without any rollback, in both revisions. *)
Theorem Transaction_drops_rollback_error :
  let drv := with_Rollback (fun _ => Some rollback_failed) quiet in
  let fn := fun _ : Ctx => ret (Some body_failed) in
  let r := Database_Transaction drv example_database background None fn [] in
  let r0 := Database_Transaction_v0 drv example_database background fn [] in
  events r
  = [EvBeginTx pgx.Serializable pgx.ReadWrite None; EvCtxErr None;
     EvRollback 0 (Some rollback_failed)]
  /\ outcome r
     = Done (Some (Kit ErrDatabaseTransactionFailed None (Some body_failed)))
  /\ (forall e, outcome r = Done (Some e) -> attached e = [])
  /\ outcome r0
     = Done (Some (Kit ErrDatabaseTransactionFailed None
                     (Some (Combined body_failed rollback_failed))))
  /\ (forall (d : Driver) (c : error),
        pool_BeginTx d [] = None ->
        ctx_Err d [EvBeginTx pgx.Serializable pgx.ReadWrite None] = Some c ->
        Database_Transaction d example_database background None fn []
        = ([EvBeginTx pgx.Serializable pgx.ReadWrite None; EvCtxErr (Some c)],
           Done (Some (Kit ErrDatabaseTransactionFailed None (Some c))))).
Proof.
  intros drv fn r r0. split; [reflexivity|]. split; [reflexivity|].
  split.
  { intros e He. vm_compute in He. injection He as <-. reflexivity. }
  split; [reflexivity|].
  intros d c Hbegin Hcancel.
  exact (proj2 (Transaction_not_started d example_database background None
                  IsoLvlReadCommitted fn [] eq_refl eq_refl) c Hbegin Hcancel).
Qed.

(** C2, on the code: the four isolation levels are four variables holding
    the same value, zero, so that the table from levels to driver levels has
    a single key. Whatever level is asked for, and also when none is and the
    default of the configuration is used, the transaction is begun at the
    level of the entry assigned last, serializable; and no table at all can
    send both [IsoLvlReadCommitted] and [IsoLvlSerializable] to their own
    driver level. *)
Theorem isolation_levels_collapse (drv : Driver) (self : Database)
    (deadline : option nat) (fn : Ctx -> M (option error)) (w : World) :
  IsoLvlReadUncommitted = IsoLvlSerializable
  /\ IsoLvlReadCommitted = IsoLvlSerializable
  /\ IsoLvlRepeatableRead = IsoLvlSerializable
  /\ Forall
       (fun level =>
          exists rest final,
            Database_Transaction drv self
              {| ctx_tx := None; ctx_deadline := deadline |} (Some level) fn w
            = (EvBeginTx pgx.Serializable pgx.ReadWrite (pool_BeginTx drv w)
                 :: rest, final))
       [IsoLvlReadUncommitted; IsoLvlReadCommitted; IsoLvlRepeatableRead;
        IsoLvlSerializable]
  /\ DatabaseDefaultIsolationLevel
       (Database_Merge example_config (_DATABASE_DEFAULT_CONFIG drv))
     = Some IsoLvlReadCommitted
  /\ map_index _KisoLevelToPisoLevel IsoLvlReadCommitted = pgx.Serializable
  /\ (exists rest final,
        Database_Transaction drv
          {| Database_config :=
               Database_Merge example_config (_DATABASE_DEFAULT_CONFIG drv);
             Database_pool := 0 |}
          {| ctx_tx := None; ctx_deadline := deadline |} None fn w
        = (EvBeginTx pgx.Serializable pgx.ReadWrite (pool_BeginTx drv w)
             :: rest, final))
  /\ (forall m : gmap Z string,
        ~ (map_index m IsoLvlReadCommitted = pgx.ReadCommitted
           /\ map_index m IsoLvlSerializable = pgx.Serializable)).
Proof.
  assert (Hbegin : forall (db : Database) (lvl : IsolationLevel),
            effective_level db (Some lvl) = Some lvl) by reflexivity.
  assert (Hstep : forall (db : Database) (level : option IsolationLevel),
            effective_level db level = Some 0 ->
            exists rest final,
              Database_Transaction drv db
                {| ctx_tx := None; ctx_deadline := deadline |} level fn w
              = (EvBeginTx pgx.Serializable pgx.ReadWrite (pool_BeginTx drv w)
                   :: rest, final)).
  { intros db level Hlvl. unfold Database_Transaction.
    fold (effective_level db level). rewrite Hlvl. cbn [ctx_tx].
    rewrite bind_now, bind_call.
    replace (map_index _KisoLevelToPisoLevel 0) with pgx.Serializable
      by (vm_compute; reflexivity).
    eexists _, _. reflexivity. }
  repeat split; try reflexivity.
  - repeat constructor; apply Hstep; reflexivity.
  - apply Hstep. reflexivity.
  - intros m [Hrc Hser]. unfold IsoLvlReadCommitted, IsoLvlSerializable in *.
    rewrite Hrc in Hser. discriminate Hser.
Qed.

(** ** The cache: [Set] *)

(** C10, as amended: [Cache.Set] with a nil [ttl] hands the item to the
    cache library with a time-to-live of zero, exactly as if a zero [ttl]
    had been given; the nil pointer is no error: the call returns what the
    library returns, classified, and nil when the library succeeds. A
    time-to-live of zero is not "no expiration": the library stores such an
    item with its default time-to-live of one hour. *)
Theorem Cache_Set_nil_ttl (drv : Driver) (self : Cache) (ctx : Ctx)
    (key value : string) (w : World) :
  let item := {| Key := key; Value := value; TTL := 0;
                 SkipLocalCache := false |} in
  Cache_Set drv self ctx key value None w
  = ([EvCacheSet item (cache_Set drv w item)],
     Done (_chErrToError (cache_Set drv w item)))
  /\ Cache_Set drv self ctx key value None w
     = Cache_Set drv self ctx key value (Some 0) w
  /\ _chErrToError None = None
  /\ Item_ttl item = hour.
Proof.
  intros item. split; [|split; [|split]]; try reflexivity.
  unfold Cache_Set. rewrite bind_call. change (0 * second) with 0. fold item.
  destruct (cache_Set drv w item); reflexivity.
Qed.

(** The claim C10 as it is stated fails: the item that [Cache.Set] hands
    over for a nil [ttl] has a time-to-live of zero, and the library stores
    it for one hour, not without expiration. *)
Lemma Cache_Set_nil_ttl_expires :
  let item := {| Key := "session"; Value := "token"; TTL := 0;
                 SkipLocalCache := false |} in
  events (Cache_Set quiet example_cache background "session" "token" None [])
  = [EvCacheSet item None]
  /\ Item_ttl item = hour
  /\ ~ stored_without_expiration item.
Proof.
  split; [reflexivity|]. split; [reflexivity|].
  intros [_ Hnone]. vm_compute in Hnone. discriminate Hnone.
Qed.

(** ** Properties of the health checks *)

Section HealthProps.

Context `{KitText} (drv : Driver).

Lemma int32_id (x : Z) : - 2 ^ 31 <= x < 2 ^ 31 -> GoInt.int32 x = x.
Proof.
  intros Hx. unfold GoInt.int32, GoInt.wrap_signed.
  rewrite Z.mod_small; lia.
Qed.

Lemma uint32_id (x : Z) : 0 <= x < 2 ^ 32 -> GoInt.uint32 x = x.
Proof.
  intros Hx. unfold GoInt.uint32, GoInt.wrap_unsigned.
  now apply Z.mod_small.
Qed.

Lemma Deadline_in_time (ctx : Ctx) (fn : M (option error)) (w : World)
    (n : nat) :
  deadline_allows ctx n ->
  (List.length (events (fn w)) <= n)%nat ->
  util.Deadline ctx fn w = fn w.
Proof.
  unfold deadline_allows, util.Deadline. intros Hallow Hlen.
  destruct (ctx_deadline ctx) as [k|]; [|reflexivity].
  destruct (Nat.leb_spec (List.length (events (fn w))) k); [reflexivity|lia].
Qed.

Lemma Deadline_expired (ctx : Ctx) (fn : M (option error)) (w : World)
    (k : nat) :
  ctx_deadline ctx = Some k ->
  (k < List.length (events (fn w)))%nat ->
  util.Deadline ctx fn w
  = (firstn k (events (fn w)), Done (Some (New ErrDeadlineExceeded))).
Proof.
  unfold util.Deadline. intros -> Hlen.
  destruct (Nat.leb_spec (List.length (events (fn w))) k); [lia|reflexivity].
Qed.

Lemma foreign_not_timeout (k : ErrKind) (x : option (string * list Z))
    (c : option error) :
  k <> ErrDeadlineExceeded -> not_timeout c ->
  Is ErrDeadlineExceeded (Kit k x c) = false.
Proof.
  intros Hk Hc. cbn [Is]. apply orb_false_iff. split.
  - destruct k; try reflexivity. contradiction.
  - destruct c; [exact Hc|reflexivity].
Qed.

(** What the check of [Database.Health] finds. *)
Lemma Database_Health_check_cases (self : Database) (minConns : Z) (w : World) :
  foreign drv ->
  DatabaseMinConns (Database_config self) = Some minConns ->
  - 2 ^ 31 <= minConns < 2 ^ 31 ->
  let r := Database_Health_check drv self w in
  (List.length (events r) <= 3)%nat
  /\ (Database_unhealthy drv minConns w ->
      exists e, outcome r = Done (Some e)
                /\ kind_of e = Some ErrDatabaseUnhealthy
                /\ Is ErrDeadlineExceeded e = false)
  /\ (~ Database_unhealthy drv minConns w -> outcome r = Done None).
Proof.
  intros Hforeign Hmin Hrange r. subst r.
  unfold Database_Health_check, Database_unhealthy, ctx_Err_call.
  rewrite bind_call, Hmin, int32_id by exact Hrange.
  cbn [fst snd events outcome].
  set (n := pool_TotalConns drv w).
  destruct (Z.ltb_spec n minConns) as [Hlow|Hok].
  { unfold ret, Withf. cbn. split; [lia|]. split.
    - intros _. eexists. repeat split.
    - intros Hnot. exfalso. apply Hnot. now left. }
  rewrite bind_call. cbn [fst snd].
  pose proof (Hforeign (w ++ [EvStat n])) as (_ & Hping & _).
  destruct (snd (pool_Ping drv (w ++ [EvStat n]))) as [e|].
  { unfold ret, WrapAs. cbn [fst snd List.length]. split; [lia|]. split.
    - intros _. eexists. split; [reflexivity|]. split; [reflexivity|].
      now apply foreign_not_timeout.
    - intros Hnot. exfalso. apply Hnot. right. left. discriminate. }
  rewrite bind_call. cbn [fst snd].
  rewrite <- app_assoc. cbn [app].
  pose proof (Hforeign (w ++ [EvStat n; EvPing "" None])) as (Hcancel & _).
  destruct (ctx_Err drv (w ++ [EvStat n; EvPing "" None])) as [c|].
  { unfold ret, WrapAs. cbn [fst snd List.length]. split; [lia|]. split.
    - intros _. eexists. split; [reflexivity|]. split; [reflexivity|].
      now apply foreign_not_timeout.
    - intros Hnot. exfalso. apply Hnot. right. right. discriminate. }
  unfold ret. cbn [fst snd List.length]. split; [lia|]. split.
  - intros [Hlow|[Hp|Hc]]; [lia|now contradiction Hp|now contradiction Hc].
  - reflexivity.
Qed.

(** What the check of [Cache.Health] finds. *)
Lemma Cache_Health_check_cases (self : Cache) (minConns : Z) (w : World) :
  foreign drv ->
  MinConns (Cache_config self) = Some minConns ->
  0 <= minConns < 2 ^ 32 ->
  let r := Cache_Health_check drv self w in
  (List.length (events r) <= 3)%nat
  /\ (Cache_unhealthy drv minConns w ->
      exists e, outcome r = Done (Some e)
                /\ kind_of e = Some ErrCacheUnhealthy
                /\ Is ErrDeadlineExceeded e = false)
  /\ (~ Cache_unhealthy drv minConns w -> outcome r = Done None).
Proof.
  intros Hforeign Hmin Hrange r. subst r.
  unfold Cache_Health_check, Cache_unhealthy, ctx_Err_call.
  rewrite bind_call, Hmin, uint32_id by exact Hrange.
  cbn [fst snd events outcome].
  set (n := pool_TotalConns drv w).
  destruct (Z.ltb_spec n minConns) as [Hlow|Hok].
  { unfold ret, Withf. cbn. split; [lia|]. split.
    - intros _. eexists. repeat split.
    - intros Hnot. exfalso. apply Hnot. now left. }
  rewrite bind_call. cbn [fst snd].
  pose proof (Hforeign (w ++ [EvStat n])) as (_ & Hping & _).
  destruct (pool_Ping drv (w ++ [EvStat n])) as [pong perr].
  cbn [fst snd] in *.
  destruct perr as [e|].
  { unfold ret, WrapAs. cbn [fst snd List.length]. split; [lia|]. split.
    - intros _. eexists. split; [reflexivity|]. split; [reflexivity|].
      now apply foreign_not_timeout.
    - intros Hnot. exfalso. apply Hnot. right. left. left. discriminate. }
  destruct (String.eqb_spec pong "PONG") as [->|Hpong].
  2:{ unfold ret, WrapAs. cbn [fst snd List.length]. split; [lia|]. split.
      - intros _. eexists. split; [reflexivity|]. split; reflexivity.
      - intros Hnot. exfalso. apply Hnot. right. left. now right. }
  rewrite bind_call. cbn [fst snd].
  rewrite <- app_assoc. cbn [app].
  pose proof (Hforeign (w ++ [EvStat n; EvPing "PONG" None])) as (Hcancel & _).
  destruct (ctx_Err drv (w ++ [EvStat n; EvPing "PONG" None])) as [c|].
  { unfold ret, WrapAs. cbn [fst snd List.length]. split; [lia|]. split.
    - intros _. eexists. split; [reflexivity|]. split; [reflexivity|].
      now apply foreign_not_timeout.
    - intros Hnot. exfalso. apply Hnot. right. right. discriminate. }
  unfold ret. cbn [fst snd List.length]. split; [lia|]. split.
  - intros [Hlow|[[Hp|Hp]|Hc]];
      [lia|now contradiction Hp|now contradiction Hp|now contradiction Hc].
  - reflexivity.
Qed.

Lemma Health_check_nonempty (dself : Database) (cself : Cache) (w : World) :
  (1 <= List.length (events (Database_Health_check drv dself w)))%nat
  /\ (1 <= List.length (events (Cache_Health_check drv cself w)))%nat.
Proof.
  unfold Database_Health_check, Cache_Health_check.
  rewrite !bind_call. cbn [events fst List.length]. lia.
Qed.

Lemma Health_check_calls (dself : Database) (cself : Cache) (dmin cmin : Z)
    (w : World) :
  DatabaseMinConns (Database_config dself) = Some dmin ->
  - 2 ^ 31 <= dmin < 2 ^ 31 ->
  MinConns (Cache_config cself) = Some cmin ->
  0 <= cmin < 2 ^ 32 ->
  List.length (events (Database_Health_check drv dself w))
  = Database_Health_calls drv dmin w
  /\ List.length (events (Cache_Health_check drv cself w))
     = Cache_Health_calls drv cmin w.
Proof.
  intros Hdmin Hdrange Hcmin Hcrange. split.
  - unfold Database_Health_check, Database_Health_calls, ctx_Err_call.
    rewrite bind_call, Hdmin, int32_id by exact Hdrange.
    cbn [fst snd events].
    destruct (pool_TotalConns drv w <? dmin); [reflexivity|].
    rewrite bind_call. cbn [fst snd].
    destruct (snd (pool_Ping drv _)); [reflexivity|].
    rewrite bind_call. cbn [fst snd].
    destruct (ctx_Err drv _); reflexivity.
  - unfold Cache_Health_check, Cache_Health_calls, ctx_Err_call.
    rewrite bind_call, Hcmin, uint32_id by exact Hcrange.
    cbn [fst snd events].
    destruct (pool_TotalConns drv w <? cmin); [reflexivity|].
    rewrite bind_call. cbn [fst snd].
    destruct (pool_Ping drv _) as [pong perr]. cbn [fst snd].
    destruct perr; [reflexivity|].
    destruct (String.eqb pong "PONG"); [|reflexivity].
    rewrite bind_call. cbn [fst snd].
    destruct (ctx_Err drv _); reflexivity.
Qed.

(** C5, as amended: [Health] of the database and of the cache reads the
    pool, pings and reads the context, and stops at the first finding: it
    makes one call when the pool is below the configured minimum, two when
    the ping fails (for the cache also when it answers something else than
    PONG), three otherwise. When the context has no deadline, or a deadline
    that leaves room for these calls, [Health] returns nil exactly when none
    of the three findings holds, and otherwise returns the Unhealthy error
    wrapped in a Generic error. When the deadline expires before these calls
    are made it returns a TimedOut error. Every context is in one of the two
    cases. The minimum is within the range of the integer type it is
    compared in, and the errors of the driver and of the context are foreign
    to kit: none of them is the deadline error of [util]. *)
Theorem Health_outcomes (dself : Database) (cself : Cache) (w : World)
    (dmin cmin : Z) :
  foreign drv ->
  DatabaseMinConns (Database_config dself) = Some dmin ->
  - 2 ^ 31 <= dmin < 2 ^ 31 ->
  MinConns (Cache_config cself) = Some cmin ->
  0 <= cmin < 2 ^ 32 ->
  let dn := Database_Health_calls drv dmin w in
  let cn := Cache_Health_calls drv cmin w in
  (forall ctx : Ctx, deadline_allows ctx dn ->
     (Database_unhealthy drv dmin w ->
      exists e, outcome (Database_Health drv dself ctx w)
                = Done (Some (Kit ErrDatabaseGeneric None (Some e)))
                /\ kind_of e = Some ErrDatabaseUnhealthy)
     /\ (~ Database_unhealthy drv dmin w ->
         outcome (Database_Health drv dself ctx w) = Done None))
  /\ (forall (ctx : Ctx) (k : nat),
        ctx_deadline ctx = Some k -> (k < dn)%nat ->
        outcome (Database_Health drv dself ctx w)
        = Done (Some (New ErrDatabaseTimedOut)))
  /\ (forall ctx : Ctx, deadline_allows ctx cn ->
        (Cache_unhealthy drv cmin w ->
         exists e, outcome (Cache_Health drv cself ctx w)
                   = Done (Some (Kit ErrCacheGeneric None (Some e)))
                   /\ kind_of e = Some ErrCacheUnhealthy)
        /\ (~ Cache_unhealthy drv cmin w ->
            outcome (Cache_Health drv cself ctx w) = Done None))
  /\ (forall (ctx : Ctx) (k : nat),
        ctx_deadline ctx = Some k -> (k < cn)%nat ->
        outcome (Cache_Health drv cself ctx w)
        = Done (Some (New ErrCacheTimedOut)))
  /\ (forall (ctx : Ctx) (n : nat),
        deadline_allows ctx n
        \/ exists k, ctx_deadline ctx = Some k /\ (k < n)%nat).
Proof.
  intros Hforeign Hdmin Hdrange Hcmin Hcrange dn cn.
  destruct (Database_Health_check_cases dself dmin w Hforeign Hdmin Hdrange)
    as (_ & Hdbad & Hdok).
  destruct (Cache_Health_check_cases cself cmin w Hforeign Hcmin Hcrange)
    as (_ & Hcbad & Hcok).
  destruct (Health_check_calls dself cself dmin cmin w Hdmin Hdrange Hcmin
              Hcrange) as [Hdlen Hclen].
  fold dn in Hdlen. fold cn in Hclen.
  split; [|split; [|split; [|split]]].
  - intros ctx Hallow. unfold Database_Health. rewrite !bind_eq.
    rewrite (Deadline_in_time ctx _ w dn Hallow) by (rewrite Hdlen; lia).
    split.
    + intros Hbad. destruct (Hdbad Hbad) as (e & Hout & Hkind & Hnt).
      destruct (Database_Health_check drv dself w) as [evs o].
      cbn [outcome snd] in Hout. subst o. rewrite Hnt.
      exists e. split; [reflexivity|exact Hkind].
    + intros Hok. specialize (Hdok Hok).
      destruct (Database_Health_check drv dself w) as [evs o].
      cbn [outcome snd] in Hdok. subst o. reflexivity.
  - intros ctx k Hk Hshort. unfold Database_Health. rewrite !bind_eq.
    rewrite (Deadline_expired ctx _ w k Hk) by (rewrite Hdlen; exact Hshort).
    reflexivity.
  - intros ctx Hallow. unfold Cache_Health. rewrite !bind_eq.
    rewrite (Deadline_in_time ctx _ w cn Hallow) by (rewrite Hclen; lia).
    split.
    + intros Hbad. destruct (Hcbad Hbad) as (e & Hout & Hkind & Hnt).
      destruct (Cache_Health_check drv cself w) as [evs o].
      cbn [outcome snd] in Hout. subst o. rewrite Hnt.
      exists e. split; [reflexivity|exact Hkind].
    + intros Hok. specialize (Hcok Hok).
      destruct (Cache_Health_check drv cself w) as [evs o].
      cbn [outcome snd] in Hcok. subst o. reflexivity.
  - intros ctx k Hk Hshort. unfold Cache_Health. rewrite !bind_eq.
    rewrite (Deadline_expired ctx _ w k Hk) by (rewrite Hclen; exact Hshort).
    reflexivity.
  - intros ctx n. unfold deadline_allows.
    destruct (ctx_deadline ctx) as [k|]; [|now left].
    destruct (Nat.le_gt_cases n k); [now left|].
    right. now exists k.
Qed.

End HealthProps.

Lemma quiet_foreign : foreign quiet.
Proof. intros w. repeat split. Qed.

Lemma Health_outcomes_witness :
  foreign quiet
  /\ DatabaseMinConns (Database_config example_database) = Some 1
  /\ - 2 ^ 31 <= 1 < 2 ^ 31
  /\ MinConns (Cache_config example_cache) = Some 1
  /\ 0 <= 1 < 2 ^ 32
  /\ Database_Health_calls quiet 1 [] = 3%nat
  /\ ~ Database_unhealthy quiet 1 []
  /\ outcome (Database_Health quiet example_database background [])
     = Done None
  /\ outcome (Database_Health quiet example_database
                {| ctx_tx := None; ctx_deadline := Some 3%nat |} [])
     = Done None
  /\ outcome (Database_Health quiet example_database
                {| ctx_tx := None; ctx_deadline := Some 2%nat |} [])
     = Done (Some (New ErrDatabaseTimedOut)).
Proof.
  assert (Hrange1 : - 2 ^ 31 <= 1 < 2 ^ 31) by lia.
  assert (Hrange2 : 0 <= 1 < 2 ^ 32) by lia.
  assert (Hfine : ~ Database_unhealthy quiet 1 []).
  { unfold Database_unhealthy. cbn. intros [Hlow|[Hp|Hc]];
      [lia|now apply Hp|now apply Hc]. }
  assert (Hroom : (3 <= 3)%nat) by lia.
  assert (Hshort : (2 < 3)%nat) by lia.
  split; [exact quiet_foreign|]. split; [reflexivity|].
  split; [exact Hrange1|]. split; [reflexivity|]. split; [exact Hrange2|].
  split; [reflexivity|]. split; [exact Hfine|].
  pose proof (Health_outcomes quiet example_database example_cache [] 1 1
                quiet_foreign eq_refl Hrange1 eq_refl Hrange2)
    as (Hin & Hout & _).
  split; [exact (proj2 (Hin background I) Hfine)|].
  split.
  - exact (proj2 (Hin {| ctx_tx := None; ctx_deadline := Some 3%nat |} Hroom)
             Hfine).
  - exact (Hout {| ctx_tx := None; ctx_deadline := Some 2%nat |} 2%nat
             eq_refl Hshort).
Defined.

(** The claim C5 as it is stated fails when the deadline of the context
    expires during the check. With the pool at its minimum and a ping that
    answers, [Health] returns a TimedOut error: it is not success, if the
    context is taken as not cancelled (it was not when the check began), and
    it is not an Unhealthy error, if the context is taken as cancelled (it
    is when the check would have read it). *)
Lemma Health_timed_out :
  ~ Health_claim
      (outcome (Database_Health quiet example_database
                  {| ctx_tx := None; ctx_deadline := Some 1%nat |} []))
      (Database_unhealthy quiet 1 [])
  /\ ~ Health_claim
        (outcome (Database_Health (expiring 1) example_database
                    {| ctx_tx := None; ctx_deadline := Some 1%nat |} []))
        (Database_unhealthy (expiring 1) 1 []).
Proof.
  split.
  - intros [_ Hok].
    assert (Hfine : ~ Database_unhealthy quiet 1 []).
    { unfold Database_unhealthy. cbn. intros [Hlow|[Hp|Hc]];
        [lia|now apply Hp|now apply Hc]. }
    specialize (Hok Hfine). vm_compute in Hok. discriminate Hok.
  - intros [Hbad _].
    assert (Hcancelled : Database_unhealthy (expiring 1) 1 []).
    { unfold Database_unhealthy. right. right. cbn. discriminate. }
    destruct (Hbad Hcancelled) as (e & Hout & Hun).
    vm_compute in Hout. injection Hout as <-. vm_compute in Hun.
    discriminate Hun.
Qed.

(** ** Properties of the migrator *)

Section MigratorProps.

Context (drv : Driver).

Lemma uint_id (x : Z) : 0 <= x < 2 ^ 64 -> GoInt.uint x = x.
Proof.
  intros Hx. unfold GoInt.uint, GoInt.wrap_unsigned. now apply Z.mod_small.
Qed.

(** [Apply] on a version that is not negative, the schema being readable:
    a dirty schema or a version behind the current one is refused with a
    Generic error and no migration is asked for; the current version is
    accepted as it is; a version ahead is handed to the migration library in
    one call, after the difference has been announced. *)
Lemma Apply_steps_in_range (schemaVersion : Z) (w : World)
    (current : Z) (dirty : bool) :
  0 <= schemaVersion < 2 ^ 63 ->
  migrate_Version drv w = (current, dirty, None) ->
  let r := Migrator_Apply_steps drv schemaVersion w in
  ((dirty = true \/ current > schemaVersion) ->
   exists x, outcome r = Done (Some (Kit ErrMigratorGeneric (Some x) None))
             /\ events r = [EvVersion current dirty None])
  /\ (dirty = false -> current = schemaVersion ->
      outcome r = Done None
      /\ events r = [EvVersion current false None;
                     EvInfof "No migrations to apply" []])
  /\ (dirty = false -> current < schemaVersion ->
      exists migrated,
        List.filter is_migrate (events r) = [EvMigrate schemaVersion migrated]
        /\ nth_error (events r) 1
           = Some (EvInfof "%d migrations to be applied"
                     [AInt (GoInt.int (schemaVersion - GoInt.int current))])
        /\ (migrated = None -> outcome r = Done None)
        /\ (migrated <> None ->
            outcome r = Done (Some (Kit ErrMigratorGeneric None migrated)))).
Proof.
  intros Hrange Hversion r. subst r.
  unfold Migrator_Apply_steps, Infof. rewrite bind_call, Hversion.
  cbn [fst snd events outcome]. rewrite uint_id by lia.
  repeat split.
  - intros [->|Hbehind].
    + eexists. split; reflexivity.
    + destruct dirty; [eexists; split; reflexivity|].
      destruct (Z.eqb_spec current schemaVersion); [lia|].
      destruct (Z.gtb_spec current schemaVersion); [|lia].
      eexists. split; reflexivity.
  - subst. rewrite Z.eqb_refl. reflexivity.
  - subst. rewrite Z.eqb_refl. reflexivity.
  - intros -> Hahead.
    destruct (Z.eqb_spec current schemaVersion); [lia|].
    destruct (Z.gtb_spec current schemaVersion); [lia|].
    rewrite !bind_call. cbn [fst snd].
    match goal with
    | |- context [migrate_Migrate drv ?h schemaVersion] =>
        set (m := migrate_Migrate drv h schemaVersion)
    end.
    exists m. split; [|split; [reflexivity|split]].
    + destruct m; reflexivity.
    + intros ->. reflexivity.
    + intros Hfailed. destruct m; [reflexivity|now contradiction Hfailed].
Qed.

(** [Apply] on a negative version, the schema being clean: the version is
    never found behind the current one; the library is asked to migrate to
    the version wrapped around. *)
Lemma Apply_steps_negative (schemaVersion : Z) (w : World) (current : Z) :
  - 2 ^ 63 <= schemaVersion < 0 ->
  0 <= current < 2 ^ 63 ->
  migrate_Version drv w = (current, false, None) ->
  let r := Migrator_Apply_steps drv schemaVersion w in
  exists migrated,
    List.filter is_migrate (events r)
    = [EvMigrate (2 ^ 64 + schemaVersion) migrated]
    /\ (migrated = None -> outcome r = Done None).
Proof.
  intros Hneg Hcur Hversion r. subst r.
  assert (Huint : GoInt.uint schemaVersion = 2 ^ 64 + schemaVersion).
  { unfold GoInt.uint, GoInt.wrap_unsigned.
    rewrite <- (Z.mod_small (2 ^ 64 + schemaVersion) (2 ^ 64)) by lia.
    rewrite <- (Z_mod_plus_full schemaVersion 1 (2 ^ 64)). f_equal. lia. }
  unfold Migrator_Apply_steps, Infof. rewrite bind_call, Hversion.
  cbn [fst snd events outcome]. rewrite Huint.
  destruct (Z.eqb_spec current (2 ^ 64 + schemaVersion)); [lia|].
  destruct (Z.gtb_spec current (2 ^ 64 + schemaVersion)); [lia|].
  rewrite !bind_call. cbn [fst snd].
  match goal with
  | |- context [migrate_Migrate drv ?h ?to] =>
      set (m := migrate_Migrate drv h to)
  end.
  exists m. split.
  - destruct m; reflexivity.
  - intros ->. reflexivity.
Qed.

End MigratorProps.

(** C8, on the code: [Apply] compares the current version with
    [uint(schemaVersion)]. With the schema at version 3 and clean,
    [Apply(-1)] is not refused as behind the current version: the conversion
    gives 18446744073709551615, the method announces "-4 migrations to be
    applied", asks the library to migrate to that version, and returns what
    the library returns, here success. Both revisions do. *)
Theorem Apply_negative_version_not_refused :
  migrate_Version quiet [] = (3, false, None)
  /\ Migrator_Apply quiet background (-1) []
     = ([EvVersion 3 false None;
         EvInfof "%d migrations to be applied" [AInt (-4)];
         EvMigrate 18446744073709551615 None;
         EvInfof "Applied all migrations successfully" []],
        Done None)
  /\ Migrator_Apply_v0 quiet background (-1) []
     = Migrator_Apply quiet background (-1) []
  /\ Migrator_Apply quiet background 2 []
     = ([EvVersion 3 false None],
        Done (Some (Kit ErrMigratorGeneric
                      (Some ("desired schema version %d behind from current one %d",
                             [2; 3]))
                      None)))
  /\ Migrator_Apply quiet background 5 []
     = ([EvVersion 3 false None;
         EvInfof "%d migrations to be applied" [AInt 2];
         EvMigrate 5 None;
         EvInfof "Applied all migrations successfully" []],
        Done None).
Proof. repeat split; vm_compute; reflexivity. Qed.

(** ** Properties of connecting *)

Section RetryProps.

Variable fn : Z -> M (option error).
Variable retriables : list error.
Variable limitDelay : Z.

(** What a failed dial leaves: its call and the error of the attempt. *)
Variable dial_failed : Event -> error -> Prop.

(** Every attempt announces itself, dials once and fails. *)
Hypothesis attempt_fails :
  forall (a : Z) (w : World),
    exists l d e,
      fn a w = ([l; d], Done (Some e))
      /\ attempt_number l = Some a
      /\ attempt_number d = None
      /\ dial_failed d e.

(** The failures of the attempts are among the errors the policy retries. *)
Hypothesis failures_retriable :
  forall (d : Event) (e : error),
    dial_failed d e -> util.retriable retriables e = true.

Lemma attempt_numbers_app (a b : list Event) :
  attempt_numbers (a ++ b) = attempt_numbers a ++ attempt_numbers b.
Proof.
  induction a as [|e a IH]; [reflexivity|].
  cbn [app attempt_numbers]. destruct (attempt_number e);
    rewrite IH; reflexivity.
Qed.

Lemma numbered_succ (first : Z) (n : nat) :
  numbered first (S n) = first :: numbered (first + 1) n.
Proof.
  unfold numbered. cbn [seq map]. f_equal.
  - lia.
  - rewrite <- seq_shift, map_map. apply map_ext. intros i. lia.
Qed.

Lemma retry_loop_S (rest : nat) (attempt delay : Z) :
  util.retry_loop (S rest) attempt delay limitDelay retriables fn
  = bind (fn attempt)
      (fun r =>
         match r, rest with
         | None, _ => ret None
         | Some e, O => ret (Some e)
         | Some e, S _ =>
             if util.retriable retriables e then
               bind (call (fun _ => tt)
                       (fun _ => EvSleep (util.capped limitDelay delay)))
                 (fun _ =>
                    util.retry_loop rest (attempt + 1)
                      (util.backoff limitDelay delay) limitDelay retriables fn)
             else ret (Some e)
         end).
Proof. reflexivity. Qed.

(** With every attempt failing and every failure retriable, the loop makes
    all its attempts, numbered in order, sleeps between them, and returns the
    failure of the last one. *)
Lemma retry_loop_exhausts (rest : nat) :
  forall (attempt delay : Z) (w : World),
    exists evs d e,
      util.retry_loop (S rest) attempt delay limitDelay retriables fn w
      = (evs ++ [d], Done (Some e))
      /\ dial_failed d e
      /\ attempt_numbers (evs ++ [d]) = numbered attempt (S rest)
      /\ List.length (evs ++ [d]) = (3 * rest + 2)%nat.
Proof.
  induction rest as [|rest IH]; intros attempt delay w.
  - destruct (attempt_fails attempt w) as (l & d & e & Hfn & Hl & Hd & Hdial).
    exists [l], d, e. rewrite retry_loop_S, bind_eq, Hfn.
    unfold ret. cbn [fst snd app]. split; [reflexivity|].
    split; [exact Hdial|]. split; [|reflexivity].
    cbn [attempt_numbers]. rewrite Hl, Hd. unfold numbered. cbn.
    f_equal. lia.
  - destruct (attempt_fails attempt w) as (l & d & e & Hfn & Hl & Hd & Hdial).
    rewrite retry_loop_S, bind_eq, Hfn. cbv beta iota.
    rewrite (failures_retriable d e Hdial), bind_call. cbn [fst snd].
    destruct (IH (attempt + 1) (util.backoff limitDelay delay)
                ((w ++ [l; d]) ++ [EvSleep (util.capped limitDelay delay)]))
      as (evs' & d' & e' & Hloop & Hdial' & Hnum & Hlen).
    rewrite Hloop. cbn [fst snd].
    exists ([l; d] ++ EvSleep (util.capped limitDelay delay) :: evs'), d', e'.
    split.
    { rewrite <- app_assoc. reflexivity. }
    split; [exact Hdial'|]. split.
    + rewrite <- app_assoc. cbn [app attempt_numbers].
      rewrite Hl, Hd. cbn [attempt_number]. rewrite Hnum.
      symmetry. apply numbered_succ.
    + rewrite <- app_assoc. cbn [app List.length]. rewrite Hlen. lia.
Qed.

End RetryProps.

Section ConnectProps.

Context (drv : Driver).

Lemma NewDatabase_attempt_fails (config : DatabaseConfig) (_retry : RetryConfig) :
  foreign drv ->
  (forall w : World, pool_Connect drv w <> None) ->
  forall (a : Z) (w : World),
    exists l d e,
      NewDatabase_attempt drv config _retry a w = ([l; d], Done (Some e))
      /\ attempt_number l = Some a
      /\ attempt_number d = None
      /\ (exists raw, d = EvConnect (Some raw)
                      /\ e = Kit ErrDatabaseGeneric None (Some raw)
                      /\ Is ErrDeadlineExceeded e = false
                      /\ exists w', pool_Connect drv w' = Some raw).
Proof.
  intros Hforeign Hdown a w. unfold NewDatabase_attempt, Infof.
  rewrite !bind_call. cbn [fst snd].
  match goal with
  | |- context [pool_Connect drv ?h] =>
      pose proof (Hdown h) as Hfail;
      pose proof (Hforeign h) as (_ & _ & Hnt);
      pose proof (eq_refl (pool_Connect drv h)) as Hraw;
      destruct (pool_Connect drv h) as [raw|] in Hfail, Hnt, Hraw at 2 |- *;
        [|contradiction]
  end.
  eexists _, _, _. split; [reflexivity|]. split; [reflexivity|].
  split; [reflexivity|]. exists raw. split; [reflexivity|].
  split; [reflexivity|]. split; [now apply foreign_not_timeout|].
  eexists. exact Hraw.
Qed.

Lemma NewCache_attempt_fails (_retry : RetryConfig) :
  foreign drv ->
  (forall w : World, snd (pool_Ping drv w) <> None) ->
  forall (a : Z) (w : World),
    exists l d e,
      NewCache_attempt drv _retry a w = ([l; d], Done (Some e))
      /\ attempt_number l = Some a
      /\ attempt_number d = None
      /\ (exists raw, d = EvPing "" (Some raw)
                      /\ e = Kit ErrCacheGeneric None (Some raw)
                      /\ Is ErrDeadlineExceeded e = false
                      /\ exists w', snd (pool_Ping drv w') = Some raw).
Proof.
  intros Hforeign Hdown a w. unfold NewCache_attempt, Infof.
  rewrite !bind_call. cbn [fst snd].
  match goal with
  | |- context [pool_Ping drv ?h] =>
      pose proof (Hdown h) as Hfail;
      pose proof (Hforeign h) as (_ & Hnt & _);
      pose proof (eq_refl (snd (pool_Ping drv h))) as Hraw;
      destruct (snd (pool_Ping drv h)) as [raw|] in Hfail, Hnt, Hraw at 2 |- *;
        [|contradiction]
  end.
  eexists _, _, _. split; [reflexivity|]. split; [reflexivity|].
  split; [reflexivity|]. exists raw. split; [reflexivity|].
  split; [reflexivity|]. split; [now apply foreign_not_timeout|].
  eexists. exact Hraw.
Qed.

(** C9, as amended: with [Attempts] = N at least 1, a list of retriable
    errors that lets every failure of an attempt be retried, that is every
    error of the dial wrapped in the Generic error of the client (the empty
    list does, and so does a list that names the Generic error or the errors
    of the dial), a connection string the driver can parse, and a server
    that refuses every dial, [NewDatabase] and [NewCache] make exactly N
    attempts, numbered 1 to N, and return a Generic error that wraps the
    failure of the last attempt, as long as the deadline of the context
    leaves room for the 3 N - 1 calls of these attempts; when it does not,
    they return a TimedOut error. The errors of the driver are foreign to
    kit. *)
Theorem Connect_exhausts_attempts (ctx : Ctx) (config : DatabaseConfig)
    (cconfig : CacheConfig) (retry : RetryConfig) (w : World) :
  1 <= Attempts retry ->
  (forall (w' : World) (raw : error),
     pool_Connect drv w' = Some raw ->
     util.retriable (Retriables retry) (WrapAs ErrDatabaseGeneric (Some raw))
     = true) ->
  (forall (w' : World) (raw : error),
     snd (pool_Ping drv w') = Some raw ->
     util.retriable (Retriables retry) (WrapAs ErrCacheGeneric (Some raw))
     = true) ->
  foreign drv ->
  (forall dsn : string, pgxpool_ParseConfig drv dsn = None) ->
  (forall w' : World, pool_Connect drv w' <> None) ->
  (forall w' : World, snd (pool_Ping drv w') <> None) ->
  let n := Z.to_nat (Attempts retry) in
  let rd := NewDatabase drv ctx config [retry] w in
  let rc := NewCache drv ctx cconfig [retry] w in
  (deadline_allows ctx (3 * n - 1) ->
   attempts_made (events rd) (Attempts retry)
   /\ (exists evs raw,
         events rd = evs ++ [EvConnect (Some raw)]
         /\ outcome rd
            = Done (None,
                    Some (Kit ErrDatabaseGeneric None
                            (Some (Kit ErrDatabaseGeneric None (Some raw))))))
   /\ attempts_made (events rc) (Attempts retry)
   /\ (exists evs raw,
         events rc = evs ++ [EvPing "" (Some raw)]
         /\ outcome rc
            = Done (None,
                    Some (Kit ErrCacheGeneric None
                            (Some (Kit ErrCacheGeneric None (Some raw)))))))
  /\ (forall k : nat, ctx_deadline ctx = Some k -> (k < 3 * n - 1)%nat ->
        outcome rd = Done (None, Some (New ErrDatabaseTimedOut))
        /\ outcome rc = Done (None, Some (New ErrCacheTimedOut))).
Proof.
  intros Hattempts Hdretry Hcretry Hforeign Hparse Hdial Hping n rd rc.
  destruct n as [|rest] eqn:Hn; [subst n; lia|].
  set (mconfig := Database_Merge config (_DATABASE_DEFAULT_CONFIG drv)).
  destruct (retry_loop_exhausts
              (NewDatabase_attempt drv mconfig retry) (Retriables retry)
              (LimitDelay retry) _
              (NewDatabase_attempt_fails mconfig retry Hforeign Hdial)
              (fun d e Hde =>
                 match Hde with
                 | ex_intro _ raw (conj _ (conj He (conj _ (ex_intro _ w' Hw')))) =>
                     eq_ind_r (fun x => util.retriable (Retriables retry) x = true)
                       (Hdretry w' raw Hw') He
                 end)
              rest 1 (InitialDelay retry) w)
    as (devs & dd & de & Hdloop & (draw & -> & -> & Hdnt & _) & Hdnum & Hdlen).
  destruct (retry_loop_exhausts
              (NewCache_attempt drv retry) (Retriables retry)
              (LimitDelay retry) _
              (NewCache_attempt_fails retry Hforeign Hping)
              (fun d e Hde =>
                 match Hde with
                 | ex_intro _ raw (conj _ (conj He (conj _ (ex_intro _ w' Hw')))) =>
                     eq_ind_r (fun x => util.retriable (Retriables retry) x = true)
                       (Hcretry w' raw Hw') He
                 end)
              rest 1 (InitialDelay retry) w)
    as (cevs & cd & ce & Hcloop & (craw & -> & -> & Hcnt & _) & Hcnum & Hclen).
  assert (Hd : rd = bind
                (util.Deadline ctx
                   (util.retry_loop (S rest) 1 (InitialDelay retry)
                      (LimitDelay retry) (Retriables retry)
                      (NewDatabase_attempt drv mconfig retry)))
                (fun err =>
                   match err with
                   | None =>
                       bind (Infof "Connected to the %s database"
                               [AStr (DatabaseName mconfig)])
                         (fun _ =>
                            bind now
                              (fun pool =>
                                 ret (Some {| Database_config := mconfig;
                                              Database_pool := pool |}, None)))
                   | Some e =>
                       if Is ErrDeadlineExceeded e
                       then ret (None, Some (New ErrDatabaseTimedOut))
                       else ret (None, Some (Wrap ErrDatabaseGeneric err))
                   end) w).
  { subst rd. unfold NewDatabase. cbn [util.Optional]. rewrite Hparse.
    unfold util.ExponentialRetry. fold n. rewrite Hn. reflexivity. }
  assert (Hc : rc = bind
                (util.Deadline ctx
                   (util.retry_loop (S rest) 1 (InitialDelay retry)
                      (LimitDelay retry) (Retriables retry)
                      (NewCache_attempt drv retry)))
                (fun err =>
                   match err with
                   | None =>
                       bind (Infof "Connected to the cache" [])
                         (fun _ =>
                            bind now
                              (fun pool =>
                                 ret (Some {| Cache_config :=
                                                Cache_Merge cconfig
                                                  (_CACHE_DEFAULT_CONFIG drv);
                                              Cache_pool := pool |}, None)))
                   | Some e =>
                       if Is ErrDeadlineExceeded e
                       then ret (None, Some (New ErrCacheTimedOut))
                       else ret (None, Some (Wrap ErrCacheGeneric err))
                   end) w).
  { subst rc. unfold NewCache. cbn [util.Optional].
    unfold util.ExponentialRetry. fold n. rewrite Hn. reflexivity. }
  split.
  - intros Hallow.
    assert (Hdin : util.Deadline ctx
                     (util.retry_loop (S rest) 1 (InitialDelay retry)
                        (LimitDelay retry) (Retriables retry)
                        (NewDatabase_attempt drv mconfig retry)) w
                   = (devs ++ [EvConnect (Some draw)],
                      Done (Some (Kit ErrDatabaseGeneric None (Some draw))))).
    { rewrite <- Hdloop. apply (Deadline_in_time ctx _ w _ Hallow).
      rewrite Hdloop. cbn [events fst]. rewrite Hdlen. lia. }
    assert (Hcin : util.Deadline ctx
                     (util.retry_loop (S rest) 1 (InitialDelay retry)
                        (LimitDelay retry) (Retriables retry)
                        (NewCache_attempt drv retry)) w
                   = (cevs ++ [EvPing "" (Some craw)],
                      Done (Some (Kit ErrCacheGeneric None (Some craw))))).
    { rewrite <- Hcloop. apply (Deadline_in_time ctx _ w _ Hallow).
      rewrite Hcloop. cbn [events fst]. rewrite Hclen. lia. }
    rewrite Hd, Hc, !bind_eq, Hdin, Hcin, Hdnt, Hcnt.
    unfold ret, attempts_made. cbn [events outcome fst snd].
    rewrite !app_nil_r. fold n. rewrite Hn.
    split; [exact Hdnum|]. split; [now exists devs, draw|].
    split; [exact Hcnum|]. now exists cevs, craw.
  - intros k Hk Hshort.
    rewrite Hd, Hc, !bind_eq.
    rewrite (Deadline_expired ctx _ w k Hk)
      by (rewrite Hdloop; cbn [events fst]; rewrite Hdlen; lia).
    rewrite (Deadline_expired ctx _ w k Hk)
      by (rewrite Hcloop; cbn [events fst]; rewrite Hclen; lia).
    split; reflexivity.
Qed.

End ConnectProps.

Lemma unreachable_foreign (e : error) :
  Is ErrDeadlineExceeded e = false -> foreign (unreachable e).
Proof. intros He w. repeat split; exact He. Qed.

Lemma Connect_exhausts_attempts_witness :
  1 <= Attempts (three_attempts [connection_refused])
  /\ util.retriable [connection_refused]
       (WrapAs ErrDatabaseGeneric (Some connection_refused)) = true
  /\ util.retriable [connection_refused]
       (WrapAs ErrCacheGeneric (Some connection_refused)) = true
  /\ deadline_allows background (3 * 3 - 1)
  /\ attempts_made
       (events (NewDatabase (unreachable connection_refused) background
                  example_config [three_attempts [connection_refused]] []))
       3
  /\ attempt_numbers
       (events (NewDatabase (unreachable connection_refused) background
                  example_config [three_attempts [connection_refused]] []))
     = [1; 2; 3].
Proof.
  split; [cbn; lia|]. split; [reflexivity|]. split; [reflexivity|].
  split; [exact I|].
  split; [|vm_compute; reflexivity].
  refine (proj1 (proj1
            (Connect_exhausts_attempts (unreachable connection_refused)
               background example_config example_cache_config
               (three_attempts [connection_refused]) [] _ _ _ _ _ _ _) I)).
  - cbn. lia.
  - intros w' raw Hraw. injection Hraw as <-. reflexivity.
  - intros w' raw Hraw. injection Hraw as <-. reflexivity.
  - apply unreachable_foreign. reflexivity.
  - intros dsn. reflexivity.
  - intros w'. discriminate.
  - intros w'. discriminate.
Defined.

(** The claim C9 as it is stated fails for a configuration that lists
    retriable errors: with three attempts allowed and only "connection
    refused" retriable, a dial that always fails on authentication is tried
    once. *)
Lemma Connect_stops_on_not_retriable :
  ~ attempts_made
      (events (NewDatabase (unreachable authentication_failed) background
                 example_config [three_attempts [connection_refused]] []))
      3.
Proof.
  unfold attempts_made. vm_compute. discriminate.
Qed.

(** ** Statements *)

Section StatementProps.

Context `{KitText} (drv : Driver) (self : Database).

Lemma _dbErrToError_classified (cause : error) :
  classified_from cause (_dbErrToError (Some cause)).
Proof.
  unfold classified_from. rewrite _dbErrToError_cases.
  destruct (carries_integrity_code (Error cause));
    [|destruct (String.eqb (Error cause) (Error pgx_ErrNoRows))];
    eexists; (split; [reflexivity|]); simpl; auto.
Qed.

(** X1: [Database.Exec] sends exactly one statement, to the transaction of
    the context or to the pool. It returns the count of the driver and no
    error when the statement succeeds and the context is then found alive;
    otherwise it returns the count 0, also when the statement went through
    and only the context was found cancelled after it, with the failure
    classified as a database error around its cause. *)
Theorem Exec_reports (ctx : Ctx) (sql : string) (w : World) :
  let answer := conn_Exec drv w sql in
  let sent := EvExec (ctx_tx ctx) sql (fst answer) (snd answer) in
  let cancelled := ctx_Err drv (w ++ [sent]) in
  let r := Database_Exec drv self ctx sql w in
  List.filter is_statement (events r) = [sent]
  /\ (snd answer = None -> cancelled = None ->
      outcome r = Done (GoInt.int (fst answer), None))
  /\ (forall cause : error,
        snd answer = Some cause
        \/ (snd answer = None /\ cancelled = Some cause) ->
        exists err, outcome r = Done (0, err) /\ classified_from cause err).
Proof.
  intros answer sent cancelled r. subst r.
  unfold Database_Exec, ctx_Err_call. rewrite bind_call.
  fold answer. fold sent. cbn [fst snd events outcome].
  destruct (snd answer) as [e|] eqn:Hanswer.
  - unfold ret. cbn [fst snd]. split; [reflexivity|].
    split; [discriminate|].
    intros cause [Hc|[Hc _]]; [|discriminate].
    injection Hc as <-. eexists. split; [reflexivity|].
    apply _dbErrToError_classified.
  - rewrite bind_call. fold cancelled. cbn [fst snd].
    destruct cancelled as [c|] eqn:Hcancelled.
    + unfold ret. cbn [fst snd]. split; [reflexivity|].
      split; [discriminate|].
      intros cause [Hc|[_ Hc]]; [discriminate|].
      injection Hc as <-. eexists. split; [reflexivity|].
      apply _dbErrToError_classified.
    + unfold ret. cbn [fst snd]. split; [reflexivity|].
      split; [reflexivity|].
      intros cause [Hc|[_ Hc]]; discriminate.
Qed.

(** X2: [Database.Query] sends exactly one statement and scans the rows at
    most once, and only after the statement succeeded and the context was
    found alive. It returns nil exactly on that path when the scan succeeds;
    a failure of the statement, of the context or of the scan is returned
    classified as a database error around its cause. *)
Theorem Query_reports (ctx : Ctx) (sql : string) (w : World) :
  let answer := conn_Query drv w sql in
  let sent := EvQuery (ctx_tx ctx) sql answer in
  let cancelled := ctx_Err drv (w ++ [sent]) in
  let scanned := rows_Scan drv (w ++ [sent; EvCtxErr None]) in
  let r := Database_Query drv self ctx sql w in
  List.filter is_statement (events r) = [sent]
  /\ (answer = None -> cancelled = None ->
      List.filter is_scan (events r) = [EvScan scanned]
      /\ (scanned = None -> outcome r = Done None)
      /\ (forall cause, scanned = Some cause ->
            exists err, outcome r = Done err /\ classified_from cause err))
  /\ (forall cause : error,
        answer = Some cause \/ (answer = None /\ cancelled = Some cause) ->
        List.filter is_scan (events r) = []
        /\ exists err, outcome r = Done err /\ classified_from cause err).
Proof.
  intros answer sent cancelled scanned r. subst r.
  unfold Database_Query, ctx_Err_call. rewrite bind_call.
  fold answer. fold sent. cbn [fst snd events outcome].
  destruct answer as [e|] eqn:Hanswer.
  - unfold ret. cbn [fst snd]. split; [reflexivity|].
    split; [discriminate|].
    intros cause [Hc|[Hc _]]; [|discriminate].
    injection Hc as <-. split; [reflexivity|].
    eexists. split; [reflexivity|]. apply _dbErrToError_classified.
  - rewrite bind_call. fold cancelled. cbn [fst snd].
    destruct cancelled as [c|] eqn:Hcancelled.
    + unfold ret. cbn [fst snd]. split; [reflexivity|].
      split; [discriminate|].
      intros cause [Hc|[_ Hc]]; [discriminate|].
      injection Hc as <-. split; [reflexivity|].
      eexists. split; [reflexivity|]. apply _dbErrToError_classified.
    + rewrite bind_call. rewrite <- app_assoc. cbn [app]. fold scanned.
      cbn [fst snd].
      destruct scanned as [s|] eqn:Hscanned; unfold ret; cbn [fst snd].
      * split; [reflexivity|]. split.
        { intros _ _. split; [reflexivity|]. split; [discriminate|].
          intros cause Hc. injection Hc as <-.
          eexists. split; [reflexivity|]. apply _dbErrToError_classified. }
        intros cause [Hc|[_ Hc]]; discriminate.
      * split; [reflexivity|]. split.
        { intros _ _. split; [reflexivity|]. split; [reflexivity|].
          intros cause Hc. discriminate. }
        intros cause [Hc|[_ Hc]]; discriminate.
Qed.

Lemma Forall_sent_to_app (tx : option nat) (a b : list Event) :
  Forall (sent_to tx) a -> Forall (sent_to tx) b -> Forall (sent_to tx) (a ++ b).
Proof. intros Ha Hb. apply Forall_app. now split. Qed.

Lemma Exec_sent_to (ctx : Ctx) (sql : string) (w : World) :
  Forall (sent_to (ctx_tx ctx)) (events (Database_Exec drv self ctx sql w)).
Proof.
  unfold Database_Exec, ctx_Err_call. rewrite bind_call. cbn [fst snd events].
  destruct (snd (conn_Exec drv w sql)).
  - repeat constructor.
  - rewrite bind_call. cbn [fst snd].
    destruct (ctx_Err drv _); repeat constructor.
Qed.

Lemma Query_sent_to (ctx : Ctx) (sql : string) (w : World) :
  Forall (sent_to (ctx_tx ctx)) (events (Database_Query drv self ctx sql w)).
Proof.
  unfold Database_Query, ctx_Err_call. rewrite bind_call. cbn [fst snd events].
  destruct (conn_Query drv w sql).
  - repeat constructor.
  - rewrite bind_call. cbn [fst snd].
    destruct (ctx_Err drv _); [repeat constructor|].
    rewrite bind_call. cbn [fst snd].
    destruct (rows_Scan drv _); repeat constructor.
Qed.

(** On a context that carries a transaction, every statement of a body goes
    to that transaction, whatever the depth of the nested calls. *)
Lemma run_sent_to (b : Body) :
  forall (ctx : Ctx) (w : World),
    ctx_tx ctx <> None ->
    Forall (sent_to (ctx_tx ctx)) (events (run drv self b ctx w)).
Proof.
  induction b as [err|v|sql k IH|sql k IH|level fn IHfn k IH];
    intros ctx w Hctx; cbn [run].
  - constructor.
  - constructor.
  - rewrite bind_eq. pose proof (Exec_sent_to ctx sql w) as He.
    destruct (Database_Exec drv self ctx sql w) as [evs [r|v]];
      cbn [events fst] in *; [|exact He].
    apply Forall_sent_to_app; [exact He|]. now apply IH.
  - rewrite bind_eq. pose proof (Query_sent_to ctx sql w) as He.
    destruct (Database_Query drv self ctx sql w) as [evs [r|v]];
      cbn [events fst] in *; [|exact He].
    apply Forall_sent_to_app; [exact He|]. now apply IH.
  - rewrite bind_eq, Transaction_reentered by exact Hctx.
    pose proof (IHfn ctx w Hctx) as He.
    destruct (run drv self fn ctx w) as [evs [[e|]|v]];
      cbn [events outcome reentered fst snd] in *; try exact He;
      (apply Forall_sent_to_app; [exact He|]; now apply IH).
Qed.

(** X3: inside [Database.Transaction] every statement of the body, at any
    depth of nested calls, is sent to the transaction begun by the outermost
    call; none goes to the pool. *)
Theorem Transaction_statements_on_handle (b : Body) (ctx : Ctx)
    (level : option IsolationLevel) (lvl : IsolationLevel) (w : World) :
  ctx_tx ctx = None ->
  effective_level self level = Some lvl ->
  Forall (sent_to (Some (List.length w)))
    (events (Database_Transaction drv self ctx level (run drv self b) w)).
Proof.
  intros Hctx Hlvl.
  destruct (pool_BeginTx drv w) as [e|] eqn:Hbegin.
  { destruct (Transaction_not_started drv self ctx level lvl
                (run drv self b) w Hctx Hlvl) as [Hfail _].
    rewrite (Hfail e Hbegin). repeat constructor. }
  destruct (ctx_Err drv
              (w ++ [EvBeginTx (map_index _KisoLevelToPisoLevel lvl)
                       pgx.ReadWrite None])) as [c|] eqn:Hlive.
  { destruct (Transaction_not_started drv self ctx level lvl
                (run drv self b) w Hctx Hlvl) as [_ Hcancel].
    rewrite (Hcancel c Hbegin Hlive). repeat constructor. }
  destruct (Transaction_outermost drv self ctx level lvl (run drv self b) w
              Hctx Hlvl Hbegin Hlive) as (tail & final & Heq & Hclose).
  rewrite Heq. cbn [events fst].
  apply Forall_sent_to_app; [repeat constructor|].
  apply Forall_sent_to_app.
  - apply (run_sent_to b (WithValue ctx (List.length w))). discriminate.
  - destruct Hclose; repeat constructor.
Qed.

(** X4: an error returned below nested calls comes out wrapped once by each
    call it crosses: below [n] nested calls inside the outermost one it is
    returned inside [n + 1] TransactionFailed errors, after a single
    rollback. *)
Theorem Transaction_nested_failure (levels : list (option IsolationLevel))
    (e : error) (ctx : Ctx) (level : option IsolationLevel)
    (lvl : IsolationLevel) (w : World) :
  ctx_tx ctx = None ->
  effective_level self level = Some lvl ->
  let iso := map_index _KisoLevelToPisoLevel lvl in
  let tx := List.length w in
  pool_BeginTx drv w = None ->
  ctx_Err drv (w ++ [EvBeginTx iso pgx.ReadWrite None]) = None ->
  let r := Database_Transaction drv self ctx level
             (run drv self (nested levels (Return (Some e)))) w in
  outcome r = Done (Some (failed_times (S (List.length levels)) e))
  /\ exists rolled,
       events r = [EvBeginTx iso pgx.ReadWrite None; EvCtxErr None;
                   EvRollback tx rolled].
Proof.
  intros Hctx Hlvl iso tx Hbegin Hlive r.
  assert (Hnested : forall (c : Ctx) (w' : World), ctx_tx c <> None ->
            run drv self (nested levels (Return (Some e))) c w'
            = ([], Done (Some (failed_times (List.length levels) e)))).
  { induction levels as [|l rest IH]; intros c w' Hc; [reflexivity|].
    cbn [nested run]. rewrite bind_eq, Transaction_reentered by exact Hc.
    rewrite IH by exact Hc. reflexivity. }
  destruct (Transaction_outermost drv self ctx level lvl
              (run drv self (nested levels (Return (Some e)))) w
              Hctx Hlvl Hbegin Hlive) as (tail & final & Heq & Hclose).
  fold iso tx in Heq, Hclose.
  rewrite Hnested in Heq, Hclose by discriminate.
  cbn [events outcome fst snd] in Heq, Hclose.
  subst r. rewrite Heq. cbn [events outcome fst snd].
  inversion Hclose; subst. split; [reflexivity|]. eexists. reflexivity.
Qed.

(** X5: once started, the outermost call returns nil only after a commit
    that succeeded, with the context found alive before and after it, and
    then it has made no rollback; on every other exit, an error returned or
    a panic, it has made exactly one rollback. *)
Theorem Transaction_success_is_commit (b : Body) (ctx : Ctx)
    (level : option IsolationLevel) (lvl : IsolationLevel) (w : World) :
  ctx_tx ctx = None ->
  effective_level self level = Some lvl ->
  let iso := map_index _KisoLevelToPisoLevel lvl in
  let tx := List.length w in
  pool_BeginTx drv w = None ->
  ctx_Err drv (w ++ [EvBeginTx iso pgx.ReadWrite None]) = None ->
  let r := Database_Transaction drv self ctx level (run drv self b) w in
  (outcome r = Done None ->
   rollbacks (events r) = O /\ commits (events r) = 1%nat
   /\ exists body,
        events r = body ++ [EvCtxErr None; EvCommit tx None; EvCtxErr None])
  /\ (outcome r <> Done None -> rollbacks (events r) = 1%nat).
Proof.
  intros Hctx Hlvl iso tx Hbegin Hlive r.
  destruct (Transaction_started drv self b ctx level lvl w Hctx Hlvl
              Hbegin Hlive) as (tail & Heq & Hfree & Hclose & _ & Hc & Hr).
  fold iso tx r in Heq, Hclose, Hc, Hr.
  rewrite Hc, Hr. split.
  - intros Hnil. rewrite Hnil in Hclose. inversion Hclose; subst.
    split; [reflexivity|]. split; [reflexivity|].
    eexists. rewrite Heq, !app_assoc. reflexivity.
  - intros Hnot. destruct Hclose; try reflexivity. now contradiction Hnot.
Qed.

(** The outermost call of the earlier revision when the transaction is not
    started. *)
Lemma Transaction_v0_not_started (ctx : Ctx) (fn : Ctx -> M (option error))
    (w : World) :
  ctx_tx ctx = None ->
  (forall e, pool_BeginTx drv w = Some e ->
     Database_Transaction_v0 drv self ctx fn w
     = ([EvBeginTx pgx.Serializable pgx.ReadWrite (Some e)],
        Done (Some (Wrap ErrDatabaseTransactionFailed (Some e)))))
  /\ (forall c, pool_BeginTx drv w = None ->
        ctx_Err drv (w ++ [EvBeginTx pgx.Serializable pgx.ReadWrite None])
        = Some c ->
        Database_Transaction_v0 drv self ctx fn w
        = ([EvBeginTx pgx.Serializable pgx.ReadWrite None; EvCtxErr (Some c)],
           Done (Some (Wrap ErrDatabaseTransactionFailed (Some c))))).
Proof.
  intros Hctx. split.
  - intros e Hbegin. unfold Database_Transaction_v0.
    rewrite Hctx, bind_now, bind_call, Hbegin. reflexivity.
  - intros c Hbegin Hcancel. unfold Database_Transaction_v0, ctx_Err_call.
    rewrite Hctx, bind_now, bind_call, Hbegin. cbn [fst snd].
    rewrite bind_call, Hcancel. reflexivity.
Qed.

(** X6: when the begin fails, or when the context is found cancelled right
    after it, [Database.Transaction] does not run its function: whatever the
    function is, nothing but the begin and the reading of the context is
    called, and the failure is returned inside a TransactionFailed error; in
    both revisions. *)
Theorem Transaction_not_started_skips_fn (ctx : Ctx)
    (level : option IsolationLevel) (lvl : IsolationLevel)
    (fn : Ctx -> M (option error)) (w : World) (cause : error) :
  ctx_tx ctx = None ->
  effective_level self level = Some lvl ->
  let iso := map_index _KisoLevelToPisoLevel lvl in
  (pool_BeginTx drv w = Some cause ->
   Database_Transaction drv self ctx level fn w
   = ([EvBeginTx iso pgx.ReadWrite (Some cause)],
      Done (Some (Kit ErrDatabaseTransactionFailed None (Some cause))))
   /\ Database_Transaction_v0 drv self ctx fn w
      = ([EvBeginTx pgx.Serializable pgx.ReadWrite (Some cause)],
         Done (Some (Kit ErrDatabaseTransactionFailed None (Some cause)))))
  /\ (pool_BeginTx drv w = None ->
      (ctx_Err drv (w ++ [EvBeginTx iso pgx.ReadWrite None]) = Some cause ->
       Database_Transaction drv self ctx level fn w
       = ([EvBeginTx iso pgx.ReadWrite None; EvCtxErr (Some cause)],
          Done (Some (Kit ErrDatabaseTransactionFailed None (Some cause)))))
      /\ (ctx_Err drv (w ++ [EvBeginTx pgx.Serializable pgx.ReadWrite None])
          = Some cause ->
          Database_Transaction_v0 drv self ctx fn w
          = ([EvBeginTx pgx.Serializable pgx.ReadWrite None;
              EvCtxErr (Some cause)],
             Done (Some (Kit ErrDatabaseTransactionFailed None (Some cause)))))).
Proof.
  intros Hctx Hlvl iso.
  destruct (Transaction_not_started drv self ctx level lvl fn w Hctx Hlvl)
    as [Hfail Hcancel].
  destruct (Transaction_v0_not_started ctx fn w Hctx) as [Hfail0 Hcancel0].
  split.
  - intros Hbegin. split; [now apply Hfail|now apply Hfail0].
  - intros Hbegin. split; intros Hc; [now apply Hcancel|now apply Hcancel0].
Qed.

(** X7: the exits of the outermost call of the earlier revision, once the
    transaction is started at the serializable level, for a function that
    returns or panics with a value of its own: a failure of the function, of
    the commit or of the context is returned combined with the error of the
    rollback that follows it; a panic with an error is raised again combined
    with the error of the rollback; a panic with any other value ends, after
    the rollback, in the panic of the failed type assertion. *)
Theorem Transaction_v0_exits (ctx : Ctx) (fn : Ctx -> M (option error))
    (w : World) :
  ctx_tx ctx = None ->
  let tx := List.length w in
  let started := [EvBeginTx pgx.Serializable pgx.ReadWrite None;
                  EvCtxErr None] in
  pool_BeginTx drv w = None ->
  ctx_Err drv (w ++ [EvBeginTx pgx.Serializable pgx.ReadWrite None]) = None ->
  let rb := fn (WithValue ctx tx) (w ++ started) in
  raised_by_user (outcome rb) ->
  exists tail final,
    Database_Transaction_v0 drv self ctx fn w
    = (started ++ events rb ++ tail, final)
    /\ closing_v0 tx (outcome rb) tail final.
Proof.
  intros Hctx tx started Hbegin Hlive rb Huser.
  unfold Database_Transaction_v0, ctx_Err_call, Rollback_call, Commit_call.
  rewrite Hctx, bind_now, bind_call, Hbegin. cbn [fst snd].
  rewrite bind_call, Hlive. cbn [fst snd]. rewrite <- app_assoc. cbn [app].
  unfold defer_recover. rewrite bind_eq. fold tx. fold started. fold rb.
  clear Hbegin Hlive.
  destruct rb as [evs [[e|]|v]]; cbn [fst snd events outcome] in *.
  - rewrite !bind_call. unfold ret. cbn [fst snd].
    eexists _, _. split; [reflexivity|]. constructor.
  - rewrite bind_call. cbn [fst snd].
    destruct (ctx_Err drv _) as [c|].
    { rewrite bind_call. unfold ret. cbn [fst snd].
      eexists _, _. split; [reflexivity|]. constructor. }
    rewrite bind_call. cbn [fst snd].
    destruct (tx_Commit drv _) as [e|].
    { rewrite bind_call. unfold ret. cbn [fst snd].
      eexists _, _. split; [reflexivity|]. constructor. }
    rewrite bind_call. cbn [fst snd].
    destruct (ctx_Err drv _) as [c|].
    { rewrite bind_call. unfold ret. cbn [fst snd].
      eexists _, _. split; [reflexivity|]. constructor. }
    unfold ret. cbn [fst snd].
    eexists _, _. split; [reflexivity|]. constructor.
  - rewrite bind_call. cbn [fst snd].
    destruct v as [e|v| |]; try contradiction; unfold panic; cbn [fst snd];
      eexists _, _; (split; [reflexivity|]); constructor.
Qed.

End StatementProps.

(** ** The SQLSTATE code read from an error text *)

Section RegexpProps.

Context `{KitText}.

Lemma before_last_close_none (t : string) :
  no_close t = true -> Regexp.before_last_close t = None.
Proof.
  induction t as [|c t IH]; [reflexivity|].
  cbn [no_close Regexp.before_last_close]. intros Ht.
  apply andb_true_iff in Ht as [Hc Ht]. apply negb_true_iff in Hc.
  rewrite (IH Ht), Hc. reflexivity.
Qed.

Lemma before_last_close_app (a t : string) :
  no_close t = true ->
  Regexp.before_last_close (a ++ String Regexp.close_paren t)%string = Some a.
Proof.
  intros Ht. induction a as [|c a IH].
  - change (Regexp.before_last_close (String Regexp.close_paren t) = Some EmptyString).
    cbn [Regexp.before_last_close]. rewrite (before_last_close_none t Ht).
    rewrite Ascii.eqb_refl. reflexivity.
  - change (Regexp.before_last_close
              (String c (a ++ String Regexp.close_paren t)%string)
            = Some (String c a)).
    cbn [Regexp.before_last_close]. rewrite IH. reflexivity.
Qed.

Lemma line_prefix_app (a t : string) :
  single_line a = true ->
  Regexp.line_prefix (a ++ t)%string = (a ++ Regexp.line_prefix t)%string.
Proof.
  induction a as [|c a IH]; [reflexivity|].
  cbn [single_line]. intros Ha.
  apply andb_true_iff in Ha as [Hc Ha]. apply negb_true_iff in Hc.
  change (Regexp.line_prefix (String c (a ++ t)%string)
          = String c (a ++ Regexp.line_prefix t)%string).
  cbn [Regexp.line_prefix]. rewrite Hc, (IH Ha). reflexivity.
Qed.

Lemma match_here_group (body tail : string) :
  single_line body = true ->
  no_close (Regexp.line_prefix tail) = true ->
  Regexp.match_here ("(SQLSTATE " ++ body ++ ")" ++ tail)%string = Some body.
Proof.
  intros Hbody Htail. unfold Regexp.match_here.
  change (Regexp.strip_prefix Regexp.sqlstate_prefix
            ("(SQLSTATE " ++ body ++ ")" ++ tail)%string)
    with (Some (body ++ String Regexp.close_paren tail)%string).
  cbv beta iota. rewrite (line_prefix_app body _ Hbody).
  change (Regexp.line_prefix (String Regexp.close_paren tail))
    with (String Regexp.close_paren (Regexp.line_prefix tail)).
  now apply before_last_close_app.
Qed.

Lemma FindStringSubmatch_here (s code : string) :
  Regexp.match_here s = Some code ->
  Regexp.FindStringSubmatch s
  = [(Regexp.sqlstate_prefix ++ code ++ ")")%string; code].
Proof.
  intros Hs. destruct s; cbn [Regexp.FindStringSubmatch]; rewrite Hs;
    reflexivity.
Qed.

Lemma FindStringSubmatch_no_marker (s : string) :
  no_marker s = true -> Regexp.FindStringSubmatch s = [].
Proof.
  induction s as [|c s IH]; [reflexivity|].
  cbn [no_marker]. intros Hs.
  apply andb_true_iff in Hs as [Hc Hs]. apply negb_true_iff in Hc.
  cbn [Regexp.FindStringSubmatch].
  rewrite (match_here_other c s Hc). now apply IH.
Qed.

(** X8: what the pattern of [_DATABASE_ERR_PGCODE] finds. In a text without
    an opening parenthesis followed by the letter S it finds nothing. In a
    text whose first such place begins the SQLSTATE suffix it finds the group
    that runs to the last closing parenthesis of that line: closing
    parentheses inside the group belong to it, and the lines that follow are
    not looked at. *)
Theorem FindStringSubmatch_group (pre body tail : string) :
  no_marker pre = true ->
  (Regexp.FindStringSubmatch pre = [])
  /\ (single_line body = true ->
      no_close (Regexp.line_prefix tail) = true ->
      Regexp.FindStringSubmatch
        (pre ++ "(SQLSTATE " ++ body ++ ")" ++ tail)%string
      = [("(SQLSTATE " ++ body ++ ")")%string; body]).
Proof.
  intros Hpre. split; [now apply FindStringSubmatch_no_marker|].
  intros Hbody Htail.
  rewrite FindStringSubmatch_skip; [|exact Hpre|reflexivity].
  apply FindStringSubmatch_here. now apply match_here_group.
Qed.

Lemma PgError_prefix_no_marker (severity message : string) :
  no_marker severity = true ->
  no_marker message = true ->
  no_marker (severity ++ ": " ++ message ++ " ")%string = true.
Proof.
  intros Hs Hm.
  change (severity ++ ": " ++ message ++ " ")%string
    with (severity ++ String ":" (String " " (message ++ " ")))%string.
  apply no_marker_join; [reflexivity|reflexivity|exact Hs|].
  cbn [no_marker]. apply andb_true_iff. split; [reflexivity|].
  now apply (no_marker_join message EmptyString " "%char).
Qed.

Lemma PgError_split (severity message code rest : string) :
  (PgError_text severity message code ++ rest)%string
  = ((severity ++ ": " ++ message ++ " ")
     ++ "(SQLSTATE " ++ code ++ ")" ++ rest)%string.
Proof.
  unfold PgError_text. rewrite !string_app_assoc. reflexivity.
Qed.

Lemma integrity_code_plain (code : string) :
  is_integrity_code code = true ->
  single_line code = true /\ no_close code = true.
Proof.
  unfold is_integrity_code, integrity_codes. cbn [existsb].
  rewrite !orb_true_iff.
  intros Hc.
  repeat (destruct Hc as [Hc|Hc];
          [apply String.eqb_eq in Hc; subst; split; reflexivity|]).
  discriminate.
Qed.

Lemma no_close_app_close (a b : string) :
  no_close (a ++ String Regexp.close_paren b)%string = false.
Proof.
  induction a as [|c a IH]; [reflexivity|].
  change (no_close (String c (a ++ String Regexp.close_paren b)%string) = false).
  cbn [no_close]. rewrite IH. apply andb_false_r.
Qed.

Lemma single_line_app (a b : string) :
  single_line a = true -> single_line b = true ->
  single_line (a ++ b)%string = true.
Proof.
  intros Ha Hb. induction a as [|c a IH]; [exact Hb|].
  cbn [single_line] in Ha. apply andb_true_iff in Ha as [Hc Ha].
  change (single_line (String c (a ++ b)%string) = true).
  cbn [single_line]. rewrite Hc, (IH Ha). reflexivity.
Qed.

Lemma is_integrity_code_In (code : string) :
  In code integrity_codes -> is_integrity_code code = true.
Proof.
  intros Hc. unfold is_integrity_code. apply existsb_exists.
  exists code. split; [exact Hc|apply String.eqb_refl].
Qed.

(** X9: [_dbErrToError] on the text of a PostgreSQL error that carries one
    of the integrity codes. Whatever follows the suffix on the next lines, or
    on the same line without a closing parenthesis, the error is classified
    IntegrityViolation. When the same line goes on to a further closing
    parenthesis the code is no longer recognised and the error is not
    classified IntegrityViolation. *)
Theorem code_read_to_last_parenthesis (e : error)
    (severity message code tail : string) :
  no_marker severity = true ->
  no_marker message = true ->
  In code integrity_codes ->
  no_close (Regexp.line_prefix tail) = true ->
  (Error e = (PgError_text severity message code ++ tail)%string ->
   _dbErrToError (Some e)
   = Some (Kit ErrDatabaseIntegrityViolation None (Some e)))
  /\ (forall more : string,
        single_line more = true ->
        Error e = (PgError_text severity message code
                   ++ more ++ ")" ++ tail)%string ->
        exists k,
          _dbErrToError (Some e) = Some (Kit k None (Some e))
          /\ k <> ErrDatabaseIntegrityViolation).
Proof.
  intros Hs Hm Hcode Htail.
  pose proof (is_integrity_code_In code Hcode) as Hic.
  destruct (integrity_code_plain code Hic) as [Hline Hplain].
  pose proof (PgError_prefix_no_marker severity message Hs Hm) as Hpre.
  split.
  - intros Ht. rewrite _dbErrToError_cases. unfold carries_integrity_code.
    rewrite Ht, PgError_split.
    rewrite (proj2 (FindStringSubmatch_group _ code tail Hpre) Hline Htail).
    rewrite Hic. reflexivity.
  - intros more Hmore Ht. rewrite _dbErrToError_cases.
    unfold carries_integrity_code.
    assert (Hgroup : Regexp.FindStringSubmatch (Error e)
                     = [("(SQLSTATE " ++ (code ++ ")" ++ more) ++ ")")%string;
                        (code ++ ")" ++ more)%string]).
    { rewrite Ht, PgError_split.
      replace (code ++ ")" ++ more ++ ")" ++ tail)%string
        with ((code ++ ")" ++ more) ++ ")" ++ tail)%string.
      2:{ rewrite (string_app_assoc code).
          change ((")" ++ more) ++ ")" ++ tail)%string
            with (String ")" (more ++ ")" ++ tail))%string.
          reflexivity. }
      apply (proj2 (FindStringSubmatch_group _ _ tail Hpre)); [|exact Htail].
      apply single_line_app; [exact Hline|].
      change (")" ++ more)%string with (String ")" more).
      cbn [single_line]. rewrite Hmore. reflexivity. }
    rewrite Hgroup.
    destruct (is_integrity_code (code ++ ")" ++ more)) eqn:Hbad.
    { apply integrity_code_plain in Hbad as [_ Hbad].
      change (code ++ ")" ++ more)%string
        with (code ++ String Regexp.close_paren more)%string in Hbad.
      rewrite no_close_app_close in Hbad. discriminate. }
    destruct (String.eqb (Error e) (Error pgx_ErrNoRows));
      eexists; (split; [reflexivity|discriminate]).
Qed.

End RegexpProps.

(** ** The classifiers and the first SQLSTATE suffix of a text *)

Section ClassifierMapping.

Context `{KitText}.


Lemma string_length_app (a b : string) :
  String.length (a ++ b)%string = (String.length a + String.length b)%nat.
Proof.
  induction a as [|c a IH]; [reflexivity|].
  change (S (String.length (a ++ b)%string)
          = S (String.length a + String.length b)). now f_equal.
Qed.


















End ClassifierMapping.



(** ** More of the migrator *)

Section MigratorMore.

Context (drv : Driver).

Lemma filter_firstn_nil {A} (p : A -> bool) (l : list A) (k : nat) :
  List.filter p l = [] -> List.filter p (firstn k l) = [].
Proof.
  revert k. induction l as [|a l IH]; intros k Hl.
  - now rewrite firstn_nil.
  - destruct k as [|k]; [reflexivity|].
    cbn [List.filter firstn] in *. destruct (p a); [discriminate|].
    now apply IH.
Qed.

Lemma Deadline_cases (ctx : Ctx) (fn : M (option error)) (w : World) :
  util.Deadline ctx fn w = fn w
  \/ exists k,
       util.Deadline ctx fn w
       = (firstn k (events (fn w)), Done (Some (New ErrDeadlineExceeded))).
Proof.
  unfold util.Deadline. destruct (ctx_deadline ctx) as [k|]; [|now left].
  destruct (Nat.leb (List.length (events (fn w))) k); [now left|].
  right. now exists k.
Qed.

Lemma uint_int (x : Z) : 0 <= x < 2 ^ 64 -> GoInt.uint (GoInt.int x) = x.
Proof.
  intros Hx. unfold GoInt.uint, GoInt.int, GoInt.wrap_unsigned,
    GoInt.wrap_signed.
  change (64 - 1) with 63.
  rewrite Zminus_mod_idemp_l.
  replace (x + 2 ^ 63 - 2 ^ 63) with x by lia.
  now apply Z.mod_small.
Qed.

Lemma Assert_steps_cases (schemaVersion : Z) (w : World) :
  let v := migrate_Version drv w in
  let r := Migrator_Assert_steps drv schemaVersion w in
  (asserted drv schemaVersion w
   /\ r = ([EvVersion (fst (fst v)) (snd (fst v)) (snd v);
            EvInfof "Desired schema version %d asserted" [AInt schemaVersion]],
           Done None))
  \/ (~ asserted drv schemaVersion w
      /\ exists x c,
           r = ([EvVersion (fst (fst v)) (snd (fst v)) (snd v)],
                Done (Some (Kit ErrMigratorGeneric x c)))).
Proof.
  intros v r. subst v r.
  unfold asserted, accepted_as_read, Migrator_Assert_steps, Infof.
  rewrite bind_call.
  destruct (migrate_Version drv w) as [[current bad] err].
  cbn [fst snd].
  destruct err as [e|]; [destruct (same_error e migrate.ErrNilVersion)|];
    cbn [negb].
  2:{ right. split; [intros [Hr _]; discriminate|].
      eexists _, _. reflexivity. }
  all: destruct bad;
    [right; split; [intros (_ & Hb & _); discriminate|];
     eexists _, _; reflexivity|].
  all: destruct (Z.gtb_spec current (GoInt.uint schemaVersion));
    [right; split; [intros (_ & _ & Hc); lia|];
     eexists _, _; reflexivity|].
  all: destruct (Z.ltb_spec current (GoInt.uint schemaVersion));
    [right; split; [intros (_ & _ & Hc); lia|];
     eexists _, _; reflexivity|].
  all: left; split; [repeat split; lia|reflexivity].
Qed.

Lemma Assert_outcomes (ctx : Ctx) (schemaVersion : Z) (w : World) :
  let r := Migrator_Assert drv ctx schemaVersion w in
  let r0 := Migrator_Assert_v0 drv ctx schemaVersion w in
  List.filter is_migrate (events r) = []
  /\ List.filter is_migrate (events r0) = []
  /\ (outcome r = Done None -> asserted drv schemaVersion w)
  /\ (outcome r0 = Done None -> asserted drv schemaVersion w)
  /\ (deadline_allows ctx 2 -> asserted drv schemaVersion w ->
      outcome r = Done None /\ outcome r0 = Done None).
Proof.
  intros r r0. subst r r0. unfold Migrator_Assert, Migrator_Assert_v0.
  rewrite !bind_eq.
  destruct (Assert_steps_cases schemaVersion w) as [[Hyes Hr]|[Hno (x & c & Hr)]].
  - assert (Hin : deadline_allows ctx 2 ->
                  util.Deadline ctx (Migrator_Assert_steps drv schemaVersion) w
                  = Migrator_Assert_steps drv schemaVersion w).
    { intros Hallow. apply (Deadline_in_time ctx _ w 2 Hallow).
      rewrite Hr. cbn. lia. }
    destruct (Deadline_cases ctx (Migrator_Assert_steps drv schemaVersion) w)
      as [Heq|[k Heq]]; rewrite Heq, ?Hr.
    + unfold ret. cbn [events outcome fst snd app List.filter is_migrate].
      split; [reflexivity|]. split; [reflexivity|].
      split; [intros _; exact Hyes|]. split; [intros _; exact Hyes|].
      intros _ _. split; reflexivity.
    + replace (Is ErrDeadlineExceeded (New ErrDeadlineExceeded)) with true
        by reflexivity.
      unfold ret. cbn [events outcome fst snd]. rewrite app_nil_r.
      assert (Hnone : List.filter is_migrate
                        (firstn k
                           [EvVersion (fst (fst (migrate_Version drv w)))
                              (snd (fst (migrate_Version drv w)))
                              (snd (migrate_Version drv w));
                            EvInfof "Desired schema version %d asserted"
                              [AInt schemaVersion]]) = []).
      { now apply filter_firstn_nil. }
      split; [exact Hnone|]. split; [exact Hnone|].
      split; [discriminate|]. split; [discriminate|].
      intros Hallow _. rewrite (Hin Hallow), Hr in Heq. discriminate.
  - destruct (Deadline_cases ctx (Migrator_Assert_steps drv schemaVersion) w)
      as [Heq|[k Heq]]; rewrite Heq, ?Hr.
    + destruct (Is ErrDeadlineExceeded (Kit ErrMigratorGeneric x c));
        unfold ret; cbn [events outcome fst snd app List.filter is_migrate];
        (split; [reflexivity|]); (split; [reflexivity|]);
        (split; [discriminate|]); (split; [discriminate|]);
        intros _ Hyes; contradiction.
    + replace (Is ErrDeadlineExceeded (New ErrDeadlineExceeded)) with true
        by reflexivity.
      unfold ret. cbn [events outcome fst snd]. rewrite app_nil_r.
      assert (Hnone : List.filter is_migrate
                        (firstn k
                           [EvVersion (fst (fst (migrate_Version drv w)))
                              (snd (fst (migrate_Version drv w)))
                              (snd (migrate_Version drv w))]) = []).
      { now apply filter_firstn_nil. }
      split; [exact Hnone|]. split; [exact Hnone|].
      split; [discriminate|]. split; [discriminate|].
      intros _ Hyes. contradiction.
Qed.

(** X10: [Migrator.Assert] only reads: it never asks the library to migrate.
    It returns nil only when the schema is readable (an empty schema, for
    which the library answers [ErrNilVersion], counts as version 0), clean,
    and at the desired version converted to [uint]; and it does return nil
    then when the deadline of the context leaves room for the reading and
    the log line. Both revisions. *)
Theorem Assert_accepts_only_current (ctx : Ctx) (schemaVersion : Z)
    (w : World) :
  let r := Migrator_Assert drv ctx schemaVersion w in
  let r0 := Migrator_Assert_v0 drv ctx schemaVersion w in
  List.filter is_migrate (events r) = []
  /\ List.filter is_migrate (events r0) = []
  /\ (outcome r = Done None -> asserted drv schemaVersion w)
  /\ (outcome r0 = Done None -> asserted drv schemaVersion w)
  /\ (deadline_allows ctx 2 -> asserted drv schemaVersion w ->
      outcome r = Done None /\ outcome r0 = Done None).
Proof. exact (Assert_outcomes ctx schemaVersion w). Qed.

(** X11: after [Assert] has accepted a version, [Apply] of the same version
    has nothing to do, as long as the schema is still read the same: it
    reads the version, logs that there are no migrations to apply and
    returns nil without asking the library to migrate. Both revisions. *)
Theorem Assert_then_Apply (ctx ctx' : Ctx) (schemaVersion : Z) (w : World) :
  let a := Migrator_Assert drv ctx schemaVersion w in
  let a0 := Migrator_Assert_v0 drv ctx schemaVersion w in
  deadline_allows ctx' 2 ->
  (outcome a = Done None ->
   migrate_Version drv (w ++ events a) = migrate_Version drv w ->
   exists err,
     Migrator_Apply drv ctx' schemaVersion (w ++ events a)
     = ([EvVersion (GoInt.uint schemaVersion) false err;
         EvInfof "No migrations to apply" []], Done None))
  /\ (outcome a0 = Done None ->
      migrate_Version drv (w ++ events a0) = migrate_Version drv w ->
      exists err,
        Migrator_Apply_v0 drv ctx' schemaVersion (w ++ events a0)
        = ([EvVersion (GoInt.uint schemaVersion) false err;
            EvInfof "No migrations to apply" []], Done None)).
Proof.
  intros a a0 Hallow.
  assert (Hsteps : forall w',
            migrate_Version drv w' = migrate_Version drv w ->
            asserted drv schemaVersion w ->
            Migrator_Apply_steps drv schemaVersion w'
            = ([EvVersion (GoInt.uint schemaVersion) false
                  (snd (migrate_Version drv w));
                EvInfof "No migrations to apply" []], Done None)).
  { intros w' Hsame (Hread & Hclean & Hat). unfold accepted_as_read in Hread.
    unfold Migrator_Apply_steps, Infof. rewrite bind_call, Hsame.
    destruct (migrate_Version drv w) as [[current bad] err].
    cbn [fst snd accepted_as_read] in *. subst bad current.
    destruct err as [e|]; [rewrite Hread|]; cbn [negb];
      rewrite Z.eqb_refl; reflexivity. }
  pose proof (Assert_outcomes ctx schemaVersion w)
    as (_ & _ & Ha & Ha0 & _).
  split; intros Hnil Hsame; exists (snd (migrate_Version drv w)).
  - unfold Migrator_Apply. rewrite bind_eq.
    rewrite (Deadline_in_time ctx' _ _ 2 Hallow);
      rewrite (Hsteps _ Hsame (Ha Hnil)); [reflexivity|cbn; lia].
  - unfold Migrator_Apply_v0. rewrite bind_eq.
    rewrite (Deadline_in_time ctx' _ _ 2 Hallow);
      rewrite (Hsteps _ Hsame (Ha0 Hnil)); [reflexivity|cbn; lia].
Qed.

(** X12: the version that [Migrator.Version] returns for a clean schema is
    one that [Assert] accepts, as long as the schema is still read the same:
    the conversion of the version of the library to [int] and back to [uint]
    loses nothing, also for versions above the largest [int]. *)
Theorem Version_then_Assert (ctx ctx' : Ctx) (n : Z) (w : World) :
  let r := Migrator_Version drv ctx w in
  0 <= fst (fst (migrate_Version drv w)) < 2 ^ 64 ->
  outcome r = Done (n, false, None) ->
  migrate_Version drv (w ++ events r) = migrate_Version drv w ->
  deadline_allows ctx' 2 ->
  outcome (Migrator_Assert drv ctx' n (w ++ events r)) = Done None.
Proof.
  intros r Hrange Hout Hsame Hallow.
  assert (Hasserted : asserted drv n (w ++ events r)).
  { unfold asserted, accepted_as_read. rewrite Hsame. subst r.
    unfold Migrator_Version in Hout. rewrite bind_eq in Hout.
    destruct (Deadline_cases ctx (Migrator_Version_steps drv) w)
      as [Heq|[k Heq]]; rewrite Heq in Hout; clear Heq.
    2:{ cbn in Hout. discriminate. }
    unfold Migrator_Version_steps in Hout. rewrite bind_call in Hout.
    destruct (migrate_Version drv w) as [[current bad] err].
    unfold ret in Hout. cbn [fst snd outcome] in *.
    destruct err as [e|]; [destruct (same_error e migrate.ErrNilVersion)|];
      cbn [negb fst snd] in Hout.
    2:{ match type of Hout with
        | context [if ?c then _ else _] => destruct c
        end; discriminate. }
    all: injection Hout as Hn Hb; subst n bad;
      rewrite uint_int by exact Hrange; repeat split. }
  exact (proj1 (proj2 (proj2 (proj2 (proj2
           (Assert_outcomes ctx' n (w ++ events r))))) Hallow
           Hasserted)).
Qed.

End MigratorMore.

(** ** Rolling back migrations *)

Section RollbackProps.

Variable lib : Rollback.Library.

Lemma Calls_bind_eq {E A B} (m : Calls.Mon E A) (k : A -> Calls.Mon E B)
    (w : list E) :
  Calls.bind m k w =
    match m w with
    | (evs, Done a) => (evs ++ fst (k a (w ++ evs)), snd (k a (w ++ evs)))
    | (evs, Panicked v) => (evs, Panicked v)
    end.
Proof. reflexivity. Qed.

Lemma Calls_bind_call {E R B} (answer : list E -> R) (ev : R -> E)
    (k : R -> Calls.Mon E B) (w : list E) :
  Calls.bind (Calls.call answer ev) k w =
    (ev (answer w) :: fst (k (answer w) (w ++ [ev (answer w)])),
     snd (k (answer w) (w ++ [ev (answer w)]))).
Proof. reflexivity. Qed.

Lemma Calls_Deadline_cases {E} (deadline : option nat)
    (fn : Calls.Mon E (option error)) (w : list E) :
  Calls.Deadline deadline fn w = fn w
  \/ exists k,
       Calls.Deadline deadline fn w
       = (firstn k (fst (fn w)), Done (Some (New ErrDeadlineExceeded))).
Proof.
  unfold Calls.Deadline. destruct deadline as [k|]; [|now left].
  destruct (Nat.leb (List.length (fst (fn w))) k); [now left|].
  right. now exists k.
Qed.

Lemma Forall_firstn_of {A} (P : A -> Prop) (l : list A) (k : nat) :
  Forall P l -> Forall P (firstn k l).
Proof.
  intros Hl. revert k. induction Hl as [|a l Ha Hl IH]; intros k.
  - rewrite firstn_nil. constructor.
  - destruct k as [|k]; [constructor|]. cbn [firstn]. constructor; auto.
Qed.

(** What the inner functions call, whatever the library answers. *)
Lemma target_calls (current schemaVersion : Z) (w : list Rollback.MigrateCall) :
  let r := Rollback.target lib current schemaVersion w in
  Forall (Rollback.not_forward current) (fst r)
  /\ exists e, snd r = Done e.
Proof.
  intros r. subst r. unfold Rollback.target, Rollback.log.
  destruct (Z.eqb_spec current (GoInt.uint schemaVersion)) as [Heq|Hne].
  { rewrite Calls_bind_call. split; [repeat constructor|now eexists]. }
  destruct (Z.ltb_spec current (GoInt.uint schemaVersion)) as [Hlt|Hge].
  { split; [constructor|now eexists]. }
  rewrite Calls_bind_call. cbn [fst snd].
  destruct (schemaVersion =? 0); rewrite Calls_bind_call; cbn [fst snd].
  - destruct (Rollback.lib_Down lib _);
      [|rewrite Calls_bind_call]; cbn [fst snd Calls.ret];
      (split; [repeat constructor|now eexists]).
  - destruct (Rollback.lib_Migrate lib _ _);
      [|rewrite Calls_bind_call]; cbn [fst snd Calls.ret];
      (split; [repeat constructor; cbn; lia|now eexists]).
Qed.

Lemma target_v0_calls (current schemaVersion : Z)
    (w : list Rollback.MigrateCall) :
  let r := Rollback.target_v0 lib current schemaVersion w in
  Forall (Rollback.not_forward current) (fst r)
  /\ exists e, snd r = Done e.
Proof.
  intros r. subst r. unfold Rollback.target_v0, Rollback.log.
  destruct (Z.eqb_spec current (GoInt.uint schemaVersion)) as [Heq|Hne].
  { rewrite Calls_bind_call. split; [repeat constructor|now eexists]. }
  destruct (Z.ltb_spec current (GoInt.uint schemaVersion)) as [Hlt|Hge].
  { split; [constructor|now eexists]. }
  rewrite Calls_bind_call. cbn [fst snd].
  rewrite Calls_bind_call; cbn [fst snd].
  destruct (Rollback.lib_Migrate lib _ _);
    [|rewrite Calls_bind_call]; cbn [fst snd Calls.ret];
    (split; [repeat constructor; cbn; lia|now eexists]).
Qed.

Lemma steps_calls (schemaVersion : Z) (w : list Rollback.MigrateCall) :
  let current := fst (fst (Rollback.lib_Version lib w)) in
  let r := Rollback.steps lib schemaVersion w in
  let r0 := Rollback.steps_v0 lib schemaVersion w in
  Forall (Rollback.not_forward current) (fst r)
  /\ Forall (Rollback.not_forward current) (fst r0)
  /\ (forall e, snd (Rollback.lib_Version lib w) = Some e ->
      List.filter Rollback.changes_schema (fst r) = []
      /\ List.filter Rollback.changes_schema (fst r0) = []
      /\ snd r = Done (Some (Kit ErrMigratorGeneric None (Some e)))
      /\ snd r0 = Done (Some (Kit ErrMigratorGeneric None (Some e)))).
Proof.
  intros current r r0. subst current r r0.
  unfold Rollback.steps, Rollback.steps_v0, Rollback.log.
  rewrite !Calls_bind_call.
  destruct (Rollback.lib_Version lib w) as [[current bad] err].
  cbn [fst snd].
  destruct err as [e|].
  { cbn [Calls.ret fst snd]. split; [repeat constructor|].
    split; [repeat constructor|].
    intros e' He. injection He as <-. repeat split. }
  destruct bad.
  - rewrite !Calls_bind_call. cbn [fst snd]. rewrite ?Calls_bind_call.
    cbn [fst snd].
    split; [|split; [|intros e' He; discriminate]];
      repeat (constructor; [exact I|]);
      destruct (Rollback.lib_Force lib _ _) as [f|]; try constructor.
    + apply target_calls.
    + apply target_v0_calls.
  - split; [|split; [|intros e' He; discriminate]]; (constructor; [exact I|]).
    + apply target_calls.
    + apply target_v0_calls.
Qed.

(** X13: [Migrator.Rollback] never asks the library for a version at or above
    the one it has read; and when the library cannot read the version, also
    when its error is [ErrNilVersion], the one [Apply] and [Assert] accept,
    no call that changes the schema is made and the method fails. Both
    revisions, whatever the deadline. *)
Theorem Rollback_never_forward (deadline : option nat) (schemaVersion : Z)
    (w : list Rollback.MigrateCall) :
  let current := fst (fst (Rollback.lib_Version lib w)) in
  let r := Rollback.Rollback lib deadline schemaVersion w in
  let r0 := Rollback.Rollback_v0 lib deadline schemaVersion w in
  Forall (Rollback.not_forward current) (fst r)
  /\ Forall (Rollback.not_forward current) (fst r0)
  /\ (snd (Rollback.lib_Version lib w) <> None ->
      List.filter Rollback.changes_schema (fst r) = []
      /\ List.filter Rollback.changes_schema (fst r0) = []
      /\ (exists e, snd r = Done (Some e))
      /\ (exists e, snd r0 = Done (Some e))).
Proof.
  intros current r r0. subst current r r0.
  unfold Rollback.Rollback, Rollback.Rollback_v0. rewrite !Calls_bind_eq.
  destruct (steps_calls schemaVersion w) as (Hf & Hf0 & Hunread).
  split; [|split].
  - destruct (Calls_Deadline_cases deadline (Rollback.steps lib schemaVersion) w)
      as [Heq|[k Heq]]; rewrite Heq.
    + destruct (Rollback.steps lib schemaVersion w) as [evs [[e|]|v]];
        [destruct (Is ErrDeadlineExceeded e)| |];
        cbn [fst snd Calls.ret] in *; rewrite ?app_nil_r; exact Hf.
    + replace (Is ErrDeadlineExceeded (New ErrDeadlineExceeded)) with true
        by reflexivity.
      cbn [fst snd Calls.ret]. rewrite app_nil_r.
      now apply Forall_firstn_of.
  - destruct (Calls_Deadline_cases deadline
                (Rollback.steps_v0 lib schemaVersion) w)
      as [Heq|[k Heq]]; rewrite Heq.
    + destruct (Rollback.steps_v0 lib schemaVersion w) as [evs [[e|]|v]];
        [destruct (Is ErrDeadlineExceeded e)| |];
        cbn [fst snd Calls.ret] in *; rewrite ?app_nil_r; exact Hf0.
    + replace (Is ErrDeadlineExceeded (New ErrDeadlineExceeded)) with true
        by reflexivity.
      cbn [fst snd Calls.ret]. rewrite app_nil_r.
      now apply Forall_firstn_of.
  - intros Hsome.
    destruct (snd (Rollback.lib_Version lib w)) as [e|] eqn:He;
      [|now contradiction Hsome].
    destruct (Hunread e eq_refl) as (Hn & Hn0 & Ho & Ho0).
    destruct (Calls_Deadline_cases deadline (Rollback.steps lib schemaVersion) w)
      as [Heq|[k Heq]]; rewrite Heq; clear Heq;
    destruct (Calls_Deadline_cases deadline
                (Rollback.steps_v0 lib schemaVersion) w)
      as [Heq0|[k0 Heq0]]; rewrite Heq0; clear Heq0;
    destruct (Rollback.steps lib schemaVersion w) as [evs o];
    destruct (Rollback.steps_v0 lib schemaVersion w) as [evs0 o0];
    cbn [fst snd] in *; subst o o0;
    repeat match goal with
           | |- context [if ?c then _ else _] => destruct c
           end;
    cbn [fst snd Calls.ret]; rewrite ?app_nil_r;
    repeat split; eauto using filter_firstn_nil.
Qed.

Lemma int_id (x : Z) : - 2 ^ 63 <= x < 2 ^ 63 -> GoInt.int x = x.
Proof.
  intros Hx. unfold GoInt.int, GoInt.wrap_signed. change (64 - 1) with 63.
  rewrite Z.mod_small by lia. lia.
Qed.

Ltac rollback_wrappers :=
  unfold Rollback.Rollback, Rollback.Rollback_v0, Calls.Deadline;
  rewrite !Calls_bind_eq.

Ltac settle_wrapper :=
  repeat match goal with
         | |- context [if Is ErrDeadlineExceeded ?e then _ else _] =>
             destruct (Is ErrDeadlineExceeded e) eqn:?
         end;
  cbn [fst snd Calls.ret app List.filter Rollback.changes_schema].

(** The end of the inner functions on a version in the range of [int], the
    current one being clean or made clean. *)
Lemma target_in_range (current schemaVersion : Z)
    (w : list Rollback.MigrateCall) :
  0 <= current < 2 ^ 63 ->
  0 <= schemaVersion < 2 ^ 63 ->
  let r := Rollback.target lib current schemaVersion w in
  let r0 := Rollback.target_v0 lib current schemaVersion w in
  (schemaVersion = current ->
   r = ([Rollback.Infof "No migrations to rollback" []], Done None)
   /\ r0 = r)
  /\ (current < schemaVersion ->
      r = ([], Done (Some (Withf ErrMigratorGeneric
                             "desired schema version %d ahead of current one %d"
                             [schemaVersion; current])))
      /\ r0 = r)
  /\ (schemaVersion < current ->
      exists moved moved0,
        List.filter Rollback.changes_schema (fst r)
        = [if schemaVersion =? 0 then Rollback.Down moved
           else Rollback.Migrate schemaVersion moved]
        /\ List.filter Rollback.changes_schema (fst r0)
           = [Rollback.Migrate schemaVersion moved0]
        /\ nth_error (fst r) 0
           = Some (Rollback.Infof "%d migrations to be rollbacked"
                     [AInt (current - schemaVersion)])
        /\ snd r = Done (option_map
                           (fun _ => Kit ErrMigratorGeneric None moved) moved)
        /\ snd r0 = Done (option_map
                            (fun _ => Kit ErrMigratorGeneric None moved0)
                            moved0)).
Proof.
  intros Hc Hv r r0. subst r r0.
  unfold Rollback.target, Rollback.target_v0, Rollback.log.
  rewrite (uint_id schemaVersion) by lia.
  rewrite (int_id current) by lia.
  rewrite (int_id (current - schemaVersion)) by lia.
  split; [|split].
  - intros ->. rewrite Z.eqb_refl. split; reflexivity.
  - intros Hahead.
    destruct (Z.eqb_spec current schemaVersion); [lia|].
    destruct (Z.ltb_spec current schemaVersion); [|lia].
    split; reflexivity.
  - intros Hbehind.
    destruct (Z.eqb_spec current schemaVersion); [lia|].
    destruct (Z.ltb_spec current schemaVersion); [lia|].
    rewrite !Calls_bind_call. cbn [fst snd].
    destruct (schemaVersion =? 0); rewrite !Calls_bind_call; cbn [fst snd];
      match goal with
      | |- context [Rollback.Migrate schemaVersion ?m :: _] =>
          set (moved0 := m)
      end.
    + match goal with
      | |- context [Rollback.Down ?m :: _] => set (moved := m)
      end.
      exists moved, moved0.
      destruct moved, moved0; cbn; repeat split; reflexivity.
    + exists moved0, moved0.
      destruct moved0; cbn; repeat split; reflexivity.
Qed.

(** X14: [Migrator.Rollback] on a clean schema, for versions in the range of
    [int] and a context without deadline. The current version is left as it
    is; a version ahead of it is refused and nothing is asked of the library;
    a version behind it is reached in one call, which the later revision
    makes to [Down] when the version is 0 and to [Migrate] otherwise, and
    the earlier revision to [Migrate] always; the method then returns nil
    exactly when that call succeeds. *)
Theorem Rollback_clean (current schemaVersion : Z)
    (w : list Rollback.MigrateCall) :
  Rollback.lib_Version lib w = (current, false, None) ->
  0 <= current < 2 ^ 63 ->
  0 <= schemaVersion < 2 ^ 63 ->
  let r := Rollback.Rollback lib None schemaVersion w in
  let r0 := Rollback.Rollback_v0 lib None schemaVersion w in
  (schemaVersion = current ->
   List.filter Rollback.changes_schema (fst r) = []
   /\ List.filter Rollback.changes_schema (fst r0) = []
   /\ snd r = Done None /\ snd r0 = Done None)
  /\ (current < schemaVersion ->
      List.filter Rollback.changes_schema (fst r) = []
      /\ List.filter Rollback.changes_schema (fst r0) = []
      /\ (exists e, snd r = Done (Some e))
      /\ (exists e, snd r0 = Done (Some e)))
  /\ (schemaVersion < current ->
      exists moved moved0,
        List.filter Rollback.changes_schema (fst r)
        = [if schemaVersion =? 0 then Rollback.Down moved
           else Rollback.Migrate schemaVersion moved]
        /\ List.filter Rollback.changes_schema (fst r0)
           = [Rollback.Migrate schemaVersion moved0]
        /\ (snd r = Done None <-> moved = None)
        /\ (snd r0 = Done None <-> moved0 = None)).
Proof.
  intros Hversion Hc Hv r r0. subst r r0. rollback_wrappers.
  unfold Rollback.steps, Rollback.steps_v0. rewrite !Calls_bind_call.
  rewrite Hversion. cbn [fst snd].
  destruct (target_in_range current schemaVersion
              (w ++ [Rollback.Version current false None]) Hc Hv)
    as (Hsame & Hahead & Hbehind).
  split; [|split].
  - intros Heq. destruct (Hsame Heq) as [Hr Hr0]. rewrite Hr0, Hr.
    cbn. repeat split.
  - intros Hlt. destruct (Hahead Hlt) as [Hr Hr0]. rewrite Hr0, Hr.
    cbn. repeat split; eexists; reflexivity.
  - intros Hgt.
    destruct (Hbehind Hgt) as (moved & moved0 & Hf & Hf0 & _ & Ho & Ho0).
    exists moved, moved0.
    destruct (Rollback.target lib current schemaVersion _) as [evs o].
    destruct (Rollback.target_v0 lib current schemaVersion _) as [evs0 o0].
    cbn [fst snd] in *. subst o o0.
    destruct moved as [m|], moved0 as [m0|]; cbn [option_map];
      settle_wrapper; rewrite ?app_nil_r;
      (split; [exact Hf|]); (split; [exact Hf0|]);
      split; split; intros; congruence.
Qed.

(** Without a deadline the methods return what their inner functions
    return, up to the wrapping of the error. *)
Lemma Rollback_wrapper (schemaVersion : Z) (w : list Rollback.MigrateCall) :
  let s := Rollback.steps lib schemaVersion w in
  let r := Rollback.Rollback lib None schemaVersion w in
  (exists e, snd s = Done e) ->
  fst r = fst s
  /\ (snd r = Done None <-> snd s = Done None)
  /\ (forall e, snd s = Done (Some e) ->
      (exists e', snd r = Done (Some e'))
      /\ (Is ErrDeadlineExceeded e = false -> snd r = Done (Some e))).
Proof.
  intros s r [e He]. subst r. rollback_wrappers. fold s.
  destruct s as [evs o]. cbn [fst snd] in *. subst o.
  destruct e as [e|]; settle_wrapper; rewrite app_nil_r;
    (split; [reflexivity|]); (split; [split; intros; congruence|]);
    intros e' He'; try discriminate; split; try (eexists; reflexivity);
    intros; congruence.
Qed.

Lemma Rollback_v0_wrapper (schemaVersion : Z) (w : list Rollback.MigrateCall) :
  let s := Rollback.steps_v0 lib schemaVersion w in
  let r := Rollback.Rollback_v0 lib None schemaVersion w in
  (exists e, snd s = Done e) ->
  fst r = fst s
  /\ (snd r = Done None <-> snd s = Done None)
  /\ (forall e, snd s = Done (Some e) -> exists e', snd r = Done (Some e')).
Proof.
  intros s r [e He]. subst r. rollback_wrappers. fold s.
  destruct s as [evs o]. cbn [fst snd] in *. subst o.
  destruct e as [e|]; settle_wrapper; rewrite app_nil_r;
    (split; [reflexivity|]); (split; [split; intros; congruence|]);
    intros e' He'; try discriminate; eexists; reflexivity.
Qed.

Lemma steps_dirty (current schemaVersion : Z)
    (w : list Rollback.MigrateCall) :
  Rollback.lib_Version lib w = (current, true, None) ->
  0 <= current < 2 ^ 63 ->
  0 <= schemaVersion < 2 ^ 63 ->
  let r := Rollback.steps lib schemaVersion w in
  let r0 := Rollback.steps_v0 lib schemaVersion w in
  exists forced forced0,
    hd_error (List.filter Rollback.changes_schema (fst r))
    = Some (Rollback.Force current forced)
    /\ hd_error (List.filter Rollback.changes_schema (fst r0))
       = Some (Rollback.Force current forced0)
    /\ (forced <> None ->
        List.filter Rollback.changes_schema (fst r)
        = [Rollback.Force current forced]
        /\ snd r = Done (Some (Kit ErrMigratorGeneric None forced)))
    /\ (forced0 <> None ->
        List.filter Rollback.changes_schema (fst r0)
        = [Rollback.Force current forced0]
        /\ snd r0 = Done (Some (Kit ErrMigratorGeneric None forced0)))
    /\ (forced = None -> schemaVersion = 0 ->
        List.filter Rollback.changes_schema (fst r)
        = [Rollback.Force current None]
        /\ snd r = Done (Some (Withf ErrMigratorGeneric
                                 "desired schema version %d ahead of current one %d"
                                 [-1; current])))
    /\ (forced = None -> 0 < schemaVersion <= current ->
        exists moved,
          List.filter Rollback.changes_schema (fst r)
          = [Rollback.Force current None;
             if schemaVersion - 1 =? 0 then Rollback.Down moved
             else Rollback.Migrate (schemaVersion - 1) moved]
          /\ snd r = Done (option_map
                             (fun _ => Kit ErrMigratorGeneric None moved)
                             moved))
    /\ (forced0 = None -> schemaVersion = current ->
        List.filter Rollback.changes_schema (fst r0)
        = [Rollback.Force current None]
        /\ snd r0 = Done None)
    /\ (forced0 = None -> schemaVersion < current ->
        exists moved0,
          List.filter Rollback.changes_schema (fst r0)
          = [Rollback.Force current None;
             Rollback.Migrate schemaVersion moved0]
          /\ snd r0 = Done (option_map
                              (fun _ => Kit ErrMigratorGeneric None moved0)
                              moved0)).
Proof.
  intros Hversion Hc Hv r r0. subst r r0.
  unfold Rollback.steps, Rollback.steps_v0, Rollback.log.
  rewrite !Calls_bind_call. rewrite Hversion. cbn [fst snd].
  rewrite !Calls_bind_call. cbn [fst snd]. rewrite ?Calls_bind_call.
  cbn [fst snd]. rewrite (int_id current) by lia.
  match goal with
  | |- context [Rollback.lib_Force lib
                  ((w ++ ?a) ++
                   [Rollback.Infof
                      "Current schema version %d is dirty, setting desired to last version"
                      ?args]) current] =>
      set (h := (w ++ a) ++
                [Rollback.Infof
                   "Current schema version %d is dirty, setting desired to last version"
                   args]);
      set (forced := Rollback.lib_Force lib h current)
  end.
  match goal with
  | |- context [Rollback.lib_Force lib
                  ((w ++ ?a) ++
                   [Rollback.Infof
                      "Current schema version %d is dirty, ignoring" ?args])
                  current] =>
      set (h0 := (w ++ a) ++
                 [Rollback.Infof
                    "Current schema version %d is dirty, ignoring" args]);
      set (forced0 := Rollback.lib_Force lib h0 current)
  end.
  exists forced, forced0.
  split; [reflexivity|]. split; [reflexivity|].
  split; [|split; [|split; [|split; [|split]]]].
  - intros Hfailed. destruct forced as [f|]; [|now contradiction Hfailed].
    split; reflexivity.
  - intros Hfailed. destruct forced0 as [f|]; [|now contradiction Hfailed].
    split; reflexivity.
  - intros -> ->. unfold Rollback.target.
    replace (GoInt.uint (GoInt.int (0 - 1))) with 18446744073709551615
      by (vm_compute; reflexivity).
    replace (GoInt.int (0 - 1)) with (-1) by (vm_compute; reflexivity).
    destruct (Z.eqb_spec current 18446744073709551615); [lia|].
    destruct (Z.ltb_spec current 18446744073709551615); [|lia].
    split; reflexivity.
  - intros -> Hrange.
    rewrite (int_id (schemaVersion - 1)) by lia.
    destruct (target_in_range current (schemaVersion - 1)
                (h ++ [Rollback.Force current None]) Hc ltac:(lia))
      as (_ & _ & Hbehind).
    destruct (Hbehind ltac:(lia)) as (moved & _ & Hf & _ & _ & Ho & _).
    exists moved.
    destruct (Rollback.target lib current (schemaVersion - 1) _) as [evs o].
    cbn [fst snd List.filter Rollback.changes_schema] in *.
    rewrite Hf. split; [reflexivity|exact Ho].
  - intros -> ->.
    destruct (target_in_range current current
                (h0 ++ [Rollback.Force current None]) Hc Hc)
      as (Hsame & _ & _).
    destruct (Hsame eq_refl) as [Hr Hr0]. rewrite Hr0, Hr.
    split; reflexivity.
  - intros -> Hbehind.
    destruct (target_in_range current schemaVersion
                (h0 ++ [Rollback.Force current None]) Hc Hv)
      as (_ & _ & Hb).
    destruct (Hb Hbehind) as (_ & moved0 & _ & Hf0 & _ & _ & Ho0).
    exists moved0.
    destruct (Rollback.target_v0 lib current schemaVersion _) as [evs o].
    cbn [fst snd List.filter Rollback.changes_schema] in *.
    rewrite Hf0. split; [reflexivity|exact Ho0].
Qed.

(** X15: [Migrator.Rollback] on a dirty schema, for versions in the range of
    [int] and a context without deadline. Both revisions first force the
    current version, and stop with an error when that fails. The later
    revision then aims one version below the desired one: the desired
    version 0 becomes -1 and is refused as ahead of the current version,
    and a desired version from 1 up to the current one is reached in one
    call for the version below it. The earlier revision keeps the desired
    version: the current version is left as it is and the method returns
    nil, a version behind it is reached in one call to [Migrate]. *)
Theorem Rollback_dirty (current schemaVersion : Z)
    (w : list Rollback.MigrateCall) :
  Rollback.lib_Version lib w = (current, true, None) ->
  0 <= current < 2 ^ 63 ->
  0 <= schemaVersion < 2 ^ 63 ->
  let r := Rollback.Rollback lib None schemaVersion w in
  let r0 := Rollback.Rollback_v0 lib None schemaVersion w in
  exists forced forced0,
    hd_error (List.filter Rollback.changes_schema (fst r))
    = Some (Rollback.Force current forced)
    /\ hd_error (List.filter Rollback.changes_schema (fst r0))
       = Some (Rollback.Force current forced0)
    /\ (forced <> None ->
        List.filter Rollback.changes_schema (fst r)
        = [Rollback.Force current forced]
        /\ exists e, snd r = Done (Some e))
    /\ (forced0 <> None ->
        List.filter Rollback.changes_schema (fst r0)
        = [Rollback.Force current forced0]
        /\ exists e, snd r0 = Done (Some e))
    /\ (forced = None -> schemaVersion = 0 ->
        List.filter Rollback.changes_schema (fst r)
        = [Rollback.Force current None]
        /\ snd r = Done (Some (Withf ErrMigratorGeneric
                                 "desired schema version %d ahead of current one %d"
                                 [-1; current])))
    /\ (forced = None -> 0 < schemaVersion <= current ->
        exists moved,
          List.filter Rollback.changes_schema (fst r)
          = [Rollback.Force current None;
             if schemaVersion - 1 =? 0 then Rollback.Down moved
             else Rollback.Migrate (schemaVersion - 1) moved]
          /\ (snd r = Done None <-> moved = None))
    /\ (forced0 = None -> schemaVersion = current ->
        List.filter Rollback.changes_schema (fst r0)
        = [Rollback.Force current None]
        /\ snd r0 = Done None)
    /\ (forced0 = None -> schemaVersion < current ->
        exists moved0,
          List.filter Rollback.changes_schema (fst r0)
          = [Rollback.Force current None;
             Rollback.Migrate schemaVersion moved0]
          /\ (snd r0 = Done None <-> moved0 = None)).
Proof.
  intros Hversion Hc Hv r r0.
  destruct (steps_dirty current schemaVersion w Hversion Hc Hv)
    as (forced & forced0 & Hh & Hh0 & Hff & Hff0 & Hzero & Hbelow & Hsame0
        & Hbehind0).
  assert (Hret : exists e, snd (Rollback.steps lib schemaVersion w) = Done e).
  { destruct forced as [f|] eqn:Hforced.
    - destruct (Hff ltac:(discriminate)) as [_ Ho]. eauto.
    - revert Hzero Hbelow. unfold Rollback.steps, Rollback.log.
      rewrite !Calls_bind_call, Hversion. cbn [fst snd].
      rewrite !Calls_bind_call. cbn [fst snd]. rewrite ?Calls_bind_call.
      cbn [fst snd]. intros _ _.
      destruct (Rollback.lib_Force lib _ _); [now eexists|].
      apply target_calls. }
  assert (Hret0 : exists e,
                    snd (Rollback.steps_v0 lib schemaVersion w) = Done e).
  { unfold Rollback.steps_v0, Rollback.log.
    rewrite !Calls_bind_call, Hversion. cbn [fst snd].
    rewrite !Calls_bind_call. cbn [fst snd]. rewrite ?Calls_bind_call.
    cbn [fst snd].
    destruct (Rollback.lib_Force lib _ _); [now eexists|].
    apply target_v0_calls. }
  destruct (Rollback_wrapper schemaVersion w Hret) as (Hev & Hnil & Herr).
  destruct (Rollback_v0_wrapper schemaVersion w Hret0)
    as (Hev0 & Hnil0 & Herr0).
  subst r r0. rewrite Hev, Hev0.
  exists forced, forced0.
  split; [exact Hh|]. split; [exact Hh0|].
  split; [|split; [|split; [|split; [|split]]]].
  - intros Hfailed. destruct (Hff Hfailed) as [Hf Ho].
    split; [exact Hf|]. exact (proj1 (Herr _ Ho)).
  - intros Hfailed. destruct (Hff0 Hfailed) as [Hf Ho].
    split; [exact Hf|]. exact (Herr0 _ Ho).
  - intros Hforced Hv0. destruct (Hzero Hforced Hv0) as [Hf Ho].
    split; [exact Hf|]. exact (proj2 (Herr _ Ho) eq_refl).
  - intros Hforced Hrange.
    destruct (Hbelow Hforced Hrange) as (moved & Hf & Ho).
    exists moved. split; [exact Hf|]. rewrite Hnil, Ho.
    destruct moved; cbn [option_map]; split; intros; congruence.
  - intros Hforced Hv0. destruct (Hsame0 Hforced Hv0) as [Hf Ho].
    split; [exact Hf|]. now apply Hnil0.
  - intros Hforced Hlt.
    destruct (Hbehind0 Hforced Hlt) as (moved0 & Hf & Ho).
    exists moved0. split; [exact Hf|]. rewrite Hnil0, Ho.
    destruct moved0; cbn [option_map]; split; intros; congruence.
Qed.

Lemma target_negative (current schemaVersion : Z)
    (w : list Rollback.MigrateCall) :
  0 <= current < 2 ^ 63 ->
  - 2 ^ 63 <= schemaVersion < 0 ->
  Rollback.target lib current schemaVersion w
  = ([], Done (Some (Withf ErrMigratorGeneric
                       "desired schema version %d ahead of current one %d"
                       [schemaVersion; current])))
  /\ Rollback.target_v0 lib current schemaVersion w
     = Rollback.target lib current schemaVersion w.
Proof.
  intros Hc Hv.
  assert (Huint : GoInt.uint schemaVersion = 2 ^ 64 + schemaVersion).
  { unfold GoInt.uint, GoInt.wrap_unsigned.
    rewrite <- (Z.mod_small (2 ^ 64 + schemaVersion) (2 ^ 64)) by lia.
    rewrite <- (Z_mod_plus_full schemaVersion 1 (2 ^ 64)). f_equal. lia. }
  unfold Rollback.target, Rollback.target_v0. rewrite Huint.
  destruct (Z.eqb_spec current (2 ^ 64 + schemaVersion)); [lia|].
  destruct (Z.ltb_spec current (2 ^ 64 + schemaVersion)); [|lia].
  split; reflexivity.
Qed.

(** X17: [Migrator.Rollback] on a negative version never asks the library
    to migrate or to go down: converted to [uint] the version is found ahead
    of the current one. The earlier revision always fails, and so does the
    later one but in one case: on a dirty schema at the largest [int], the
    smallest [int] wraps around when it is decremented, is found equal to
    the current version, and the method returns nil once the schema is
    forced. A dirty schema is forced first; on a clean one no call changes
    the schema. Both revisions, for a context without deadline. *)
Theorem Rollback_negative_refused (current schemaVersion : Z) (dirty : bool)
    (w : list Rollback.MigrateCall) :
  Rollback.lib_Version lib w = (current, dirty, None) ->
  0 <= current < 2 ^ 63 ->
  - 2 ^ 63 <= schemaVersion < 0 ->
  let r := Rollback.Rollback lib None schemaVersion w in
  let r0 := Rollback.Rollback_v0 lib None schemaVersion w in
  let wrapped :=
    dirty = true /\ schemaVersion = - 2 ^ 63 /\ current = 2 ^ 63 - 1 in
  List.filter Rollback.moves_schema (fst r) = []
  /\ List.filter Rollback.moves_schema (fst r0) = []
  /\ (exists e, snd r0 = Done (Some e))
  /\ (~ wrapped -> exists e, snd r = Done (Some e))
  /\ (wrapped ->
      exists forced,
        List.filter Rollback.changes_schema (fst r)
        = [Rollback.Force current forced]
        /\ (forced = None -> snd r = Done None)
        /\ (forced <> None -> exists e, snd r = Done (Some e)))
  /\ (dirty = false ->
      List.filter Rollback.changes_schema (fst r) = []
      /\ List.filter Rollback.changes_schema (fst r0) = []).
Proof.
  intros Hversion Hc Hv r r0 wrapped.
  assert (Hs0 :
            exists evs0 e0,
              Rollback.steps_v0 lib schemaVersion w = (evs0, Done (Some e0))
              /\ List.filter Rollback.moves_schema evs0 = []
              /\ (dirty = false ->
                  List.filter Rollback.changes_schema evs0 = [])).
  { unfold Rollback.steps_v0, Rollback.log.
    rewrite !Calls_bind_call, Hversion. cbn [fst snd].
    pose proof (fun h => target_negative current schemaVersion h Hc Hv)
      as Hneg.
    destruct dirty.
    - rewrite !Calls_bind_call. cbn [fst snd]. rewrite ?Calls_bind_call.
      cbn [fst snd].
      destruct (Rollback.lib_Force lib _ _);
        rewrite ?(fun h => proj2 (Hneg h)), ?(fun h => proj1 (Hneg h));
        cbn [fst snd Calls.ret]; eexists _, _;
        (split; [reflexivity|]); (split; [reflexivity|]); discriminate.
    - rewrite (fun h => proj2 (Hneg h)), (fun h => proj1 (Hneg h)).
      cbn [fst snd]. eexists _, _. repeat split. }
  assert (Hs :
            exists evs o,
              Rollback.steps lib schemaVersion w = (evs, Done o)
              /\ List.filter Rollback.moves_schema evs = []
              /\ (dirty = false ->
                  List.filter Rollback.changes_schema evs = [])
              /\ (~ wrapped -> o <> None)
              /\ (wrapped ->
                  exists forced,
                    List.filter Rollback.changes_schema evs
                    = [Rollback.Force current forced]
                    /\ (forced = None -> o = None)
                    /\ (forced <> None -> o <> None))).
  { subst wrapped. unfold Rollback.steps, Rollback.log.
    rewrite !Calls_bind_call, Hversion. cbn [fst snd].
    destruct dirty.
    2:{ destruct (target_negative current schemaVersion
                    (w ++ [Rollback.Version current false None]) Hc Hv)
          as [Ht _].
        rewrite Ht. cbn [fst snd]. eexists _, _.
        split; [reflexivity|]. split; [reflexivity|].
        split; [reflexivity|]. split; [discriminate|].
        intros (Hd & _). discriminate. }
    rewrite !Calls_bind_call. cbn [fst snd]. rewrite ?Calls_bind_call.
    cbn [fst snd]. rewrite (int_id current) by lia.
    match goal with
    | |- context [Rollback.Force current ?f :: _] => set (forced := f)
    end.
    destruct forced as [f|] eqn:Hforced.
    { cbn [fst snd Calls.ret]. eexists _, _.
      split; [reflexivity|]. split; [reflexivity|].
      split; [discriminate|]. split; [discriminate|].
      intros _. eexists. split; [reflexivity|].
      split; [discriminate|]. discriminate. }
    destruct (Z.eq_dec schemaVersion (- 2 ^ 63)) as [Hmin|Hmin].
    - subst schemaVersion.
      replace (GoInt.int (- 2 ^ 63 - 1)) with (2 ^ 63 - 1)
        by (vm_compute; reflexivity).
      assert (Hmax : 0 <= 2 ^ 63 - 1 < 2 ^ 63) by lia.
      match goal with
      | |- context [Rollback.target lib current (2 ^ 63 - 1) ?h] =>
          destruct (target_in_range current (2 ^ 63 - 1) h Hc Hmax)
            as (Hsame & Hahead & _)
      end.
      destruct (Z.eq_dec current (2 ^ 63 - 1)) as [Hcur|Hcur].
      + destruct (Hsame (eq_sym Hcur)) as [Ht _]. rewrite Ht.
        cbn [fst snd]. eexists _, _.
        split; [reflexivity|]. split; [reflexivity|].
        split; [discriminate|]. split.
        * intros Hnot _. apply Hnot. repeat split. exact Hcur.
        * intros _. eexists. split; [reflexivity|].
          split; [reflexivity|]. intros Hf. now contradiction Hf.
      + destruct (Hahead ltac:(lia)) as [Ht _]. rewrite Ht.
        cbn [fst snd]. eexists _, _.
        split; [reflexivity|]. split; [reflexivity|].
        split; [discriminate|]. split; [discriminate|].
        intros (_ & _ & Hcur'). contradiction.
    - rewrite (int_id (schemaVersion - 1)) by lia.
      match goal with
      | |- context [Rollback.target lib current (schemaVersion - 1) ?h] =>
          destruct (target_negative current (schemaVersion - 1) h Hc
                      ltac:(lia)) as [Ht _]
      end.
      rewrite Ht. cbn [fst snd]. eexists _, _.
      split; [reflexivity|]. split; [reflexivity|].
      split; [discriminate|]. split; [discriminate|].
      intros (_ & Hmin' & _). contradiction. }
  destruct Hs0 as (evs0 & e0 & Hs0 & Hm0 & Hclean0).
  destruct Hs as (evs & o & Hs & Hm & Hclean & Hrefused & Hwrapped).
  destruct (Rollback_wrapper schemaVersion w) as (Hev & Hnil & Herr);
    [rewrite Hs; now eexists|].
  destruct (Rollback_v0_wrapper schemaVersion w) as (Hev0 & _ & Herr0);
    [rewrite Hs0; now eexists|].
  subst r r0. rewrite Hev, Hev0, Hs, Hs0 in *. cbn [fst snd] in *.
  split; [exact Hm|]. split; [exact Hm0|].
  split; [now apply (Herr0 e0)|].
  split; [|split].
  - intros Hnot. specialize (Hrefused Hnot).
    destruct o as [e|]; [|now contradiction Hrefused].
    now apply (Herr e).
  - intros Hw. destruct (Hwrapped Hw) as (forced & Hf & Hnone & Hsome).
    exists forced. split; [exact Hf|]. split.
    + intros Hforced. apply Hnil. now rewrite (Hnone Hforced).
    + intros Hforced. specialize (Hsome Hforced).
      destruct o as [e|]; [|now contradiction Hsome].
      now apply (Herr e).
  - intros Hd. split; [now apply Hclean|now apply Hclean0].
Qed.

End RollbackProps.

(** ** The recover middleware *)

Section RecoverProps.

Lemma Handle_eq (next : Calls.Mon Recover.HandlerCall (option error))
    (w : list Recover.HandlerCall) :
  Recover.Handle next w =
    match next w with
    | (evs, Done a) => (evs, Done a)
    | (evs, Panicked v) =>
        if Recover.is_abort (Recover.reported v) then (evs, Panicked v)
        else (evs ++ [Recover.CtxError (Recover.reported v)], Done None)
    end.
Proof.
  unfold Recover.Handle, Calls.defer_recover.
  destruct (next w) as [evs [a|v]]; [reflexivity|].
  destruct (Recover.is_abort (Recover.reported v)).
  - unfold Calls.panic. cbn [fst snd]. now rewrite app_nil_r.
  - reflexivity.
Qed.

Variable next : Calls.Mon Recover.HandlerCall (option error).

(** X16: [Recover.Handle]. What the handler returns is returned as it is and
    [ctx.Error] is not called. A panic of the handler is turned into one call
    of [ctx.Error], with the recovered error or with the server error made
    of the recovered value, and the middleware returns nil. The only panic
    that leaves the middleware is the one whose value is
    [http.ErrAbortHandler], raised again without a call of [ctx.Error]; so
    the middleware applied twice does what it does applied once. *)
Theorem Handle_outcomes (w : list Recover.HandlerCall) :
  let r := next w in
  let h := Recover.Handle next w in
  (forall err, snd r = Done err -> h = r)
  /\ (forall v, snd r = Panicked v ->
      Recover.is_abort (Recover.reported v) = false ->
      h = (fst r ++ [Recover.CtxError (Recover.reported v)], Done None))
  /\ (forall v, snd r = Panicked v ->
      Recover.is_abort (Recover.reported v) = true ->
      h = r
      /\ exists e, v = PanicError e
                   /\ same_error e Recover.http_ErrAbortHandler = true)
  /\ (forall v, snd h = Panicked v ->
      Recover.is_abort (Recover.reported v) = true)
  /\ Recover.Handle (Recover.Handle next) w = h.
Proof.
  intros r h. subst r h.
  rewrite (Handle_eq (Recover.Handle next)), (Handle_eq next).
  destruct (next w) as [evs [a|v]]; cbn [fst snd].
  - repeat split; intros; try discriminate; congruence.
  - destruct (Recover.is_abort (Recover.reported v)) eqn:Habort;
      cbn [fst snd]; rewrite ?Habort.
    + split; [discriminate|]. split; [intros v' Hv; congruence|].
      split.
      { intros v' Hv _. injection Hv as <-. split; [reflexivity|].
        destruct v as [e|x| |]; cbn in Habort; try discriminate.
        now exists e. }
      split; [|reflexivity]. intros v' Hv. injection Hv as <-. exact Habort.
    + split; [discriminate|]. split.
      { intros v' Hv _. injection Hv as <-. reflexivity. }
      split; [intros v' Hv; congruence|].
      split; [discriminate|reflexivity].
Qed.

End RecoverProps.

(** ** The properties above on examples *)

Lemma Exec_reports_witness :
  conn_Exec quiet [] "UPDATE accounts SET balance = 0" = (1, None)
  /\ ctx_Err quiet
       [EvExec None "UPDATE accounts SET balance = 0" 1 None] = None
  /\ outcome (@Database_Exec plain_text quiet example_database background
                "UPDATE accounts SET balance = 0" [])
     = Done (1, None).
Proof.
  split; [reflexivity|]. split; [reflexivity|].
  exact (proj1 (proj2 (@Exec_reports plain_text quiet example_database
                         background "UPDATE accounts SET balance = 0" []))
           eq_refl eq_refl).
Defined.

Lemma Query_reports_witness :
  conn_Query quiet [] "SELECT balance FROM accounts" = None
  /\ outcome (@Database_Query plain_text quiet example_database background
                "SELECT balance FROM accounts" [])
     = Done None.
Proof.
  split; [reflexivity|].
  exact (proj1 (proj2 (proj1 (proj2
           (@Query_reports plain_text quiet example_database background
              "SELECT balance FROM accounts" [])) eq_refl eq_refl)) eq_refl).
Defined.

Lemma Transaction_statements_on_handle_witness :
  let b := nested [None; Some IsoLvlSerializable]
             (DoExec "UPDATE accounts SET balance = 0" (fun _ => Return None)) in
  ctx_tx background = None
  /\ effective_level example_database (Some IsoLvlSerializable)
     = Some IsoLvlSerializable
  /\ Forall (sent_to (Some 0%nat))
       (events (Database_Transaction quiet example_database background
                  (Some IsoLvlSerializable)
                  (@run plain_text quiet example_database b) [])).
Proof.
  split; [reflexivity|]. split; [reflexivity|].
  exact (@Transaction_statements_on_handle plain_text quiet example_database
           (nested [None; Some IsoLvlSerializable]
              (DoExec "UPDATE accounts SET balance = 0"
                 (fun _ => Return None)))
           background (Some IsoLvlSerializable) IsoLvlSerializable []
           eq_refl eq_refl).
Defined.

Lemma Transaction_nested_failure_witness :
  let r := Database_Transaction quiet example_database background
             (Some IsoLvlSerializable)
             (@run plain_text quiet example_database
                (nested [None; None] (Return (Some body_failed)))) [] in
  pool_BeginTx quiet [] = None
  /\ outcome r = Done (Some (failed_times 3 body_failed)).
Proof.
  split; [reflexivity|].
  exact (proj1 (@Transaction_nested_failure plain_text quiet example_database
                  [None; None] body_failed background
                  (Some IsoLvlSerializable) IsoLvlSerializable []
                  eq_refl eq_refl eq_refl eq_refl)).
Defined.

Lemma Transaction_success_is_commit_witness :
  let r := Database_Transaction quiet example_database background
             (Some IsoLvlSerializable)
             (@run plain_text quiet example_database (Return None)) [] in
  outcome r = Done None
  /\ rollbacks (events r) = O
  /\ commits (events r) = 1%nat.
Proof.
  split; [reflexivity|].
  pose proof (proj1 (@Transaction_success_is_commit plain_text quiet
                       example_database (Return None) background
                       (Some IsoLvlSerializable) IsoLvlSerializable []
                       eq_refl eq_refl eq_refl eq_refl) eq_refl)
    as (Hr & Hc & _).
  split; [exact Hr|exact Hc].
Defined.

Lemma Transaction_not_started_skips_fn_witness :
  let cancelled := with_ctx_Err (fun _ => Some context_DeadlineExceeded) quiet in
  pool_BeginTx cancelled [] = None
  /\ Database_Transaction cancelled example_database background
       (Some IsoLvlSerializable)
       (@run plain_text cancelled example_database
          (DoExec "UPDATE accounts SET balance = 0" (fun _ => Return None))) []
     = ([EvBeginTx pgx.Serializable pgx.ReadWrite None;
         EvCtxErr (Some context_DeadlineExceeded)],
        Done (Some (Kit ErrDatabaseTransactionFailed None
                      (Some context_DeadlineExceeded)))).
Proof.
  split; [reflexivity|].
  exact (proj1 (proj2 (Transaction_not_started_skips_fn
                         (with_ctx_Err (fun _ => Some context_DeadlineExceeded)
                            quiet)
                         example_database background (Some IsoLvlSerializable)
                         IsoLvlSerializable
                         (@run plain_text
                            (with_ctx_Err
                               (fun _ => Some context_DeadlineExceeded) quiet)
                            example_database
                            (DoExec "UPDATE accounts SET balance = 0"
                               (fun _ => Return None)))
                         [] context_DeadlineExceeded eq_refl eq_refl)
                  eq_refl) eq_refl).
Defined.

Lemma Transaction_v0_exits_witness :
  let failing := with_Rollback (fun _ => Some rollback_failed) quiet in
  let fn := @run plain_text failing example_database
              (Return (Some body_failed)) in
  raised_by_user (outcome (fn (WithValue background 0) []))
  /\ exists tail final,
       Database_Transaction_v0 failing example_database background fn []
       = ([EvBeginTx pgx.Serializable pgx.ReadWrite None; EvCtxErr None]
          ++ [] ++ tail, final)
       /\ closing_v0 0 (Done (Some body_failed)) tail final.
Proof.
  split; [exact I|].
  exact (Transaction_v0_exits
           (with_Rollback (fun _ => Some rollback_failed) quiet)
           example_database background
           (@run plain_text
              (with_Rollback (fun _ => Some rollback_failed) quiet)
              example_database (Return (Some body_failed)))
           [] eq_refl eq_refl eq_refl I).
Defined.

Lemma FindStringSubmatch_group_witness :
  no_marker "ERROR: duplicate key " = true
  /\ single_line "23505" = true
  /\ Regexp.FindStringSubmatch
       "ERROR: duplicate key (SQLSTATE 23505)"
     = ["(SQLSTATE 23505)"%string; "23505"%string].
Proof.
  split; [reflexivity|]. split; [reflexivity|].
  exact (proj2 (FindStringSubmatch_group "ERROR: duplicate key " "23505" ""
                  eq_refl) eq_refl eq_refl).
Defined.

Lemma code_read_to_last_parenthesis_witness :
  let e := Raw 21 "ERROR: duplicate key (SQLSTATE 23505) (attempt 2)" in
  In pgerrcode.UniqueViolation integrity_codes
  /\ exists k, @_dbErrToError plain_text (Some e) = Some (Kit k None (Some e))
               /\ k <> ErrDatabaseIntegrityViolation.
Proof.
  assert (Hin : In pgerrcode.UniqueViolation integrity_codes)
    by (cbn; tauto).
  split; [exact Hin|].
  exact (proj2 (@code_read_to_last_parenthesis plain_text
                  (Raw 21 "ERROR: duplicate key (SQLSTATE 23505) (attempt 2)")
                  "ERROR" "duplicate key" pgerrcode.UniqueViolation ""
                  eq_refl eq_refl Hin eq_refl)
           " (attempt 2" eq_refl eq_refl).
Defined.

Lemma Assert_accepts_only_current_witness :
  deadline_allows background 2
  /\ asserted quiet 3 []
  /\ outcome (Migrator_Assert quiet background 3 []) = Done None
  /\ outcome (Migrator_Assert_v0 quiet background 3 []) = Done None.
Proof.
  assert (Hasserted : asserted quiet 3 []) by (repeat split).
  split; [exact I|]. split; [exact Hasserted|].
  exact (proj2 (proj2 (proj2 (proj2
           (Assert_accepts_only_current quiet background 3 []))))
           I Hasserted).
Defined.

Lemma Assert_then_Apply_witness :
  let a := Migrator_Assert quiet background 3 [] in
  outcome a = Done None
  /\ exists err,
       Migrator_Apply quiet background 3 ([] ++ events a)
       = ([EvVersion (GoInt.uint 3) false err;
           EvInfof "No migrations to apply" []], Done None).
Proof.
  split; [reflexivity|].
  exact (proj1 (Assert_then_Apply quiet background background 3 [] I)
           eq_refl eq_refl).
Defined.

Lemma Version_then_Assert_witness :
  let r := Migrator_Version quiet background [] in
  outcome r = Done (3, false, None)
  /\ outcome (Migrator_Assert quiet background 3 ([] ++ events r)) = Done None.
Proof.
  assert (Hrange : 0 <= 3 < 2 ^ 64) by lia.
  split; [reflexivity|].
  exact (Version_then_Assert quiet background background 3 [] Hrange
           eq_refl eq_refl I).
Defined.

Lemma Rollback_never_forward_witness :
  let r := Rollback.Rollback Rollback.empty_schema None 0 [] in
  snd (Rollback.lib_Version Rollback.empty_schema []) <> None
  /\ List.filter Rollback.changes_schema (fst r) = []
  /\ exists e, snd r = Done (Some e).
Proof.
  assert (Hsome : snd (Rollback.lib_Version Rollback.empty_schema [])
                  <> None) by discriminate.
  split; [exact Hsome|].
  destruct (proj2 (proj2 (Rollback_never_forward Rollback.empty_schema None
                            0 [])) Hsome) as (Hnone & _ & Herr & _).
  split; [exact Hnone|exact Herr].
Defined.

Lemma Rollback_clean_witness :
  let r := Rollback.Rollback (Rollback.at_version 3 false) None 0 [] in
  0 <= 3 < 2 ^ 63
  /\ exists moved moved0,
       List.filter Rollback.changes_schema (fst r)
       = [if 0 =? 0 then Rollback.Down moved else Rollback.Migrate 0 moved]
       /\ List.filter Rollback.changes_schema
            (fst (Rollback.Rollback_v0 (Rollback.at_version 3 false) None 0 []))
          = [Rollback.Migrate 0 moved0]
       /\ (snd r = Done None <-> moved = None)
       /\ (snd (Rollback.Rollback_v0 (Rollback.at_version 3 false) None 0 [])
           = Done None <-> moved0 = None).
Proof.
  assert (Hc : 0 <= 3 < 2 ^ 63) by lia.
  assert (Hv : 0 <= 0 < 2 ^ 63) by lia.
  assert (Hlt : 0 < 3) by lia.
  split; [exact Hc|].
  exact (proj2 (proj2 (Rollback_clean (Rollback.at_version 3 false) 3 0 []
                         eq_refl Hc Hv)) Hlt).
Defined.

Lemma Rollback_dirty_witness :
  0 <= 3 < 2 ^ 63
  /\ exists forced forced0,
       hd_error (List.filter Rollback.changes_schema
                   (fst (Rollback.Rollback (Rollback.at_version 3 true) None
                           3 [])))
       = Some (Rollback.Force 3 forced)
       /\ hd_error (List.filter Rollback.changes_schema
                      (fst (Rollback.Rollback_v0 (Rollback.at_version 3 true)
                              None 3 [])))
          = Some (Rollback.Force 3 forced0).
Proof.
  assert (Hc : 0 <= 3 < 2 ^ 63) by lia.
  split; [exact Hc|].
  destruct (Rollback_dirty (Rollback.at_version 3 true) 3 3 [] eq_refl Hc Hc)
    as (forced & forced0 & Hh & Hh0 & _).
  exists forced, forced0. split; [exact Hh|exact Hh0].
Defined.

Lemma Handle_outcomes_witness :
  let next : Calls.Mon Recover.HandlerCall (option error) :=
    Calls.bind (Calls.call (fun _ => tt) (fun _ => Recover.Does "read body"))
      (fun _ => Calls.panic (PanicValue "boom")) in
  snd (next []) = Panicked (PanicValue "boom")
  /\ Recover.Handle next []
     = ([Recover.Does "read body";
         Recover.CtxError (Recover.ServerGeneric "boom")], Done None).
Proof.
  split; [reflexivity|].
  exact (proj1 (proj2 (Handle_outcomes
                         (Calls.bind
                            (Calls.call (fun _ => tt)
                               (fun _ => Recover.Does "read body"))
                            (fun _ => Calls.panic (PanicValue "boom")))
                         [])) (PanicValue "boom") eq_refl eq_refl).
Defined.

Lemma Rollback_negative_refused_witness :
  0 <= 3 < 2 ^ 63
  /\ - 2 ^ 63 <= -1 < 0
  /\ List.filter Rollback.changes_schema
       (fst (Rollback.Rollback (Rollback.at_version 3 false) None (-1) []))
     = []
  /\ (exists e,
        snd (Rollback.Rollback (Rollback.at_version 3 false) None (-1) [])
        = Done (Some e))
  /\ 0 <= 2 ^ 63 - 1 < 2 ^ 63
  /\ - 2 ^ 63 <= - 2 ^ 63 < 0
  /\ snd (Rollback.Rollback (Rollback.at_version (2 ^ 63 - 1) true) None
            (- 2 ^ 63) [])
     = Done None.
Proof.
  assert (Hc : 0 <= 3 < 2 ^ 63) by lia.
  assert (Hv : - 2 ^ 63 <= -1 < 0) by lia.
  assert (Hmax : 0 <= 2 ^ 63 - 1 < 2 ^ 63) by lia.
  assert (Hmin : - 2 ^ 63 <= - 2 ^ 63 < 0) by lia.
  assert (Hnot : ~ (false = true /\ -1 = - 2 ^ 63 /\ 3 = 2 ^ 63 - 1)).
  { intros (Hd & _). discriminate Hd. }
  pose proof (Rollback_negative_refused (Rollback.at_version 3 false) 3 (-1)
                false [] eq_refl Hc Hv)
    as (_ & _ & _ & Hrefused & _ & Hclean).
  pose proof (Rollback_negative_refused
                (Rollback.at_version (2 ^ 63 - 1) true) (2 ^ 63 - 1)
                (- 2 ^ 63) true [] eq_refl Hmax Hmin)
    as (_ & _ & _ & _ & Hwrapped & _).
  split; [exact Hc|]. split; [exact Hv|].
  split; [exact (proj1 (Hclean eq_refl))|].
  split; [exact (Hrefused Hnot)|].
  split; [exact Hmax|]. split; [exact Hmin|].
  destruct (Hwrapped (conj eq_refl (conj eq_refl eq_refl)))
    as (forced & Hf & Hnone & _).
  apply Hnone. cbn in Hf. now injection Hf as <-.
Defined.
